(** * Lab-report abnormality scanner: the extraction and classification core

    A shallow embedding of [app.py]: the test dictionary, the range and value
    extractors, the multi-line block parser, the narrative filter of
    [analyze_file] and the classification loop of [analyze_route], with the
    properties the specification states about them.

    Conventions of the model.
    - Text is a list of characters.  Character classes ([\d], [\s], [\w],
      [str.lower], [str.isdigit], [str.strip]) are given for ASCII; the
      theorems that quantify over documents are about ASCII documents.
    - Python floats are binary64 values: a finite float is the rational it
      denotes, obtained by rounding to nearest, ties to even.
    - Exceptions are explicit: a function that can raise returns a [result].
    - [thefuzz.process.extractOne] is a library outside the program; the
      parser takes it as an argument. *)

From Stdlib Require Import ZArith QArith Ascii String Bool Lia Lqa Arith List.
Import ListNotations.
Close Scope Q_scope.
Open Scope nat_scope.
Open Scope list_scope.

(** ** Python strings *)

Module PyStr.

Definition text := list ascii.

Definition txt (s : string) : text := list_ascii_of_string s.

Definition code (c : ascii) : N := N_of_ascii c.

Definition between (lo hi : N) (c : ascii) : bool :=
  (N.leb lo (code c) && N.leb (code c) hi)%bool.

Definition is_digit (c : ascii) : bool := between 48 57 c.
Definition is_upper (c : ascii) : bool := between 65 90 c.
Definition is_lower (c : ascii) : bool := between 97 122 c.
Definition is_alpha (c : ascii) : bool := is_upper c || is_lower c.

(** [\w]: letters, digits and the underscore. *)
Definition is_word (c : ascii) : bool :=
  is_alpha c || is_digit c || N.eqb (code c) 95.

(** [\s] and [str.isspace]: tab, line feed, vertical tab, form feed, carriage
    return, the four separators 28..31 and the space. *)
Definition is_space (c : ascii) : bool :=
  between 9 13 c || between 28 32 c.

Definition chr_eqb (a b : ascii) : bool := Ascii.eqb a b.

Definition lower_char (c : ascii) : ascii :=
  if is_upper c then ascii_of_N (code c + 32) else c.

(** [s.lower()] *)
Definition lower (s : text) : text := map lower_char s.

Fixpoint text_eqb (a b : text) : bool :=
  match a, b with
  | [], [] => true
  | x :: a', y :: b' => chr_eqb x y && text_eqb a' b'
  | _, _ => false
  end.

Fixpoint lstrip (s : text) : text :=
  match s with
  | c :: t => if is_space c then lstrip t else s
  | [] => []
  end.

Definition rstrip (s : text) : text := rev (lstrip (rev s)).

(** [s.strip()] *)
Definition strip (s : text) : text := rstrip (lstrip s).

(** [p] is a prefix of [s]. *)
Fixpoint startswith (p s : text) : bool :=
  match p, s with
  | [], _ => true
  | x :: p', y :: s' => chr_eqb x y && startswith p' s'
  | _ :: _, [] => false
  end.

(** [p in s] for strings. *)
Fixpoint contains (p s : text) : bool :=
  startswith p s ||
  match s with
  | [] => false
  | _ :: t => contains p t
  end.

(** [s.split(sep)] for a one-character separator: the pieces between the
    separators, the empty ones included. *)
Fixpoint split_on (sep : ascii) (s : text) : list text :=
  match s with
  | [] => [[]]
  | c :: t =>
      if chr_eqb c sep then [] :: split_on sep t
      else match split_on sep t with
           | piece :: more => (c :: piece) :: more
           | [] => [[c]]
           end
  end.

(** [s.replace(old, new)] for a non-empty [old]: the occurrences of [old] are
    found from the left and do not overlap; [skip] counts the characters of
    an occurrence still to be passed over. *)
Fixpoint replace_from (old new : text) (skip : nat) (s : text) : text :=
  match s with
  | [] => []
  | c :: t =>
      match skip with
      | S k => replace_from old new k t
      | O =>
          if startswith old s
          then new ++ replace_from old new (length old - 1) t
          else c :: replace_from old new 0 t
      end
  end.

Definition replace (old new s : text) : text := replace_from old new 0 s.

(** [sum(c.isdigit() for c in s)] *)
Definition count_digits (s : text) : nat := length (filter is_digit s).

End PyStr.

Import PyStr.


(** ** Python floats *)

Module PyFloat.

(** The floats the program computes are never NaN and never negative
    infinity: a finite binary64 value is carried as the rational it denotes. *)
Inductive float :=
| Fin (q : Q)
| PInf.

(** [floor (log2 (a / b))] for positive [a] and [b]. *)
Definition ilog2 (a b : Z) : Z :=
  let e := (Z.log2 a - Z.log2 b)%Z in
  if (0 <=? e)%Z
  then (if (a <? b * 2 ^ e)%Z then e - 1 else e)%Z
  else (if (a * 2 ^ (- e) <? b)%Z then e - 1 else e)%Z.

(** [n / d] rounded to the nearest integer, ties to the even one. *)
Definition rne (n d : Z) : Z :=
  let q := (n / d)%Z in
  let r := (n mod d)%Z in
  if (2 * r <? d)%Z then q
  else if (d <? 2 * r)%Z then (q + 1)%Z
  else if Z.even q then q else (q + 1)%Z.

(** The integer [m] and the exponent [e] with [m * 2 ^ e] the binary64 value
    nearest to [a / b], for [0 < a] and [0 < b]: 53 bits of precision, the
    exponent of the last place never below -1074 (subnormals). *)
Definition round64_parts (a b : Z) : Z * Z :=
  let e := Z.max (ilog2 a b - 52) (-1074) in
  let m := if (0 <=? e)%Z then rne a (b * 2 ^ e) else rne (a * 2 ^ (- e)) b in
  (m, e).

(** The binary64 value nearest to [a / b], for [0 <= a] and [0 < b]; a value
    that rounds to [2 ^ 1024] or more is infinity. *)
Definition round64 (a b : Z) : float :=
  if (a =? 0)%Z then Fin 0%Q
  else
    let '(m, e) := round64_parts a b in
    if (0 <=? e)%Z
    then (if (2 ^ 1024 <=? m * 2 ^ e)%Z then PInf else Fin (inject_Z (m * 2 ^ e)))
    else Fin (Qred (Qmake m (Z.to_pos (2 ^ (- e))))).

(** An integer literal or an integer-valued float literal of the program. *)
Definition of_Z (z : Z) : float := Fin (inject_Z z).

Definition Qlt_bool (x y : Q) : bool := negb (Qle_bool y x).

(** [x < y] *)
Definition ltb (x y : float) : bool :=
  match x, y with
  | Fin a, Fin b => Qlt_bool a b
  | Fin _, PInf => true
  | PInf, _ => false
  end.

(** [x > y] *)
Definition gtb (x y : float) : bool := ltb y x.

(** [x == y] *)
Definition eqb (x y : float) : bool :=
  match x, y with
  | Fin a, Fin b => Qeq_bool a b
  | PInf, PInf => true
  | _, _ => false
  end.

(** The number a run of decimal digits denotes, after the digits [acc]. *)
Fixpoint digits_value (acc : Z) (ds : text) : Z :=
  match ds with
  | [] => acc
  | c :: t => digits_value (10 * acc + (Z.of_N (code c) - 48))%Z t
  end.

Fixpoint take_digits (s : text) : text * text :=
  match s with
  | c :: t =>
      if is_digit c then let '(ds, r) := take_digits t in (c :: ds, r)
      else ([], s)
  | [] => ([], [])
  end.

(** [float(s)] for the literals the program passes to it: a run of digits,
    optionally followed by a point and a second run of digits.  Any other text
    is reported as a [ValueError] ([None]). *)
Definition py_float (s : text) : option float :=
  match take_digits s with
  | ([], _) => None
  | (ip, []) => Some (round64 (digits_value 0 ip) 1)
  | (ip, c :: fp) =>
      if chr_eqb c "."%char && negb (Nat.eqb (length fp) 0) && forallb is_digit fp
      then Some (round64 (digits_value 0 (ip ++ fp)) (10 ^ Z.of_nat (length fp)))
      else None
  end.

(** [a / b] on integers (true division), for [0 <= a] and [0 < b]. *)
Definition truediv (a b : nat) : float := round64 (Z.of_nat a) (Z.of_nat b).

End PyFloat.

Import PyFloat.


(** ** Regular expressions, with the matching order of Python's [re]

    The patterns of the program repeat single characters only, so the
    repetition of the model is over a character class.  A pattern tried at a
    position yields every way it can match there, in the order in which a
    backtracking matcher finds them (greedy operators first try the longest);
    the first one is the match [re] reports. *)

Module Regex.

Inductive regex :=
| Eps
| Chr (p : ascii -> bool)                       (* one character of a class *)
| Rep (p : ascii -> bool) (lo : nat) (hi : option nat)   (* p{lo,hi}, greedy *)
| Seq (r1 r2 : regex)
| Alt (r1 r2 : regex)
| Opt (r : regex)                                (* r?, greedy *)
| Grp (n : nat) (r : regex)                      (* capturing group n *)
| Bnd.                                           (* word boundary *)

(** A matching state: the character before the position (if any), the text
    from the position on and the groups captured so far, latest first. *)
Record state := State {
  prev : option ascii;
  rest : text;
  caps : list (nat * text)
}.

Definition word_before (p : option ascii) : bool :=
  match p with Some c => is_word c | None => false end.

Definition word_after (s : text) : bool :=
  match s with c :: _ => is_word c | [] => false end.

Definition lo_done (lo : nat) (here : option ascii * text)
  : list (option ascii * text) :=
  match lo with O => [here] | S _ => [] end.

Definition hi_pred (hi : option nat) : option nat :=
  match hi with Some n => Some (Nat.pred n) | None => None end.

(** The positions after [p{lo,hi}], the longest repetition first. *)
Fixpoint rep (p : ascii -> bool) (lo : nat) (hi : option nat)
    (pv : option ascii) (s : text) : list (option ascii * text) :=
  match hi with
  | Some O => lo_done lo (pv, s)
  | _ =>
      match s with
      | c :: t =>
          if p c
          then rep p (Nat.pred lo) (hi_pred hi) (Some c) t ++ lo_done lo (pv, s)
          else lo_done lo (pv, s)
      | [] => lo_done lo (pv, s)
      end
  end.

(** The text between two positions of the same text. *)
Definition consumed (from to : text) : text :=
  firstn (length from - length to) from.

Fixpoint run (r : regex) (st : state) : list state :=
  match r with
  | Eps => [st]
  | Chr p =>
      match rest st with
      | c :: t => if p c then [State (Some c) t (caps st)] else []
      | [] => []
      end
  | Rep p lo hi =>
      map (fun '(pv, s) => State pv s (caps st)) (rep p lo hi (prev st) (rest st))
  | Seq r1 r2 => flat_map (run r2) (run r1 st)
  | Alt r1 r2 => run r1 st ++ run r2 st
  | Opt r1 => run r1 st ++ [st]
  | Grp n r1 =>
      map (fun st' =>
             State (prev st') (rest st')
                   ((n, consumed (rest st) (rest st')) :: caps st'))
          (run r1 st)
  | Bnd => if xorb (word_before (prev st)) (word_after (rest st)) then [st] else []
  end.

(** A match: the text matched ([group(0)]), the captured groups, and the
    position after it. *)
Record rmatch := Match {
  span : text;
  groups : list (nat * text);
  after : option ascii * text
}.

(** [r] tried at the position [(pv, s)]. *)
Definition match_at (r : regex) (pv : option ascii) (s : text) : option rmatch :=
  match run r (State pv s []) with
  | st :: _ => Some (Match (consumed s (rest st)) (caps st) (prev st, rest st))
  | [] => None
  end.

(** [m.group(n)] *)
Fixpoint group (n : nat) (gs : list (nat * text)) : option text :=
  match gs with
  | (k, t) :: more => if Nat.eqb k n then Some t else group n more
  | [] => None
  end.

(** The leftmost match from the position [(pv, s)] on. *)
Fixpoint search_from (r : regex) (pv : option ascii) (s : text) : option rmatch :=
  match match_at r pv s with
  | Some m => Some m
  | None =>
      match s with
      | c :: t => search_from r (Some c) t
      | [] => None
      end
  end.

(** [re.search(r, s)] *)
Definition search (r : regex) (s : text) : option rmatch := search_from r None s.

(** The successive matches of [r] from the left, none overlapping the one
    before; [skip] counts the characters of a match still to be passed over.
    For patterns that match no empty text. *)
Fixpoint scan (r : regex) (skip : nat) (pv : option ascii) (s : text)
  : list (text + rmatch) :=
  match s with
  | [] => []
  | c :: t =>
      match skip with
      | S k => scan r k (Some c) t
      | O =>
          match match_at r pv s with
          | Some m =>
              match length (span m) with
              | S k => inr m :: scan r k (Some c) t
              | O => inl [c] :: scan r 0 (Some c) t
              end
          | None => inl [c] :: scan r 0 (Some c) t
          end
      end
  end.

(** [re.findall(r, s)] for a pattern with one group: the group of every
    match. *)
Definition findall (r : regex) (s : text) : list text :=
  flat_map (fun x => match x with
                     | inr m => match group 1 (groups m) with
                                | Some g => [g]
                                | None => []
                                end
                     | inl _ => []
                     end)
           (scan r 0 None s).

(** [re.sub(r, repl, s)] for a replacement without group references. *)
Definition sub (r : regex) (repl : text) (s : text) : text :=
  flat_map (fun x => match x with inr _ => repl | inl cs => cs end)
           (scan r 0 None s).

(** Character classes. *)
Definition lit (c : ascii) : ascii -> bool := chr_eqb c.
Definition lit_i (c : ascii) : ascii -> bool :=
  fun x => chr_eqb (lower_char c) (lower_char x).

(** A literal word, and the same under [re.IGNORECASE]. *)
Fixpoint word (w : text) : regex :=
  match w with
  | [] => Eps
  | c :: t => Seq (Chr (lit c)) (word t)
  end.

Fixpoint word_i (w : text) : regex :=
  match w with
  | [] => Eps
  | c :: t => Seq (Chr (lit_i c)) (word_i t)
  end.

End Regex.

Import Regex.

(** ** Exceptions *)

Inductive exn := ValueError | TypeError.

Inductive result (A : Type) :=
| Ok (a : A)
| Raise (e : exn).

Arguments Ok {A} a.
Arguments Raise {A} e.

Definition bind {A B : Type} (x : result A) (f : A -> result B) : result B :=
  match x with
  | Ok a => f a
  | Raise e => Raise e
  end.

Notation "'do' x <- e ; k" := (bind e (fun x => k))
  (at level 10, x name, e at level 100, k at level 200).

(** ** The program *)

Module App.

(** *** 1. Master keywords *)

Definition TEST_MAPPING : list (text * list text) :=
  map (fun '(k, v) => (txt k, map txt v))
  [ ("TSH", ["Thyroid Stimulating Hormone"; "TSH"; "TSH Ultra"; "T.S.H"]);
    ("Total T3", ["Total T3"; "Triiodothyronine"; "T3"]);
    ("Total T4", ["Total T4"; "Thyroxine"; "T4"]);
    ("Vitamin D", ["Vitamin D"; "25-OH Vitamin D"; "Total 25 OH Vitamin D"]);
    ("Vitamin B12", ["Vitamin B12"; "Cyanocobalamin"; "Vit B12"]);
    ("HbA1c", ["HbA1c"; "Glycosylated Hemoglobin"]);
    ("Glucose Fasting", ["Fasting Blood Sugar"; "FBS"; "Glucose Fasting"]);
    ("Glucose PP", ["Post Prandial"; "PPBS"; "Glucose PP"]);
    ("Hemoglobin", ["Hemoglobin"; "Hb"; "Haemoglobin"]);
    ("PCV", ["PCV"; "Packed Cell Volume"; "Hematocrit"; "HCT"]);
    ("RBC Count", ["RBC Count"; "Red Blood Cell Count"; "Total RBC"]);
    ("MCV", ["MCV"]);
    ("MCH", ["MCH"]);
    ("MCHC", ["MCHC"]);
    ("RDW", ["RDW"; "R.D.W"]);
    ("TLC", ["TLC"; "WBC"; "Total Leucocyte Count"; "White Blood Cell"]);
    ("Platelet Count", ["Platelet Count"; "PLT"; "Platelets"]);
    ("Neutrophils", ["Neutrophils"; "Polymorphs"]);
    ("Lymphocytes", ["Lymphocytes"]);
    ("Monocytes", ["Monocytes"]);
    ("Eosinophils", ["Eosinophils"]);
    ("Basophils", ["Basophils"]);
    ("Urea", ["Urea"; "Blood Urea"]);
    ("Creatinine", ["Creatinine"; "Serum Creatinine"]);
    ("Uric Acid", ["Uric Acid"]);
    ("Cholesterol", ["Cholesterol"; "Total Cholesterol"]);
    ("Triglycerides", ["Triglycerides"]);
    ("HDL", ["HDL Cholesterol"; "H.D.L"]);
    ("LDL", ["LDL Cholesterol"; "L.D.L"]) ]%string.

Definition ALL_KEYWORDS : list text := flat_map snd TEST_MAPPING.

(** *** 2. Extractors *)

(** [\s+] and [\s*] *)
Definition ws1 : regex := Rep is_space 1 None.
Definition ws0 : regex := Rep is_space 0 None.

(** [\d+(?:\.\d+)?] *)
Definition number : regex :=
  Seq (Rep is_digit 1 None) (Opt (Seq (Chr (lit ".")) (Rep is_digit 1 None))).

(** [\b1100\d{2}\b] *)
Definition zip_re : regex :=
  Seq Bnd (Seq (word (txt "1100")) (Seq (Rep is_digit 2 (Some 2)) Bnd)).

(** [[%/a-zA-Z]] *)
Definition unit_char (c : ascii) : bool :=
  chr_eqb c "%" || chr_eqb c "/" || is_alpha c.

(** The separator class of the source, a hyphen, three characters left by a
    mis-decoded en dash (U+00E2, U+20AC, U+201C) and the letters [t] and [o];
    the two characters above U+00FF are outside the character type and match
    no character of an ASCII text. *)
Definition sep_char (c : ascii) : bool :=
  chr_eqb c "-" || N.eqb (code c) 226 || chr_eqb c "t" || chr_eqb c "o".

(** Pattern A, part by part: [(\d+(?:\.\d+)?)], [\s*], the optional group
    of [[%/a-zA-Z]{0,5}] and [\s*], one separator character, [\s*],
    [(\d+(?:\.\d+)?)]. *)
Definition dash_re : regex :=
  Seq (Grp 1 number)
 (Seq ws0
 (Seq (Opt (Seq (Rep unit_char 0 (Some 5)) ws0))
 (Seq (Chr sep_char)
 (Seq ws0
      (Grp 2 number))))).

(** [(?:<|less than)\s*(\d+(?:\.\d+)?)], ignoring case *)
Definition less_re : regex :=
  Seq (Alt (Chr (lit "<")) (word_i (txt "less than"))) (Seq ws0 (Grp 1 number)).

(** [(?:>|more than)\s*(\d+(?:\.\d+)?)], ignoring case *)
Definition more_re : regex :=
  Seq (Alt (Chr (lit ">")) (word_i (txt "more than"))) (Seq ws0 (Grp 1 number)).

Definition open_bracket (c : ascii) : bool := chr_eqb c "(" || chr_eqb c "[".
Definition close_bracket (c : ascii) : bool := chr_eqb c ")" || chr_eqb c "]".

(** [[\(\[]\s*(?:Low|L)\s*[\)\]]], ignoring case *)
Definition low_re : regex :=
  Seq (Chr open_bracket)
 (Seq ws0
 (Seq (Alt (word_i (txt "Low")) (word_i (txt "L")))
 (Seq ws0 (Chr close_bracket)))).

(** [[\(\[]\s*(?:High|H)\s*[\)\]]], ignoring case *)
Definition high_re : regex :=
  Seq (Chr open_bracket)
 (Seq ws0
 (Seq (Alt (word_i (txt "High")) (word_i (txt "H")))
 (Seq ws0 (Chr close_bracket)))).

(** [float(m.group(n))] *)
Definition float_group (n : nat) (m : rmatch) : result float :=
  match group n (groups m) with
  | Some g =>
      match py_float g with
      | Some f => Ok f
      | None => Raise ValueError
      end
  | None => Raise TypeError
  end.

Definition found (m : option rmatch) : bool :=
  match m with Some _ => true | None => false end.

(** [re.sub(r'\s+', ' ', text).strip()] *)
Definition squeeze (s : text) : text := strip (sub ws1 (txt " ") s).

(** The source returns the triple [(min, max, matched text)] or
    [(None, None, None)]; every [return] gives either all three or none, so
    the result is an optional triple. *)
Definition extract_range (text0 : text) : result (option (float * float * text)) :=
  match text0 with
  | [] => Ok None
  | _ =>
      let text := squeeze text0 in
      if found (search zip_re text) then Ok None
      else
        match search dash_re text with
        | Some dash_match =>
            do min_v <- float_group 1 dash_match;
            do max_v <- float_group 2 dash_match;
            if gtb max_v (of_Z 50000) then Ok None
            else Ok (Some (min_v, max_v, span dash_match))
        | None =>
            match search less_re text with
            | Some less =>
                do hi <- float_group 1 less;
                Ok (Some (of_Z 0, hi, span less))
            | None =>
                match search more_re text with
                | Some more =>
                    do lo <- float_group 1 more;
                    Ok (Some (lo, of_Z 999999, span more))
                | None =>
                    if found (search low_re text)
                    then Ok (Some (of_Z 999999, of_Z 999999, txt "(Low)"))
                    else if found (search high_re text)
                    then Ok (Some (of_Z (-999999), of_Z (-999999), txt "(High)"))
                    else Ok None
                end
            end
        end
  end.

(** [f < 2000 or (f > 2100 and f < 10000)] *)
Definition keeps (f : float) : bool :=
  ltb f (of_Z 2000) || (gtb f (of_Z 2100) && ltb f (of_Z 10000)).

(** The loop over [nums]: a token whose conversion fails is passed over. *)
Fixpoint valid_nums (nums : list text) : list float :=
  match nums with
  | [] => []
  | n :: more =>
      match py_float n with
      | Some f => if keeps f then f :: valid_nums more else valid_nums more
      | None => valid_nums more
      end
  end.

(** [(\d+(?:\.\d+)?)] *)
Definition num_re : regex := Grp 1 number.

Definition extract_value (text_source : text) (range_str : option text)
  : option float :=
  match text_source with
  | [] => None
  | _ =>
      let clean :=
        match range_str with
        | Some (c :: r) => replace (c :: r) [] text_source
        | _ => text_source
        end in
      let clean := replace (txt ",") [] clean in
      let nums := findall num_re clean in
      match valid_nums nums with
      | [] => None
      | f :: _ => Some f
      end
  end.

(** *** 3. Multi-line parser *)

Record Measurement := Measure {
  test_name : text;
  value : float;
  min : float;
  max : float;
  range : text;
  status : option text
}.

Definition ignore_terms : list text :=
  map txt ["Test Name"; "Result"; "Unit"; "Reference"; "Page"; "Date"; "Time";
           "Remark"; "Method"]%string.

(** [any(x.lower() in line.lower() for x in ignore_terms)] *)
Definition is_junk (line : text) : bool :=
  existsb (fun x => contains (lower x) (lower line)) ignore_terms.

Definition safe_tokens : list text :=
  map txt ["Hb"; "PCV"; "TLC"; "RBC"; "MCV"; "MCH"; "MCHC"; "RDW"; "TSH"]%string.

(** [\b<safe>\b], ignoring case *)
Definition safe_re (safe : text) : regex := Seq Bnd (Seq (word_i safe) Bnd).

(** The exact-match loop: the first safe token found as a whole word. *)
Definition exact_match (line : text) : option text :=
  find (fun safe => found (search (safe_re safe) line)) safe_tokens.

(** [[\d\W_]+] *)
Definition label_noise (c : ascii) : bool :=
  is_digit c || negb (is_word c) || chr_eqb c "_".

Definition text_for_matching (line : text) : text :=
  sub (Rep label_noise 1 None) (txt " ") line.

(** [next(k for k, v in TEST_MAPPING.items() if keyword in v)]; [None] is
    [StopIteration]. *)
Definition std_name_of (keyword : text) : option text :=
  match find (fun '(_, v) => existsb (text_eqb keyword) v) TEST_MAPPING with
  | Some (k, _) => Some k
  | None => None
  end.

Section Parser.

(** [process.extractOne(query, choices, score_cutoff=...)] of thefuzz: the
    best choice with its score, or nothing below the cutoff. *)
Variable extractOne : text -> list text -> Z -> option (text * Z).

(** Step 2 of the loop body: the keyword of a line, by the exact pass and
    then the fuzzy pass. *)
Definition identify (line : text) : option text :=
  match exact_match line with
  | Some safe => Some safe
  | None =>
      match extractOne (text_for_matching line) ALL_KEYWORDS 85 with
      | Some (choice, _) => Some choice
      | None => None
      end
  end.

(** The body of the [while] loop for [lines[i]], the head of the remaining
    lines; [lines[i + 1]] is the head of the rest. *)
Fixpoint parse_lines (lines : list text) (results : list Measurement)
  : result (list Measurement) :=
  match lines with
  | [] => Ok results
  | line :: more =>
      if is_junk line then parse_lines more results
      else
        match identify line with
        | Some (c :: k) =>
            let keyword := c :: k in
            match std_name_of keyword with
            | None => parse_lines more results
            | Some std_name =>
                let next_line := match more with l :: _ => l | [] => [] end in
                let context_block := line ++ txt " " ++ next_line in
                do r <- extract_range context_block;
                let range_txt := match r with
                                 | Some (_, _, t) => Some t
                                 | None => None
                                 end in
                let val := extract_value context_block range_txt in
                match val, r with
                | Some v, Some (min_r, max_r, t) =>
                    parse_lines more
                      (results ++ [Measure std_name v min_r max_r t None])
                | _, _ => parse_lines more results
                end
            end
        | _ => parse_lines more results
        end
  end.

Definition parse_text_block (full_text : text) : result (list Measurement) :=
  let lines := split_on "010" full_text in
  let lines := map strip (filter (fun l => 3 <? length (strip l)) lines) in
  parse_lines lines [].

(** *** 4. The narrative filter of [analyze_file] *)

Definition biopsy_markers : list text :=
  map txt ["biopsy"; "histopathology"; "specimen examined";
           "microscopic examination"; "impression:"; "clinical history";
           "department of pathology"; "cytology"]%string.

(** [digit_count / len(raw_text) < 0.05] *)
Definition digit_sparse (raw_text : text) : bool :=
  ltb (truediv (count_digits raw_text) (length raw_text)) (round64 5 100).

(** [analyze_file] from the text it has read on. *)
Definition analyze_text (raw_text : text) : result (list Measurement) :=
  let lower_raw := lower raw_text in
  let match_count :=
    length (filter (fun m => contains m lower_raw) biopsy_markers) in
  if (1 <=? match_count) &&
     ((0 <? length raw_text) && digit_sparse raw_text)
  then Ok []
  else parse_text_block raw_text.

End Parser.

(** *** 5. The classification loop of [analyze_route] *)

Definition seen (name : text) (seen_tests : list text) : bool :=
  existsb (text_eqb name) seen_tests.

Definition with_status (item : Measurement) (s : text) : Measurement :=
  Measure (test_name item) (value item) (min item) (max item) (range item)
          (Some s).

Fixpoint classify_from (all_data abnormals : list Measurement)
    (seen_tests : list text) : list Measurement :=
  match all_data with
  | [] => abnormals
  | item :: more =>
      let name := test_name item in
      let val := value item in
      let is_low := ltb val (min item) in
      let is_high := gtb val (max item) in
      if is_low || is_high
      then
        if negb (seen name seen_tests)
        then classify_from more
               (abnormals ++ [with_status item (if is_low then txt "Low" else txt "High")])
               (name :: seen_tests)
        else classify_from more abnormals seen_tests
      else classify_from more abnormals seen_tests
  end.

Definition classify (all_data : list Measurement) : list Measurement :=
  classify_from all_data [] [].

End App.

Import App.

(** * Reading the file and answering the request *)

Module Service.

(** [sep.join(parts)] *)
Fixpoint join (sep : text) (parts : list text) : text :=
  match parts with
  | [] => []
  | [p] => p
  | p :: more => p ++ sep ++ join sep more
  end.

(** [s.endswith(suffix)] *)
Definition endswith (suffix s : text) : bool := startswith (rev suffix) (rev s).

(** A page as pdfplumber gives it: the text [page.extract_text()] returns,
    if any, and the tables of [page.extract_tables()], a table a list of rows,
    a row a list of cells, a cell a string or [None]. *)
Record Page := {
  extract_text : option text;
  extract_tables : list (list (list (option text)))
}.

(** [[str(c) for c in row if c]]: the cells that are neither [None] nor
    empty. *)
Definition cells (row : list (option text)) : list text :=
  flat_map (fun c => match c with
                     | Some (x :: t) => [x :: t]
                     | _ => []
                     end) row.

(** [" ".join([str(c) for c in row if c])] *)
Definition row_text (row : list (option text)) : text := join (txt " ") (cells row).

(** The two loops over the tables of a page and the rows of a table. *)
Definition add_rows (raw_text : text) (tb : list (list (option text))) : text :=
  fold_left (fun acc row => acc ++ ["010"%char] ++ row_text row) tb raw_text.

Definition add_tables (raw_text : text)
    (tables : list (list (list (option text)))) : text :=
  fold_left add_rows tables raw_text.

(** The loop over the pages of a PDF. *)
Fixpoint read_pages (pages : list Page) (raw_text : text) : text :=
  match pages with
  | [] => raw_text
  | page :: more =>
      match extract_text page with
      | Some (c :: t) =>
          let txt0 := c :: t in
          if contains (txt "no test results") (lower txt0)
          then read_pages more raw_text
          else if negb (found (search (Chr is_digit) txt0))
          then read_pages more raw_text
          else
            let raw_text := raw_text ++ ["010"%char] ++ txt0 in
            read_pages more (add_tables raw_text (extract_tables page))
      | _ => read_pages more raw_text
      end
  end.

(** An uploaded file: its name and what the readers make of its content,
    the pages pdfplumber opens and the lines EasyOCR reads from the image,
    each with the exception raised on the way if there is one.  Only the
    reader the name selects is consulted. *)
Record FileStorage := {
  filename : text;
  pdf_pages : result (list Page);
  ocr_list : result (list text)
}.

(** The [try] block of [analyze_file]: the raw text, or the exception. *)
Definition read_file (f : FileStorage) : result text :=
  if endswith (txt ".pdf") (lower (filename f))
  then do pages <- pdf_pages f; Ok (read_pages pages [])
  else do lines <- ocr_list f; Ok (join ["010"%char] lines).

Section Requests.

Variable extractOne : text -> list text -> Z -> option (text * Z).

Definition analyze_file (f : FileStorage) : result (list Measurement) :=
  match read_file f with
  | Raise _ => Ok []
  | Ok raw_text => analyze_text extractOne raw_text
  end.

(** What the view returns: the 400 answer without a file, the JSON object
    with [count] and [results], or an exception that leaves the view. *)
Inductive response :=
| NoFile
| Report (count : nat) (results : list Measurement)
| Escaped (e : exn).

Definition analyze_route (request_file : option FileStorage) : response :=
  match request_file with
  | None => NoFile
  | Some f =>
      match analyze_file f with
      | Ok all_data =>
          let abnormals := classify all_data in
          Report (length abnormals) abnormals
      | Raise e => Escaped e
      end
  end.

End Requests.

End Service.

Import Service.

(** * Vocabulary of the properties *)

(** A fuzzy matcher that finds nothing, for running the parser on lines the
    exact pass decides. *)
Definition no_fuzzy : text -> list text -> Z -> option (text * Z) :=
  fun _ _ _ => None.

(** The pipeline of a request after the text is read: [analyze_file]'s
    filter and parser, then the classification loop. *)
Definition pipeline (extractOne : text -> list text -> Z -> option (text * Z))
    (raw_text : text) : result (list Measurement) :=
  do all_data <- analyze_text extractOne raw_text;
  Ok (classify all_data).

(** [x <= y] *)
Definition leb (x y : float) : bool := negb (ltb y x).

(** [is_low or is_high] *)
Definition abnormal (item : Measurement) : bool :=
  ltb (value item) (min item) || gtb (value item) (max item).

(** The entry the loop appends for an abnormal item. *)
Definition tagged (item : Measurement) : Measurement :=
  with_status item
    (if ltb (value item) (min item) then txt "Low" else txt "High").

(** The items of one test name. *)
Definition named (name : text) (item : Measurement) : bool :=
  text_eqb (test_name item) name.

(** Sample measurements. *)
Definition hemoglobin_low_1 : Measurement :=
  Measure (txt "Hemoglobin") (of_Z 9) (of_Z 12) (of_Z 16) (txt "12-16") None.

Definition hemoglobin_low_2 : Measurement :=
  Measure (txt "Hemoglobin") (of_Z 8) (of_Z 13) (of_Z 17) (txt "13-17") None.

Definition hemoglobin_at_min : Measurement :=
  Measure (txt "Hemoglobin") (of_Z 12) (of_Z 12) (of_Z 16) (txt "12.0-16.0") None.

Definition hemoglobin_reversed : Measurement :=
  Measure (txt "Hemoglobin") (of_Z 20) (of_Z 20) (of_Z 10) (txt "20-10") None.

(** The character before the position reached after the text [xs]. *)
Definition last_seen (pv : option ascii) (xs : text) : option ascii :=
  fold_left (fun _ c => Some c) xs pv.

(** The patterns in which no group occurs. *)
Fixpoint groupless (r : regex) : bool :=
  match r with
  | Seq r1 r2 | Alt r1 r2 => groupless r1 && groupless r2
  | Opt r1 => groupless r1
  | Grp _ _ => false
  | _ => true
  end.

(** The literals [\d+(?:\.\d+)?] matches: a run of digits, optionally a
    point and a second run of digits. *)
Definition is_decimal (xs : text) : bool :=
  match take_digits xs with
  | ([], _) => false
  | (_, []) => true
  | (_, c :: fp) =>
      chr_eqb c "."%char && negb (Nat.eqb (length fp) 0) && forallb is_digit fp
  end.

(** The tokens the value extractor reads: the decimal literals of the window
    once the range text and the commas are taken out, from the left. *)
Definition value_tokens (text_source : text) (range_str : option text)
  : list text :=
  findall num_re
    (replace (txt ",") []
       match range_str with
       | Some (c :: r) => replace (c :: r) [] text_source
       | _ => text_source
       end).

(** A token the value extractor passes over: it converts to a float that
    the filter rejects. *)
Definition rejected (n : text) : Prop :=
  exists g, py_float n = Some g /\ keeps g = false.

(** [match_count >= 1]: some narrative marker occurs in the lowered text. *)
Definition has_marker (raw_text : text) : bool :=
  existsb (fun m => contains m (lower raw_text)) biopsy_markers.

(** Sample documents. *)
Definition date_line : text := txt "Date: 2023 Hemoglobin 13.5 (12.0-16.0)".

Definition biopsy_report : text :=
  txt "Histopathology Report" ++ ["010"%char] ++
  txt "Hb 9 (12-16)" ++ ["010"%char] ++
  txt "Impression: chronic inflammation of the mucosa, no evidence of malignancy in the sections examined.".

(** The characters of a decimal literal. *)
Definition decimal_char (c : ascii) : bool := is_digit c || chr_eqb c ".".

(** A search term that has no digit and begins with a letter. *)
Definition wordy (p : text) : bool :=
  forallb (fun c => negb (is_digit c)) p
  && match p with c :: _ => is_alpha c | [] => false end.

(** The single-line document [<alias> <value> (<min>-<max>)]. *)
Definition single_line (alias v lo hi : text) : text :=
  alias ++ txt " " ++ v ++ txt " (" ++ lo ++ txt "-" ++ hi ++ txt ")".

(** The aliases that are safe tokens of the exact pass and elements of an
    alias list. *)
Definition exact_aliases : list text :=
  map txt ["TSH"; "Hb"; "PCV"; "TLC"; "MCV"; "MCH"; "MCHC"; "RDW"]%string.

(** A character that is no letter, and a text of such characters. *)
Definition plain (c : ascii) : bool := negb (is_alpha c).

Definition no_letters (s : text) : bool := forallb plain s.

(** The first element of a list of matching states: the match [re] takes. *)
Definition first_is {A : Type} (x : A) (l : list A) : Prop :=
  exists more, l = x :: more.

(** The text is empty or begins with a character outside the class [p]. *)
Definition stops (p : ascii -> bool) (s : text) : bool :=
  match s with
  | c :: _ => negb (p c)
  | [] => true
  end.

(** The characters pattern A can pass over before its separator, and a
    character it cannot pass at all. *)
Definition soft (c : ascii) : bool :=
  decimal_char c || is_space c || unit_char c.

Definition barrier (c : ascii) : bool := negb (soft c || sep_char c).

(** Every blank of the text is a single space between two other
    characters or at the end. *)
Fixpoint single_spaced (s : text) : bool :=
  match s with
  | [] => true
  | c :: t =>
      (if is_space c then chr_eqb c " " && stops is_space t else true)
      && single_spaced t
  end.

(** What [sub] and [findall] make of the pieces of a scan. *)
Definition sub_piece (repl : text) (x : text + rmatch) : text :=
  match x with inr _ => repl | inl cs => cs end.

Definition group1_piece (x : text + rmatch) : list text :=
  match x with
  | inr m => match group 1 (groups m) with Some g => [g] | None => [] end
  | inl _ => []
  end.

(** What the proofs use of an exact alias: letters other than the
    separators of pattern A, at least two, with no junk term and no narrative
    marker in them. *)
Definition alias_ok (a : text) : bool :=
  forallb (fun c => is_alpha c && negb (sep_char c)) a
  && (2 <=? length a) && negb (is_junk (a ++ txt " "))
  && negb (has_marker (a ++ txt " ")).

(** The canonical test names, the keys of the dictionary. *)
Definition canonical_names : list text := map fst TEST_MAPPING.

(** The names of a list in the order of their first occurrence, those in
    [seen_tests] left out. *)
Fixpoint first_names (seen_tests names : list text) : list text :=
  match names with
  | [] => []
  | n :: more =>
      if seen n seen_tests then first_names seen_tests more
      else n :: first_names (n :: seen_tests) more
  end.

(** A text without a digit. *)
Definition digitless (s : text) : bool := forallb (fun c => negb (is_digit c)) s.

(** The lines the block parser walks: the pieces between line feeds with
    more than three characters once stripped, stripped. *)
Definition parsed_lines (full_text : text) : list text :=
  map strip (filter (fun l => 3 <? length (strip l)) (split_on "010" full_text)).

(** A page the loop of [analyze_file] passes over. *)
Definition page_skipped (page : Page) : bool :=
  match extract_text page with
  | Some (c :: t) =>
      contains (txt "no test results") (lower (c :: t))
      || negb (found (search (Chr is_digit) (c :: t)))
  | _ => true
  end.

(** What holds of every measurement the block parser emits: a canonical
    name, a value the filter keeps, from 0 up to but not 10000, and no status
    yet. *)
Definition emitted_ok (m : Measurement) : Prop :=
  In (test_name m) canonical_names
  /\ keeps (value m) = true
  /\ ltb (value m) (of_Z 0) = false
  /\ ltb (value m) (of_Z 10000) = true
  /\ status m = None.

(** What holds of every entry of the answer: a canonical name, a value from
    0 up to but not 10000, and the status Low with a value under [min], or
    High with a value over [max] and not under [min]. *)
Definition reported_ok (m : Measurement) : Prop :=
  In (test_name m) canonical_names
  /\ ltb (value m) (of_Z 0) = false
  /\ ltb (value m) (of_Z 10000) = true
  /\ ((status m = Some (txt "Low") /\ ltb (value m) (min m) = true)
      \/ (status m = Some (txt "High")
          /\ ltb (value m) (min m) = false
          /\ gtb (value m) (max m) = true)).

(** Sample inputs of the further properties: a line marked (Low) and its
    measurement, a scanned image without a digit, a PDF whose only digits are
    in a table, and the fragments of an image. *)
Definition hb_marked_low : Measurement :=
  Measure (txt "Hemoglobin") (Fin (27 # 2)%Q) (of_Z 999999) (of_Z 999999)
          (txt "(Low)") None.

Definition pdf_digits_in_table_only : FileStorage :=
  {| filename := txt "Report.PDF";
     pdf_pages :=
       Ok [ {| extract_text := Some (txt "Hemoglobin");
               extract_tables := [[[Some (txt "Hb"); Some (txt "9");
                                    None; Some (txt "12-16")]]] |} ];
     ocr_list := Raise ValueError |}.

Definition scan_fragments : list text :=
  [txt " Hb 9 "; txt "ok"; txt "(12-16)"].

Definition scanned_image : FileStorage :=
  {| filename := txt "scan.png";
     pdf_pages := Raise ValueError;
     ocr_list := Ok scan_fragments |}.

(** The replacement of every run of characters of the class [p] by [repl],
    as a loop over the text; [in_run] tells that the character before belongs
    to a run already replaced. *)
Fixpoint collapse (p : ascii -> bool) (repl : text) (in_run : bool) (s : text)
  : text :=
  match s with
  | [] => []
  | c :: t =>
      if p c
      then (if in_run then collapse p repl true t
            else repl ++ collapse p repl true t)
      else c :: collapse p repl false t
  end.




(** An image on which the OCR reader finds the one line TSH 5.5 (0.5-5.0). *)
Definition tsh_scan : FileStorage :=
  {| filename := txt "tsh.jpg";
     pdf_pages := Raise ValueError;
     ocr_list := Ok [single_line (txt "TSH") (txt "5.5") (txt "0.5") (txt "5.0")] |}.

(** * Properties *)

(** ** Floats and strings *)

Example float_5_5 : py_float (txt "5.5") = Some (Fin (11 # 2)%Q).
Proof. vm_compute. reflexivity. Qed.

Example float_0_1 :
  py_float (txt "0.1") = Some (Fin (3602879701896397 # 36028797018963968)%Q).
Proof. vm_compute. reflexivity. Qed.

Example float_overflow : py_float (repeat "9"%char 400) = Some PInf.
Proof. vm_compute. reflexivity. Qed.

Example split_on_trailing :
  split_on "010"%char (txt "ab") = [txt "ab"]
  /\ split_on "010"%char [] = [[]].
Proof. split; reflexivity. Qed.

Lemma chr_eqb_eq (a b : ascii) : chr_eqb a b = true <-> a = b.
Proof. apply Ascii.eqb_eq. Qed.

Lemma text_eqb_eq (a b : text) : text_eqb a b = true <-> a = b.
Proof.
  revert b; induction a as [|x a IH]; intros [|y b]; simpl; split;
    try congruence; try reflexivity.
  - intros H. apply andb_true_iff in H as [Hx Hr].
    apply chr_eqb_eq in Hx. apply IH in Hr. congruence.
  - intros H. injection H as -> ->. apply andb_true_iff. split.
    + now apply chr_eqb_eq.
    + now apply IH.
Qed.

Lemma text_eqb_refl (a : text) : text_eqb a a = true.
Proof. now apply text_eqb_eq. Qed.

Lemma text_eqb_neq (a b : text) : text_eqb a b = false <-> a <> b.
Proof.
  split.
  - intros H E. apply text_eqb_eq in E. congruence.
  - intros H. destruct (text_eqb a b) eqn:E; [|reflexivity].
    apply text_eqb_eq in E. contradiction.
Qed.

Lemma Qlt_bool_iff (x y : Q) : Qlt_bool x y = true <-> (x < y)%Q.
Proof.
  unfold Qlt_bool. rewrite negb_true_iff. split.
  - intros H. apply Qnot_le_lt. intros L. apply Qle_bool_iff in L. congruence.
  - intros H. destruct (Qle_bool y x) eqn:E; [|reflexivity].
    apply Qle_bool_iff in E. exfalso. exact (Qlt_not_le _ _ H E).
Qed.

Lemma Qlt_bool_false_iff (x y : Q) : Qlt_bool x y = false <-> (y <= x)%Q.
Proof.
  unfold Qlt_bool. rewrite negb_false_iff. apply Qle_bool_iff.
Qed.

Lemma ltb_irrefl_eq (x y : float) : eqb x y = true -> ltb x y = false.
Proof.
  destruct x as [a|], y as [b|]; simpl; try congruence.
  intros E. apply Qeq_bool_iff in E.
  destruct (Qlt_bool a b) eqn:L; [|reflexivity].
  apply Qlt_bool_iff in L. rewrite E in L. exfalso. exact (Qlt_irrefl _ L).
Qed.

Lemma gtb_irrefl_eq (x y : float) : eqb x y = true -> gtb x y = false.
Proof.
  unfold gtb. destruct x as [a|], y as [b|]; simpl; try congruence.
  intros E. apply Qeq_bool_iff in E.
  destruct (Qlt_bool b a) eqn:L; [|reflexivity].
  apply Qlt_bool_iff in L. rewrite E in L. exfalso. exact (Qlt_irrefl _ L).
Qed.

Lemma gtb_eq_min (v mn mx : float) :
  leb mn mx = true -> eqb v mn = true -> gtb v mx = false.
Proof.
  unfold leb, gtb. rewrite negb_true_iff.
  destruct v as [a|], mn as [b|], mx as [c|]; simpl; try congruence.
  intros L E. apply Qeq_bool_iff in E.
  destruct (Qlt_bool c a) eqn:G; [|reflexivity].
  apply Qlt_bool_iff in G. rewrite E in G. apply Qlt_bool_iff in G. congruence.
Qed.

Lemma ltb_eq_max (v mn mx : float) :
  leb mn mx = true -> eqb v mx = true -> ltb v mn = false.
Proof.
  unfold leb. rewrite negb_true_iff.
  destruct v as [a|], mn as [b|], mx as [c|]; simpl; try congruence.
  intros L E. apply Qeq_bool_iff in E.
  destruct (Qlt_bool a b) eqn:G; [|reflexivity].
  apply Qlt_bool_iff in G. rewrite E in G. apply Qlt_bool_iff in G. congruence.
Qed.

(** ** The classification loop *)

Section Classifier.

Implicit Types (item out : Measurement) (all_data abnormals : list Measurement)
  (seen_tests : list text) (name : text).

Lemma named_tagged name item : named name (tagged item) = named name item.
Proof. reflexivity. Qed.

(** One turn of the loop, by cases on the item. *)
Lemma classify_from_step item more abnormals seen_tests :
  classify_from (item :: more) abnormals seen_tests =
  if abnormal item && negb (seen (test_name item) seen_tests)
  then classify_from more (abnormals ++ [tagged item])
         (test_name item :: seen_tests)
  else classify_from more abnormals seen_tests.
Proof.
  unfold abnormal, tagged. simpl.
  destruct (ltb (value item) (min item)), (gtb (value item) (max item)),
    (seen (test_name item) seen_tests); reflexivity.
Qed.

Lemma seen_cons name n seen_tests :
  seen name (n :: seen_tests) = text_eqb name n || seen name seen_tests.
Proof. reflexivity. Qed.

(** The entries of one name in the output: those already there, then, unless
    the name was seen, the first abnormal item of that name. *)
Lemma classify_from_named name all_data : forall abnormals seen_tests,
  filter (named name) (classify_from all_data abnormals seen_tests) =
  filter (named name) abnormals ++
  (if seen name seen_tests then []
   else match find (fun item => named name item && abnormal item) all_data with
        | Some item => [tagged item]
        | None => []
        end).
Proof.
  induction all_data as [|item more IH]; intros abnormals seen_tests.
  - simpl. destruct (seen name seen_tests); now rewrite app_nil_r.
  - rewrite classify_from_step. simpl find.
    destruct (abnormal item) eqn:Hab; simpl andb.
    + rewrite andb_true_r.
      destruct (seen (test_name item) seen_tests) eqn:Hs; simpl negb; cbv iota.
      * rewrite IH. f_equal.
        destruct (named name item) eqn:Hn; [|reflexivity].
        apply text_eqb_eq in Hn. rewrite <- Hn, Hs. reflexivity.
      * rewrite IH, filter_app, seen_cons. simpl filter.
        rewrite named_tagged.
        destruct (named name item) eqn:Hn.
        -- pose proof Hn as Hn'. apply text_eqb_eq in Hn'. subst name.
           rewrite text_eqb_refl, Hs. simpl. now rewrite <- app_assoc.
        -- assert (text_eqb name (test_name item) = false) as ->.
           { apply text_eqb_neq. apply text_eqb_neq in Hn. congruence. }
           simpl. now rewrite app_nil_r.
    + rewrite andb_false_r. cbv iota. apply IH.
Qed.

(** Every entry of the output is the tagged copy of an abnormal item. *)
Lemma classify_from_sound all_data : forall abnormals seen_tests out,
  In out (classify_from all_data abnormals seen_tests) ->
  In out abnormals \/
  exists item, In item all_data /\ abnormal item = true /\ out = tagged item.
Proof.
  induction all_data as [|item more IH]; intros abnormals seen_tests out.
  - simpl. now left.
  - rewrite classify_from_step.
    destruct (abnormal item && negb (seen (test_name item) seen_tests)) eqn:H.
    + intros Hin. apply IH in Hin as [Hin | (it & Hi & Ha & He)].
      * apply in_app_or in Hin as [Hin | [<- | []]]; [now left|].
        right. exists item. apply andb_true_iff in H as [H _].
        repeat split; [now left | exact H].
      * right. exists it. repeat split; [now right | exact Ha | exact He].
    + intros Hin. apply IH in Hin as [Hin | (it & Hi & Ha & He)]; [now left|].
      right. exists it. repeat split; [now right | exact Ha | exact He].
Qed.

End Classifier.

(** C4.  For every sequence of measurements and every test name, the
    classification loop emits at most one entry of that name: the tagged copy
    (same value, min, max and range, with its status) of the first abnormal
    measurement of that name; the later measurements of the name are dropped,
    abnormal or not. *)
Theorem classify_first_abnormal_per_name
    (all_data : list Measurement) (name : text) :
  filter (named name) (classify all_data) =
  match find (fun item => named name item && abnormal item) all_data with
  | Some item => [tagged item]
  | None => []
  end.
Proof.
  unfold classify. rewrite classify_from_named. reflexivity.
Qed.

(** Two abnormal Hemoglobin measurements give one entry, with the values of
    the first. *)
Example classify_hemoglobin_twice :
  classify [hemoglobin_low_1; hemoglobin_low_2] =
  [Measure (txt "Hemoglobin") (of_Z 9) (of_Z 12) (of_Z 16) (txt "12-16")
           (Some (txt "Low"))].
Proof. vm_compute. reflexivity. Qed.

(** The claim of C5 as stated fails on a reversed range: the value equals
    [min] and the item is reported as High. *)
Lemma classify_equal_min_reported_high :
  classify [hemoglobin_reversed] =
    [Measure (txt "Hemoglobin") (of_Z 20) (of_Z 20) (of_Z 10) (txt "20-10")
             (Some (txt "High"))]
  /\ eqb (value hemoglobin_reversed) (min hemoglobin_reversed) = true
  /\ pipeline no_fuzzy (txt "Hb 20 (20-10)") =
       Ok [Measure (txt "Hemoglobin") (of_Z 20) (of_Z 20) (of_Z 10)
                   (txt "20-10") (Some (txt "High"))].
Proof. repeat split; vm_compute; reflexivity. Qed.

(** C5, amended.  The comparisons are strict.  An item whose value equals
    [min] is never low and one whose value equals [max] is never high; when
    the range is ordered ([min <= max]) such an item is passed over and adds
    nothing to the output.  An item not seen before is appended as Low when
    [value < min], tested first, and otherwise as High when [value > max];
    an item with neither is passed over. *)
Theorem classify_strict_inequalities
    (item : Measurement) (more abnormals : list Measurement)
    (seen_tests : list text) :
  (eqb (value item) (min item) = true -> ltb (value item) (min item) = false)
  /\ (eqb (value item) (max item) = true -> gtb (value item) (max item) = false)
  /\ (leb (min item) (max item) = true ->
      eqb (value item) (min item) = true \/ eqb (value item) (max item) = true ->
      classify_from (item :: more) abnormals seen_tests =
      classify_from more abnormals seen_tests)
  /\ (seen (test_name item) seen_tests = false ->
      ltb (value item) (min item) = true ->
      classify_from (item :: more) abnormals seen_tests =
      classify_from more (abnormals ++ [with_status item (txt "Low")])
        (test_name item :: seen_tests))
  /\ (seen (test_name item) seen_tests = false ->
      ltb (value item) (min item) = false ->
      gtb (value item) (max item) = true ->
      classify_from (item :: more) abnormals seen_tests =
      classify_from more (abnormals ++ [with_status item (txt "High")])
        (test_name item :: seen_tests))
  /\ (ltb (value item) (min item) = false ->
      gtb (value item) (max item) = false ->
      classify_from (item :: more) abnormals seen_tests =
      classify_from more abnormals seen_tests).
Proof.
  repeat split.
  - apply ltb_irrefl_eq.
  - apply gtb_irrefl_eq.
  - intros Hle [He | He]; rewrite classify_from_step; unfold abnormal.
    + now rewrite (ltb_irrefl_eq _ _ He), (gtb_eq_min _ _ _ Hle He).
    + now rewrite (ltb_eq_max _ _ _ Hle He), (gtb_irrefl_eq _ _ He).
  - intros Hs Hl. rewrite classify_from_step. unfold abnormal, tagged.
    now rewrite Hl, Hs.
  - intros Hs Hl Hg. rewrite classify_from_step. unfold abnormal, tagged.
    now rewrite Hl, Hg, Hs.
  - intros Hl Hg. rewrite classify_from_step. unfold abnormal.
    now rewrite Hl, Hg.
Qed.

Lemma classify_strict_inequalities_witness :
  classify [hemoglobin_at_min] = [].
Proof.
  unfold classify.
  destruct (classify_strict_inequalities hemoglobin_at_min [] [] [])
    as (_ & _ & H & _).
  rewrite H.
  - reflexivity.
  - vm_compute. reflexivity.
  - left. vm_compute. reflexivity.
Defined.

(** ** The block parser: one turn of the loop *)

Section ParserSteps.

Variable extractOne : text -> list text -> Z -> option (text * Z).

Lemma parse_lines_junk line more results :
  is_junk line = true ->
  parse_lines extractOne (line :: more) results =
  parse_lines extractOne more results.
Proof. intros H. simpl. now rewrite H. Qed.

Lemma parse_lines_unnamed line more results keyword :
  is_junk line = false ->
  identify extractOne line = Some keyword ->
  std_name_of keyword = None ->
  parse_lines extractOne (line :: more) results =
  parse_lines extractOne more results.
Proof.
  intros Hj Hi Hn. simpl. rewrite Hj, Hi.
  destruct keyword; [reflexivity|]. now rewrite Hn.
Qed.

Lemma identify_exact line safe :
  exact_match line = Some safe -> identify extractOne line = Some safe.
Proof. intros H. unfold identify. now rewrite H. Qed.

End ParserSteps.

(** C10.  A line that is not junk, has RBC as a whole word and none of Hb,
    PCV, TLC as a whole word: the exact pass gives the keyword RBC, no alias
    list of the dictionary has the element RBC, so the lookup of the standard
    name fails and the loop goes to the next line with its results unchanged,
    whatever the fuzzy matcher is. *)
Theorem rbc_safe_token_line_is_skipped
    (extractOne : text -> list text -> Z -> option (text * Z))
    (line : text) (more : list text) (results : list Measurement) :
  is_junk line = false ->
  found (search (safe_re (txt "RBC")) line) = true ->
  found (search (safe_re (txt "Hb")) line) = false ->
  found (search (safe_re (txt "PCV")) line) = false ->
  found (search (safe_re (txt "TLC")) line) = false ->
  identify extractOne line = Some (txt "RBC")
  /\ existsb (text_eqb (txt "RBC")) ALL_KEYWORDS = false
  /\ std_name_of (txt "RBC") = None
  /\ parse_lines extractOne (line :: more) results =
     parse_lines extractOne more results.
Proof.
  intros Hj Hrbc Hhb Hpcv Htlc.
  assert (exact_match line = Some (txt "RBC")) as He.
  { unfold exact_match, safe_tokens. cbn [map find].
    now rewrite Hhb, Hpcv, Htlc, Hrbc. }
  assert (std_name_of (txt "RBC") = None) as Hn by (vm_compute; reflexivity).
  split; [|split; [|split]].
  - now apply identify_exact.
  - vm_compute. reflexivity.
  - exact Hn.
  - apply parse_lines_unnamed with (keyword := txt "RBC");
      [exact Hj | now apply identify_exact | exact Hn].
Qed.

Lemma rbc_safe_token_line_is_skipped_witness :
  parse_lines no_fuzzy [txt "RBC Count 4.5 (4.0-5.5)"] [] = Ok [].
Proof.
  refine (proj2 (proj2 (proj2
    (rbc_safe_token_line_is_skipped no_fuzzy (txt "RBC Count 4.5 (4.0-5.5)")
       [] [] _ _ _ _ _)))); vm_compute; reflexivity.
Defined.

Example rbc_count_line_gives_nothing :
  analyze_text no_fuzzy (txt "RBC Count 4.5 (4.0-5.5)") = Ok []
  /\ analyze_text no_fuzzy (txt "Total RBC 4.5 (4.0-5.5)") = Ok [].
Proof. split; vm_compute; reflexivity. Qed.

(** ** What a match consumes and captures *)

Section Engine.

Lemma last_seen_app pv xs ys :
  last_seen pv (xs ++ ys) = last_seen (last_seen pv xs) ys.
Proof. apply fold_left_app. Qed.

Lemma consumed_app (xs s : text) : consumed (xs ++ s) s = xs.
Proof.
  unfold consumed. rewrite length_app, Nat.add_sub.
  rewrite firstn_app, Nat.sub_diag, firstn_all. simpl. apply app_nil_r.
Qed.

(** A repetition consumes a run of characters of its class, at least [lo]. *)
Lemma rep_spec p : forall s lo hi pv pv' s',
  In (pv', s') (rep p lo hi pv s) ->
  exists xs, s = xs ++ s' /\ forallb p xs = true /\ lo <= length xs
             /\ pv' = last_seen pv xs.
Proof.
  assert (Hdone : forall lo pv s pv' s',
             In (pv', s') (lo_done lo (pv, s)) ->
             exists xs, s = xs ++ s' /\ forallb p xs = true /\ lo <= length xs
                        /\ pv' = last_seen pv xs).
  { intros [|lo] pv s pv' s' H; simpl in H; [|contradiction].
    destruct H as [H|[]]. injection H as <- <-.
    exists []. repeat split. simpl. lia. }
  induction s as [|c t IH]; intros lo hi pv pv' s' H.
  - destruct hi as [[|h]|]; simpl in H; now apply Hdone in H.
  - assert (Hstep : In (pv', s')
                      (if p c
                       then rep p (Nat.pred lo) (hi_pred hi) (Some c) t
                            ++ lo_done lo (pv, c :: t)
                       else lo_done lo (pv, c :: t)) ->
                    exists xs, c :: t = xs ++ s' /\ forallb p xs = true
                               /\ lo <= length xs /\ pv' = last_seen pv xs).
    { destruct (p c) eqn:Hp; [|apply Hdone].
      intros Hin. apply in_app_or in Hin as [Hin|Hin]; [|now apply Hdone].
      apply IH in Hin as (xs & -> & Hall & Hlo & ->).
      exists (c :: xs). repeat split.
      - simpl. now rewrite Hp, Hall.
      - simpl. lia. }
    destruct hi as [[|h]|]; simpl in H.
    + now apply Hdone in H.
    + now apply Hstep.
    + now apply Hstep.
Qed.

(** Every way a pattern matches leaves a suffix of the text. *)
Lemma run_suffix r : forall st st',
  In st' (run r st) ->
  exists xs, rest st = xs ++ rest st' /\ prev st' = last_seen (prev st) xs.
Proof.
  induction r as [ | p | p lo hi | r1 IH1 r2 IH2 | r1 IH1 r2 IH2 | r1 IH1
                 | n r1 IH1 | ]; intros st st' H; simpl in H.
  - destruct H as [<-|[]]. now exists [].
  - destruct (rest st) as [|c t] eqn:E; [contradiction|].
    destruct (p c); [|contradiction]. destruct H as [<-|[]].
    now exists [c].
  - apply in_map_iff in H as ([pv s] & <- & Hin).
    apply rep_spec in Hin as (xs & E & _ & _ & Hp). now exists xs.
  - apply in_flat_map in H as (mid & H1 & H2).
    apply IH1 in H1 as (xs & E1 & P1). apply IH2 in H2 as (ys & E2 & P2).
    exists (xs ++ ys). rewrite <- app_assoc, <- E2, last_seen_app, <- P1.
    now split.
  - apply in_app_or in H as [H|H]; [now apply IH1 | now apply IH2].
  - apply in_app_or in H as [H|[<-|[]]]; [now apply IH1 | now exists []].
  - apply in_map_iff in H as (mid & <- & Hin). simpl. now apply IH1.
  - destruct (xorb _ _); [|contradiction]. destruct H as [<-|[]]. now exists [].
Qed.

(** Patterns without a group leave the captures as they are. *)
Lemma run_groupless r : forall st st',
  groupless r = true -> In st' (run r st) -> caps st' = caps st.
Proof.
  induction r as [ | p | p lo hi | r1 IH1 r2 IH2 | r1 IH1 r2 IH2 | r1 IH1
                 | n r1 IH1 | ]; intros st st' G H; simpl in H, G.
  - now destruct H as [<-|[]].
  - destruct (rest st) as [|c t]; [contradiction|].
    destruct (p c); [|contradiction]. now destruct H as [<-|[]].
  - apply in_map_iff in H as ([pv s] & <- & _). reflexivity.
  - apply andb_true_iff in G as [G1 G2].
    apply in_flat_map in H as (mid & H1 & H2).
    rewrite (IH2 _ _ G2 H2). now apply IH1.
  - apply andb_true_iff in G as [G1 G2].
    apply in_app_or in H as [H|H]; [now apply IH1 | now apply IH2].
  - apply in_app_or in H as [H|[<-|[]]]; [now apply IH1 | reflexivity].
  - discriminate.
  - destruct (xorb _ _); [|contradiction]. now destruct H as [<-|[]].
Qed.

(** A group around a groupless pattern records the text it consumed. *)
Lemma run_group n r st st' :
  groupless r = true -> In st' (run (Grp n r) st) ->
  exists xs st1, In st1 (run r st) /\ rest st = xs ++ rest st'
                 /\ rest st1 = rest st' /\ prev st1 = prev st'
                 /\ caps st' = (n, xs) :: caps st.
Proof.
  intros G H. simpl in H. apply in_map_iff in H as (st1 & <- & Hin).
  destruct (run_suffix _ _ _ Hin) as (xs & E & _).
  exists xs, st1. simpl. repeat split; try assumption.
  rewrite (run_groupless _ _ _ G Hin). f_equal. f_equal.
  rewrite E. apply consumed_app.
Qed.

Lemma match_at_spec r pv s m :
  match_at r pv s = Some m ->
  exists st', In st' (run r (State pv s [])) /\
              s = span m ++ rest st' /\ groups m = caps st'
              /\ after m = (prev st', rest st').
Proof.
  unfold match_at. destruct (run r (State pv s [])) as [|st' l] eqn:E;
    [discriminate|].
  intros H. injection H as <-. exists st'. simpl.
  assert (In st' (run r (State pv s []))) as Hin by (rewrite E; now left).
  destruct (run_suffix _ _ _ Hin) as (xs & Es & _). simpl in Es.
  split; [now left|]. split; [|now split].
  rewrite Es, consumed_app. reflexivity.
Qed.

Lemma search_from_spec r : forall s pv m,
  search_from r pv s = Some m ->
  exists pre pv', match_at r pv' (skipn (length pre) s) = Some m
                  /\ firstn (length pre) s = pre.
Proof.
  induction s as [|c t IH]; intros pv m H; simpl in H.
  - destruct (match_at r pv []) eqn:E; [|discriminate].
    injection H as ->. now exists [], pv.
  - destruct (match_at r pv (c :: t)) eqn:E.
    + injection H as ->. now exists [], pv.
    + apply IH in H as (pre & pv' & Hm & Hp).
      exists (c :: pre), pv'. simpl. now rewrite Hp.
Qed.

(** The text of a match found by [search] occurs in the text searched. *)
Lemma search_span r s m :
  search r s = Some m -> exists pre post, s = pre ++ span m ++ post.
Proof.
  intros H. apply search_from_spec in H as (pre & pv' & Hm & Hp).
  apply match_at_spec in Hm as (st' & _ & E & _).
  exists pre, (rest st'). rewrite <- E, <- Hp at 1. symmetry. apply firstn_skipn.
Qed.

End Engine.

(** ** The numbers the patterns capture *)

Section Numbers.

Lemma take_digits_app ds : forall tl,
  forallb is_digit ds = true ->
  match tl with c :: _ => is_digit c = false | [] => True end ->
  take_digits (ds ++ tl) = (ds, tl).
Proof.
  induction ds as [|d ds IH]; intros tl Hd Ht; simpl.
  - destruct tl as [|c t]; simpl; [reflexivity|]. now rewrite Ht.
  - simpl in Hd. apply andb_true_iff in Hd as [Hd Hds].
    now rewrite Hd, (IH tl Hds Ht).
Qed.

Lemma is_decimal_int ds :
  ds <> [] -> forallb is_digit ds = true -> is_decimal ds = true.
Proof.
  intros Hn Hd. unfold is_decimal.
  rewrite <- (app_nil_r ds), take_digits_app by (exact Hd || exact I).
  now destruct ds.
Qed.

Lemma is_decimal_frac ds fs :
  ds <> [] -> forallb is_digit ds = true ->
  fs <> [] -> forallb is_digit fs = true ->
  is_decimal (ds ++ "."%char :: fs) = true.
Proof.
  intros Hn Hd Hm Hf. unfold is_decimal.
  rewrite take_digits_app by (exact Hd || reflexivity).
  destruct ds; [contradiction|]. rewrite Hf.
  destruct fs; [contradiction|]. reflexivity.
Qed.

(** [float] accepts every such literal. *)
Lemma py_float_decimal xs :
  is_decimal xs = true -> exists f, py_float xs = Some f.
Proof.
  unfold is_decimal, py_float.
  destruct (take_digits xs) as [[|d ds] [|c fp]]; try discriminate.
  - intros _. eexists. reflexivity.
  - intros ->. eexists. reflexivity.
Qed.

Lemma run_seq r1 r2 st st' :
  In st' (run (Seq r1 r2) st) ->
  exists mid, In mid (run r1 st) /\ In st' (run r2 mid).
Proof. intros H. simpl in H. now apply in_flat_map in H. Qed.

Lemma run_opt r st st' :
  In st' (run (Opt r) st) -> In st' (run r st) \/ st' = st.
Proof.
  intros H. cbn [run] in H. apply in_app_or in H as [H | [<- | []]]; auto.
Qed.

Lemma run_alt r1 r2 st st' :
  In st' (run (Alt r1 r2) st) -> In st' (run r1 st) \/ In st' (run r2 st).
Proof. intros H. cbn [run] in H. now apply in_app_or in H. Qed.

Lemma run_chr p st st' :
  In st' (run (Chr p) st) ->
  exists c t, rest st = c :: t /\ p c = true
              /\ st' = State (Some c) t (caps st).
Proof.
  intros H. cbn [run] in H. destruct (rest st) as [|c t]; [contradiction|].
  destruct (p c) eqn:Hp; [|contradiction]. destruct H as [<- | []].
  now exists c, t.
Qed.

Lemma run_rep p lo hi st st' :
  In st' (run (Rep p lo hi) st) ->
  exists xs, rest st = xs ++ rest st' /\ forallb p xs = true
             /\ lo <= length xs /\ caps st' = caps st
             /\ prev st' = last_seen (prev st) xs.
Proof.
  intros H. cbn [run] in H. apply in_map_iff in H as ([pv s] & <- & H).
  apply rep_spec in H as (xs & E & Hp & Hl & Hv). now exists xs.
Qed.

Lemma nonempty_length (xs : text) : 1 <= length xs -> xs <> [].
Proof. destruct xs; simpl; [lia | discriminate]. Qed.

(** What [number] consumes is a decimal literal. *)
Lemma number_run st st' :
  In st' (run number st) ->
  exists xs, rest st = xs ++ rest st' /\ is_decimal xs = true.
Proof.
  unfold number. intros H. apply run_seq in H as (mid & H1 & H2).
  apply run_rep in H1 as (ds & E1 & Hd & Hl & _).
  apply run_opt in H2 as [H2 | ->].
  - apply run_seq in H2 as (m2 & Hc & Hr).
    apply run_chr in Hc as (c & t & Ec & Hc' & ->).
    apply run_rep in Hr as (fs & E2 & Hf & Hl2 & _). simpl in E2.
    apply chr_eqb_eq in Hc'. subst c.
    exists (ds ++ "."%char :: fs). split.
    + rewrite E1, Ec, E2, <- app_assoc. reflexivity.
    + apply is_decimal_frac; auto using nonempty_length.
  - exists ds. split; [exact E1|].
    apply is_decimal_int; auto using nonempty_length.
Qed.

Lemma number_groupless : groupless number = true.
Proof. reflexivity. Qed.

(** A group around [number] captures a decimal literal. *)
Lemma number_group n st st' :
  In st' (run (Grp n number) st) ->
  exists xs, caps st' = (n, xs) :: caps st /\ is_decimal xs = true.
Proof.
  intros H. apply run_group in H as (xs & st1 & H1 & E & Er & _ & Hc);
    [|exact number_groupless].
  exists xs. split; [exact Hc|].
  apply number_run in H1 as (ys & E' & Hy).
  rewrite Er, E in E'. apply app_inv_tail in E'. now subst ys.
Qed.

(** Pattern A captures two decimal literals. *)
Lemma dash_re_groups st st' :
  In st' (run dash_re st) ->
  exists x1 x2, caps st' = (2, x2) :: (1, x1) :: caps st
                /\ is_decimal x1 = true /\ is_decimal x2 = true.
Proof.
  unfold dash_re. intros H.
  apply run_seq in H as (m1 & H1 & H). apply number_group in H1 as (x1 & C1 & D1).
  apply run_seq in H as (m2 & H2 & H).
  apply run_groupless in H2; [|reflexivity].
  apply run_seq in H as (m3 & H3 & H).
  apply run_groupless in H3; [|reflexivity].
  apply run_seq in H as (m4 & H4 & H).
  apply run_groupless in H4; [|reflexivity].
  apply run_seq in H as (m5 & H5 & H).
  apply run_groupless in H5; [|reflexivity].
  apply number_group in H as (x2 & C2 & D2).
  exists x1, x2. split; [|now split]. congruence.
Qed.

(** Patterns B and C capture one decimal literal. *)
Lemma bound_re_groups (head : regex) st st' :
  groupless head = true ->
  In st' (run (Seq head (Seq ws0 (Grp 1 number))) st) ->
  exists x1, caps st' = (1, x1) :: caps st /\ is_decimal x1 = true.
Proof.
  intros G H.
  apply run_seq in H as (m1 & H1 & H). apply run_groupless in H1; [|exact G].
  apply run_seq in H as (m2 & H2 & H).
  apply run_groupless in H2; [|reflexivity].
  apply number_group in H as (x1 & C1 & D1).
  exists x1. split; [congruence | exact D1].
Qed.

Lemma search_found r s m :
  search r s = Some m ->
  exists pv' s' st', In st' (run r (State pv' s' [])) /\ groups m = caps st'.
Proof.
  intros H. apply search_from_spec in H as (pre & pv' & Hm & _).
  apply match_at_spec in Hm as (st' & Hin & _ & Hg & _).
  now exists pv', (skipn (length pre) s), st'.
Qed.

Lemma float_group_decimal n m x :
  group n (groups m) = Some x -> is_decimal x = true ->
  exists f, float_group n m = Ok f /\ py_float x = Some f.
Proof.
  intros Hg Hd. apply py_float_decimal in Hd as (f & Hf).
  exists f. unfold float_group. now rewrite Hg, Hf.
Qed.

Lemma dash_match_floats s m :
  search dash_re s = Some m ->
  exists min_v max_v, float_group 1 m = Ok min_v /\ float_group 2 m = Ok max_v.
Proof.
  intros H. apply search_found in H as (pv' & s' & st' & Hin & Hg).
  apply dash_re_groups in Hin as (x1 & x2 & C & D1 & D2). simpl in C.
  destruct (float_group_decimal 1 m x1) as (f1 & F1 & _);
    [now rewrite Hg, C | exact D1 |].
  destruct (float_group_decimal 2 m x2) as (f2 & F2 & _);
    [now rewrite Hg, C | exact D2 |].
  now exists f1, f2.
Qed.

Lemma less_match_float s m :
  search less_re s = Some m -> exists f, float_group 1 m = Ok f.
Proof.
  intros H. apply search_found in H as (pv' & s' & st' & Hin & Hg).
  apply bound_re_groups in Hin as (x1 & C & D1); [|reflexivity]. simpl in C.
  destruct (float_group_decimal 1 m x1) as (f1 & F1 & _);
    [now rewrite Hg, C | exact D1 |].
  now exists f1.
Qed.

Lemma more_match_float s m :
  search more_re s = Some m -> exists f, float_group 1 m = Ok f.
Proof.
  intros H. apply search_found in H as (pv' & s' & st' & Hin & Hg).
  apply bound_re_groups in Hin as (x1 & C & D1); [|reflexivity]. simpl in C.
  destruct (float_group_decimal 1 m x1) as (f1 & F1 & _);
    [now rewrite Hg, C | exact D1 |].
  now exists f1.
Qed.

End Numbers.

(** ** The range extractor *)

Section RangeExtractor.

(** The cascade, once the text is known not to be empty. *)
Lemma extract_range_cascade (text0 : text) :
  text0 <> [] ->
  extract_range text0 =
  let text := squeeze text0 in
  if found (search zip_re text) then Ok None
  else
    match search dash_re text with
    | Some dash_match =>
        do min_v <- float_group 1 dash_match;
        do max_v <- float_group 2 dash_match;
        if gtb max_v (of_Z 50000) then Ok None
        else Ok (Some (min_v, max_v, span dash_match))
    | None =>
        match search less_re text with
        | Some less =>
            do hi <- float_group 1 less;
            Ok (Some (of_Z 0, hi, span less))
        | None =>
            match search more_re text with
            | Some more =>
                do lo <- float_group 1 more;
                Ok (Some (lo, of_Z 999999, span more))
            | None =>
                if found (search low_re text)
                then Ok (Some (of_Z 999999, of_Z 999999, txt "(Low)"))
                else if found (search high_re text)
                then Ok (Some (of_Z (-999999), of_Z (-999999), txt "(High)"))
                else Ok None
            end
        end
    end.
Proof. destruct text0; [contradiction | reflexivity]. Qed.

(** The range extractor raises nothing. *)
Lemma extract_range_total (text0 : text) : exists r, extract_range text0 = Ok r.
Proof.
  destruct text0 as [|c t]; [now exists None|].
  rewrite extract_range_cascade by discriminate. cbv zeta.
  destruct (found (search zip_re _)); [now eexists|].
  destruct (search dash_re _) as [m|] eqn:Hd.
  { apply dash_match_floats in Hd as (f1 & f2 & -> & ->). cbn [bind].
    destruct (gtb f2 (of_Z 50000)); now eexists. }
  destruct (search less_re _) as [m|] eqn:Hl.
  { apply less_match_float in Hl as (f & ->). now eexists. }
  destruct (search more_re _) as [m|] eqn:Hm.
  { apply more_match_float in Hm as (f & ->). now eexists. }
  destruct (found (search low_re _)); [now eexists|].
  destruct (found (search high_re _)); now eexists.
Qed.

End RangeExtractor.

(** C7 as stated fails when the first number is the large one: only the
    second is compared with 50000. *)
Lemma extract_range_keeps_large_first_number :
  extract_range (txt "60000-10") =
  Ok (Some (of_Z 60000, of_Z 10, txt "60000-10")).
Proof. vm_compute. reflexivity. Qed.

(** C7, amended.  When pattern A matches the squeezed text, its two groups
    convert to floats; if the second one, which the source takes as the
    maximum, exceeds 50000 the extractor returns nothing and tries no later
    pattern; if it does not, and the postal guard is silent, the pair is
    returned whatever the first number is. *)
Theorem dash_range_rejected_when_max_exceeds_50000
    (text0 : text) (dash_match : rmatch) :
  text0 <> [] ->
  search dash_re (squeeze text0) = Some dash_match ->
  exists min_v max_v,
    float_group 1 dash_match = Ok min_v
    /\ float_group 2 dash_match = Ok max_v
    /\ (gtb max_v (of_Z 50000) = true -> extract_range text0 = Ok None)
    /\ (gtb max_v (of_Z 50000) = false ->
        found (search zip_re (squeeze text0)) = false ->
        extract_range text0 = Ok (Some (min_v, max_v, span dash_match))).
Proof.
  intros Hne Hd.
  destruct (dash_match_floats _ _ Hd) as (f1 & f2 & F1 & F2).
  exists f1, f2. split; [exact F1|]. split; [exact F2|].
  rewrite extract_range_cascade by exact Hne. cbv zeta.
  rewrite Hd, F1, F2. cbn [bind]. split.
  - intros ->. now destruct (found (search zip_re (squeeze text0))).
  - intros -> ->. reflexivity.
Qed.

Lemma dash_range_rejected_when_max_exceeds_50000_witness :
  extract_range (txt "1-60000") = Ok None.
Proof.
  destruct (dash_range_rejected_when_max_exceeds_50000
              (txt "1-60000")
              (Match (txt "1-60000") [(2, txt "60000"); (1, txt "1")]
                     (Some "0"%char, [])))
    as (f1 & f2 & F1 & F2 & Hhigh & _).
  - discriminate.
  - vm_compute. reflexivity.
  - apply Hhigh.
    assert (f2 = of_Z 60000) as ->.
    { vm_compute in F2. now injection F2 as <-. }
    vm_compute. reflexivity.
Defined.

Section Substrings.

Lemma lstrip_suffix (s : text) : exists a, s = a ++ lstrip s.
Proof.
  induction s as [|c t (a & IH)]; [now exists []|]. simpl.
  destruct (is_space c); [|now exists []].
  exists (c :: a). simpl. now rewrite <- IH.
Qed.

Lemma strip_substring (s : text) : exists a b, s = a ++ strip s ++ b.
Proof.
  unfold strip, rstrip.
  destruct (lstrip_suffix s) as (a & Ea).
  destruct (lstrip_suffix (rev (lstrip s))) as (b & Eb).
  exists a, (rev b).
  rewrite <- rev_app_distr, <- Eb, rev_involutive. exact Ea.
Qed.

Lemma substring_trans (s u v : text) :
  (exists a b, s = a ++ u ++ b) -> (exists c d, u = c ++ v ++ d) ->
  exists pre post, s = pre ++ v ++ post.
Proof.
  intros (a & b & ->) (c & d & ->). exists (a ++ c), (d ++ b).
  now rewrite <- !app_assoc.
Qed.

End Substrings.

(** C8 as stated fails: the markers come back as a fixed text, which the
    window need not contain, and the numeric patterns are matched against the
    squeezed text, whose match a window with a longer run of blanks does not
    contain; the value extractor then removes nothing and takes the first
    number of the range. *)
Lemma extract_range_span_not_in_window :
  extract_range (txt "Hb 9 [L]") =
    Ok (Some (of_Z 999999, of_Z 999999, txt "(Low)"))
  /\ contains (txt "(Low)") (txt "Hb 9 [L]") = false
  /\ extract_range (txt "10  -  20") =
       Ok (Some (of_Z 10, of_Z 20, txt "10 - 20"))
  /\ contains (txt "10 - 20") (txt "10  -  20") = false
  /\ extract_value (txt "10  -  20") (Some (txt "10 - 20")) = Some (of_Z 10).
Proof. repeat split; vm_compute; reflexivity. Qed.

(** C8, amended.  When the range extractor returns a result, either the
    matched text is the text patterns A to C consumed in the squeezed window
    (blank runs replaced by one space, ends stripped), where it occurs
    verbatim, and it occurs verbatim in the window itself when squeezing
    only strips the ends; or it is the fixed text of a marker. *)
Theorem extract_range_span_occurs_in_squeezed_text
    (text0 : text) (min_v max_v : float) (matched : text) :
  extract_range text0 = Ok (Some (min_v, max_v, matched)) ->
  ((exists pre post, squeeze text0 = pre ++ matched ++ post)
   /\ (sub ws1 (txt " ") text0 = text0 ->
       exists pre post, text0 = pre ++ matched ++ post))
  \/ (matched = txt "(Low)" /\ found (search low_re (squeeze text0)) = true)
  \/ (matched = txt "(High)" /\ found (search high_re (squeeze text0)) = true).
Proof.
  destruct text0 as [|c t]; [discriminate|].
  rewrite extract_range_cascade by discriminate. cbv zeta.
  set (text0 := c :: t).
  assert (Hsub : forall m : rmatch,
             (exists pre post, squeeze text0 = pre ++ span m ++ post) ->
             (exists pre post, squeeze text0 = pre ++ span m ++ post)
             /\ (sub ws1 (txt " ") text0 = text0 ->
                 exists pre post, text0 = pre ++ span m ++ post)).
  { intros m Hm. split; [exact Hm|]. intros Hs.
    apply substring_trans with (u := squeeze text0); [|exact Hm].
    unfold squeeze. rewrite Hs. apply strip_substring. }
  destruct (found (search zip_re _)); [discriminate|].
  destruct (search dash_re _) as [m|] eqn:Hd.
  { destruct (dash_match_floats _ _ Hd) as (f1 & f2 & -> & ->). cbn [bind].
    destruct (gtb f2 (of_Z 50000)); [discriminate|].
    intros H. injection H as <- <- <-. left. apply Hsub.
    exact (search_span _ _ _ Hd). }
  destruct (search less_re _) as [m|] eqn:Hl.
  { destruct (less_match_float _ _ Hl) as (f & ->). cbn [bind].
    intros H. injection H as <- <- <-. left. apply Hsub.
    exact (search_span _ _ _ Hl). }
  destruct (search more_re _) as [m|] eqn:Hm.
  { destruct (more_match_float _ _ Hm) as (f & ->). cbn [bind].
    intros H. injection H as <- <- <-. left. apply Hsub.
    exact (search_span _ _ _ Hm). }
  destruct (found (search low_re _)) eqn:Hlow.
  { intros H. injection H as <- <- <-. right. left. now split. }
  destruct (found (search high_re _)) eqn:Hhigh; [|discriminate].
  intros H. injection H as <- <- <-. right. right. now split.
Qed.

Lemma extract_range_span_occurs_in_squeezed_text_witness :
  exists pre post,
    txt "TSH 5.5 (0.5-5.0) " = pre ++ txt "0.5-5.0" ++ post.
Proof.
  destruct (extract_range_span_occurs_in_squeezed_text
              (txt "TSH 5.5 (0.5-5.0) ") (Fin (1 # 2)%Q) (of_Z 5)
              (txt "0.5-5.0"))
    as [[_ H] | [[H _] | [H _]]].
  - vm_compute. reflexivity.
  - apply H. vm_compute. reflexivity.
  - discriminate H.
  - discriminate H.
Defined.

(** ** No exception leaves the pipeline *)

Section Totality.

Variable extractOne : text -> list text -> Z -> option (text * Z).

(** One turn of the loop on a line that has a standard name. *)
Lemma parse_lines_named line more results c k std_name :
  is_junk line = false ->
  identify extractOne line = Some (c :: k) ->
  std_name_of (c :: k) = Some std_name ->
  parse_lines extractOne (line :: more) results =
  let next_line := match more with l :: _ => l | [] => [] end in
  let context_block := line ++ txt " " ++ next_line in
  do r <- extract_range context_block;
  match extract_value context_block
          (match r with Some (_, _, t) => Some t | None => None end), r with
  | Some v, Some (min_r, max_r, t) =>
      parse_lines extractOne more
        (results ++ [Measure std_name v min_r max_r t None])
  | _, _ => parse_lines extractOne more results
  end.
Proof. intros Hj Hi Hn. cbn [parse_lines]. now rewrite Hj, Hi, Hn. Qed.

Lemma parse_lines_unidentified line more results :
  is_junk line = false ->
  identify extractOne line = None \/ identify extractOne line = Some [] ->
  parse_lines extractOne (line :: more) results =
  parse_lines extractOne more results.
Proof. intros Hj [Hi | Hi]; cbn [parse_lines]; now rewrite Hj, Hi. Qed.

Lemma parse_lines_total lines : forall results,
  exists out, parse_lines extractOne lines results = Ok out.
Proof.
  induction lines as [|line more IH]; intros results.
  - now exists results.
  - destruct (is_junk line) eqn:Hj.
    { rewrite parse_lines_junk by exact Hj. apply IH. }
    destruct (identify extractOne line) as [[|c k]|] eqn:Hi.
    { rewrite parse_lines_unidentified by auto. apply IH. }
    2:{ rewrite parse_lines_unidentified by auto. apply IH. }
    destruct (std_name_of (c :: k)) as [std_name|] eqn:Hn.
    2:{ rewrite (parse_lines_unnamed extractOne _ _ _ _ Hj Hi Hn). apply IH. }
    rewrite (parse_lines_named _ more results _ _ _ Hj Hi Hn). cbv zeta.
    destruct (extract_range_total
                (line ++ txt " " ++ match more with l :: _ => l | [] => [] end))
      as (r & ->).
    cbn [bind].
    destruct (extract_value _ _) as [v|]; [|apply IH].
    destruct r as [[[min_r max_r] t]|]; apply IH.
Qed.

Lemma analyze_text_total raw_text :
  exists all_data, analyze_text extractOne raw_text = Ok all_data.
Proof.
  unfold analyze_text. cbv zeta.
  destruct (_ && _); [now exists []|].
  unfold parse_text_block. apply parse_lines_total.
Qed.

End Totality.

(** C9.  For every fuzzy matcher (a function, as [extractOne] raises nothing
    on strings) and every text, the pipeline of narrative filter, block
    parser with its extractors, and classification loop returns a list and
    raises nothing; on the empty text the list is empty. *)
Theorem pipeline_total
    (extractOne : text -> list text -> Z -> option (text * Z))
    (raw_text : text) :
  (exists results, pipeline extractOne raw_text = Ok results)
  /\ pipeline extractOne [] = Ok []
  /\ parse_text_block extractOne [] = Ok [].
Proof.
  split; [|split; reflexivity].
  unfold pipeline.
  destruct (analyze_text_total extractOne raw_text) as (all_data & ->).
  now exists (classify all_data).
Qed.

(** ** The value extractor *)

Section ValueExtractor.

Lemma keeps_false_iff (f : float) :
  keeps f = false <->
  (leb (of_Z 2000) f = true /\ leb f (of_Z 2100) = true)
  \/ leb (of_Z 10000) f = true.
Proof.
  unfold keeps, leb, gtb, of_Z. destruct f as [q|]; simpl.
  - destruct (Qlt_bool q (inject_Z 2000)) eqn:A;
    destruct (Qlt_bool (inject_Z 2100) q) eqn:B;
    destruct (Qlt_bool q (inject_Z 10000)) eqn:C; simpl;
    split; intros H; try discriminate; auto;
    try (destruct H as [[H1 H2] | H]; discriminate);
    exfalso;
    repeat match goal with
           | E : Qlt_bool _ _ = true |- _ => apply Qlt_bool_iff in E
           | E : Qlt_bool _ _ = false |- _ => apply Qlt_bool_false_iff in E
           end;
    unfold inject_Z in *; lra.
  - split; [now right | reflexivity].
Qed.

(** Every match of the scan was found by trying the pattern somewhere. *)
Lemma scan_matches r : forall s skip pv m,
  In (inr m) (scan r skip pv s) -> exists pv' s', match_at r pv' s' = Some m.
Proof.
  induction s as [|c t IH]; intros skip pv m H; simpl in H; [contradiction|].
  destruct skip as [|k]; [|now apply IH in H].
  destruct (match_at r pv (c :: t)) as [m'|] eqn:E.
  - destruct (length (span m')) as [|k].
    + destruct H as [H | H]; [discriminate | now apply IH in H].
    + destruct H as [H | H]; [|now apply IH in H].
      injection H as <-. now exists pv, (c :: t).
  - destruct H as [H | H]; [discriminate | now apply IH in H].
Qed.

(** The tokens of [findall] are decimal literals. *)
Lemma findall_decimal s : Forall (fun n => is_decimal n = true) (findall num_re s).
Proof.
  apply Forall_forall. intros n H. unfold findall in H.
  apply in_flat_map in H as ([cs | m] & Hin & Hn); [contradiction|].
  apply scan_matches in Hin as (pv' & s' & Hm).
  apply match_at_spec in Hm as (st' & Hr & _ & Hg & _).
  apply number_group in Hr as (xs & Hc & Hd).
  rewrite Hg, Hc in Hn. simpl in Hn. destruct Hn as [<- | []]. exact Hd.
Qed.

(** The loop over the tokens keeps the first one the filter accepts. *)
Lemma valid_nums_first nums :
  Forall (fun n => is_decimal n = true) nums ->
  match valid_nums nums with
  | f :: _ =>
      exists before n after,
        nums = before ++ n :: after /\ py_float n = Some f
        /\ keeps f = true /\ Forall rejected before
  | [] => Forall rejected nums
  end.
Proof.
  induction 1 as [|n nums Hn Hall IH]; [constructor|].
  simpl. destruct (py_float_decimal _ Hn) as (g & Hg). rewrite Hg.
  destruct (keeps g) eqn:Hk.
  - exists [], n, nums. repeat split; auto.
  - assert (rejected n) as Hr by (now exists g).
    destruct (valid_nums nums) as [|f l].
    + now constructor.
    + destruct IH as (before & n' & after & -> & Hf & Hkf & Hb).
      exists (n :: before), n', after. repeat split; auto.
Qed.

End ValueExtractor.

(** C2 as stated has the filter the wrong way round: a token below 2000 is
    kept, the year 2050 and the number 15000 are passed over. *)
Lemma extract_value_keeps_small_drops_years_and_ids :
  extract_value (txt "2050 15000 5.5") None = Some (Fin (11 # 2)%Q)
  /\ extract_value (txt "2050") None = None
  /\ extract_value (txt "15000") None = None
  /\ extract_value (txt "5.5") None = Some (Fin (11 # 2)%Q)
  /\ extract_value (txt "3500") None = Some (of_Z 3500).
Proof. repeat split; vm_compute; reflexivity. Qed.

(** C2, amended.  The value extractor takes the range text and the commas
    out of the window and reads its decimal tokens from the left.  A token is
    passed over exactly when its value lies in 2000..2100 (a year) or is
    10000 or more (a postal code or an ID), and kept when it is below 2000 or
    strictly between 2100 and 10000.  The result is the value of the first
    token kept, every token before it being passed over; there is none when
    every token is passed over. *)
Theorem extract_value_first_kept_token
    (text_source : text) (range_str : option text) :
  (forall f, keeps f = false <->
             (leb (of_Z 2000) f = true /\ leb f (of_Z 2100) = true)
             \/ leb (of_Z 10000) f = true)
  /\ match extract_value text_source range_str with
     | Some f =>
         exists before n after,
           value_tokens text_source range_str = before ++ n :: after
           /\ py_float n = Some f /\ keeps f = true
           /\ Forall rejected before
     | None => Forall rejected (value_tokens text_source range_str)
     end.
Proof.
  split; [exact keeps_false_iff|].
  destruct text_source as [|c t].
  - simpl. destruct range_str as [[|c r]|]; constructor.
  - unfold extract_value, value_tokens.
    set (clean := replace (txt ",") [] _).
    pose proof (valid_nums_first _ (findall_decimal clean)) as H.
    destruct (valid_nums (findall num_re clean)); exact H.
Qed.

(** ** The density test of the narrative filter

    [digit_count / len(raw_text) < 0.05] compares two binary64 values, the
    rounded quotient and the rounded literal.  For texts shorter than
    [2 ^ 50] characters it agrees with the exact comparison of the
    proportion of digits with one twentieth. *)

Section Density.

Local Open Scope Z_scope.

Lemma rne_bounds (N D : Z) :
  0 <= N -> 0 < D -> 2 * N - D <= 2 * D * rne N D <= 2 * N + D.
Proof.
  intros HN HD. unfold rne.
  pose proof (Z.div_mod N D ltac:(lia)) as E.
  pose proof (Z.mod_pos_bound N D HD) as B.
  destruct (Z.ltb_spec (2 * (N mod D)) D); [nia|].
  destruct (Z.ltb_spec D (2 * (N mod D))); [nia|].
  destruct (Z.even (N / D)); nia.
Qed.

(** The exponent of a proportion [d / n] in [(0, 1]]. *)
Lemma ilog2_frac (d n : Z) :
  0 < d <= n ->
  exists K, 0 <= K /\ ilog2 d n = - K /\ n <= d * 2 ^ K < 2 * n.
Proof.
  intros [Hd Hn]. unfold ilog2.
  pose proof (Z.log2_spec d Hd) as [Da Db].
  pose proof (Z.log2_spec n ltac:(lia)) as [Na Nb].
  pose proof (Z.log2_le_mono d n Hn) as Hab.
  pose proof (Z.log2_nonneg d) as Ha.
  set (a := Z.log2 d) in *. set (b := Z.log2 n) in *.
  replace (Z.succ a) with (a + 1) in Db by lia.
  replace (Z.succ b) with (b + 1) in Nb by lia.
  rewrite Z.pow_add_r in Db, Nb by lia. change (2 ^ 1) with 2 in Db, Nb.
  destruct (Z.leb_spec 0 (a - b)) as [He|He].
  - assert (a = b) as Eab by lia. rewrite Eab, Z.sub_diag.
    change (2 ^ 0) with 1. rewrite Eab in Da, Db.
    destruct (Z.ltb_spec d (n * 1)).
    + exists 1. change (2 ^ 1) with 2. lia.
    + exists 0. change (2 ^ 0) with 1. lia.
  - assert (2 ^ b = 2 ^ a * 2 ^ (b - a)) as Ep.
    { rewrite <- Z.pow_add_r by lia. f_equal. lia. }
    replace (- (a - b)) with (b - a) by lia.
    pose proof (Z.pow_pos_nonneg 2 (b - a) ltac:(lia) ltac:(lia)) as Hp.
    pose proof (Z.pow_pos_nonneg 2 a ltac:(lia) ltac:(lia)) as Hpa.
    destruct (Z.ltb_spec (d * 2 ^ (b - a)) n).
    + exists (b - a + 1). rewrite Z.pow_add_r by lia. change (2 ^ 1) with 2.
      split; [lia|]. split; [lia|]. nia.
    + exists (b - a). split; [lia|]. split; [lia|]. nia.
Qed.

Lemma round64_frac (d n K : Z) :
  0 < d -> 0 <= K <= 1000 -> ilog2 d n = - K ->
  round64 d n =
  Fin (Qred (Qmake (rne (d * 2 ^ (K + 52)) n) (Z.to_pos (2 ^ (K + 52))))).
Proof.
  intros Hd HK HL. unfold round64, round64_parts. rewrite HL.
  destruct (Z.eqb_spec d 0); [lia|].
  replace (Z.max (- K - 52) (-1074)) with (- (K + 52)) by lia.
  destruct (Z.leb_spec 0 (- (K + 52))); [lia|].
  now rewrite Z.opp_involutive.
Qed.

Lemma ltb_Qred_pow (m k : Z) (c : Z) (p : positive) :
  0 <= k ->
  ltb (Fin (Qred (Qmake m (Z.to_pos (2 ^ k))))) (Fin (Qmake c p)) = true <->
  m * Z.pos p < c * 2 ^ k.
Proof.
  intros Hk. unfold ltb. rewrite Qlt_bool_iff, Qred_correct.
  unfold Qlt. cbn [Qnum Qden].
  rewrite Z2Pos.id by (apply Z.pow_pos_nonneg; lia). reflexivity.
Qed.

Lemma literal_0_05 :
  round64 5 100 = Fin (Qmake 3602879701896397 72057594037927936).
Proof. vm_compute. reflexivity. Qed.

(** The quotient test against the exact proportion. *)
Lemma truediv_below_0_05 (d n : Z) :
  0 <= d <= n -> 0 < n < 2 ^ 50 ->
  ltb (round64 d n) (round64 5 100) = true <-> 20 * d < n.
Proof.
  intros Hd Hn. rewrite literal_0_05.
  destruct (Z.eq_dec d 0) as [->|Hd0].
  { split; [lia|]. intros _. reflexivity. }
  destruct (ilog2_frac d n ltac:(lia)) as (K & HK & HL & Hlo & Hhi).
  assert (K < 51) as HK51.
  { apply (Z.pow_lt_mono_r_iff 2); [lia | lia |].
    change (2 ^ 51) with (2 * 2 ^ 50). nia. }
  rewrite (round64_frac d n K) by lia.
  rewrite ltb_Qred_pow by lia.
  pose proof (rne_bounds (d * 2 ^ (K + 52)) n) as Hm.
  rewrite Z.pow_add_r in * by lia.
  pose proof (Z.pow_pos_nonneg 2 K ltac:(lia) HK) as HP.
  set (P := 2 ^ K) in *. set (m := rne (d * (P * 2 ^ 52)) n) in *.
  specialize (Hm ltac:(nia) ltac:(lia)).
  change (2 ^ 52) with 4503599627370496 in *.
  assert (HK5 : K < 5 \/ K = 5 \/ 6 <= K) by lia.
  destruct HK5 as [HK5 | [HK5 | HK5]].
  - (* the proportion is at least 1/16 *)
    assert (P <= 16) as HP16.
    { unfold P. change 16 with (2 ^ 4). apply Z.pow_le_mono_r; lia. }
    assert (4503599627370496 <= m) as Hm52 by nia.
    split; [intros H; exfalso; nia | intros H; exfalso; nia].
  - (* the binade of 1/20 *)
    assert (P = 32) as HP32 by (unfold P; rewrite HK5; reflexivity).
    rewrite HP32 in *. split; intros H; nia.
  - (* the proportion is below 1/32 *)
    assert (64 <= P) as HP64.
    { unfold P. change 64 with (2 ^ 6). apply Z.pow_le_mono_r; lia. }
    assert (m <= 9007199254740992) as Hm53 by nia.
    split; [intros _; nia | intros _; nia].
Qed.

End Density.

(** ** The narrative filter *)

Section NarrativeFilter.

Lemma count_digits_le (s : text) : count_digits s <= length s.
Proof. apply filter_length_le. Qed.

Lemma digit_sparse_iff (raw_text : text) :
  0 < length raw_text ->
  (Z.of_nat (length raw_text) < 2 ^ 50)%Z ->
  digit_sparse raw_text = true <-> 20 * count_digits raw_text < length raw_text.
Proof.
  intros Hpos Hlen. unfold digit_sparse, truediv.
  pose proof (count_digits_le raw_text).
  rewrite truediv_below_0_05 by lia. lia.
Qed.

Lemma match_count_marker (raw_text : text) :
  (1 <=? length (filter (fun m => contains m (lower raw_text)) biopsy_markers))
  = has_marker raw_text.
Proof.
  unfold has_marker.
  induction biopsy_markers as [|m l IH]; [reflexivity|]. simpl.
  destruct (contains m (lower raw_text)); [reflexivity | exact IH].
Qed.

End NarrativeFilter.

(** C3.  When a narrative marker occurs in the lowered text and fewer than
    5% of the characters are digits, [analyze_file] returns no measurement,
    whatever the block parser would find; when no marker occurs, or at least
    5% of the characters are digits, the text goes to the block parser.  The
    length bound is where the binary64 quotient and the exact proportion
    agree. *)
Theorem narrative_filter_rule
    (extractOne : text -> list text -> Z -> option (text * Z))
    (raw_text : text) :
  (Z.of_nat (length raw_text) < 2 ^ 50)%Z ->
  (has_marker raw_text = true ->
   20 * count_digits raw_text < length raw_text ->
   analyze_text extractOne raw_text = Ok [])
  /\ (has_marker raw_text = false
      \/ length raw_text <= 20 * count_digits raw_text ->
      analyze_text extractOne raw_text = parse_text_block extractOne raw_text).
Proof.
  intros Hlen. unfold analyze_text. cbv zeta. rewrite match_count_marker.
  split.
  - intros -> Hd.
    assert (0 < length raw_text) as Hpos by lia.
    apply (digit_sparse_iff raw_text Hpos Hlen) in Hd. rewrite Hd.
    apply Nat.ltb_lt in Hpos. now rewrite Hpos.
  - intros [-> | Hd]; [reflexivity|].
    destruct (0 <? length raw_text) eqn:Hpos.
    + apply Nat.ltb_lt in Hpos.
      destruct (digit_sparse raw_text) eqn:Hs.
      * apply (digit_sparse_iff raw_text Hpos Hlen) in Hs. lia.
      * now rewrite andb_false_r.
    + now rewrite andb_false_r.
Qed.

Lemma narrative_filter_rule_witness :
  analyze_text no_fuzzy biopsy_report = Ok [].
Proof.
  refine (proj1 (narrative_filter_rule no_fuzzy biopsy_report _) _ _).
  - vm_compute. reflexivity.
  - vm_compute. reflexivity.
  - apply Nat.ltb_lt. vm_compute. reflexivity.
Defined.

(** The block parser alone reads the Hb line of the report. *)
Example biopsy_report_has_a_lab_line :
  parse_text_block no_fuzzy biopsy_report =
  Ok [Measure (txt "Hemoglobin") (of_Z 9) (of_Z 12) (of_Z 16) (txt "12-16") None].
Proof. vm_compute. reflexivity. Qed.

(** ** The year guard on a dated line *)

(** C6 as stated fails on the pipeline: the line contains the junk term
    Date, the block parser skips it and no measurement comes out. *)
Lemma date_line_gives_no_measurement :
  is_junk date_line = true
  /\ parse_text_block no_fuzzy date_line = Ok []
  /\ pipeline no_fuzzy date_line = Ok [].
Proof. repeat split; vm_compute; reflexivity. Qed.

(** C6, amended.  On the window of the line the range extractor finds
    12.0-16.0, the value extractor reads the tokens 2023 and 13.5, passes over
    2023 as a year and returns 13.5; the block parser skips the line as junk,
    so the pipeline gives no measurement for it, whatever the fuzzy matcher
    is. *)
Theorem date_line_value_is_13_5
    (extractOne : text -> list text -> Z -> option (text * Z)) :
  extract_range (date_line ++ txt " ") =
    Ok (Some (of_Z 12, of_Z 16, txt "12.0-16.0"))
  /\ value_tokens (date_line ++ txt " ") (Some (txt "12.0-16.0")) =
       [txt "2023"; txt "13.5"]
  /\ py_float (txt "2023") = Some (of_Z 2023)
  /\ keeps (of_Z 2023) = false
  /\ extract_value (date_line ++ txt " ") (Some (txt "12.0-16.0")) =
       Some (Fin (27 # 2)%Q)
  /\ is_junk date_line = true
  /\ analyze_text extractOne date_line = Ok [].
Proof. repeat split; vm_compute; reflexivity. Qed.

(** ** Single-line documents *)

Section Characters.

(** A property of characters holds of all of them when it holds of the 256. *)
Lemma all_characters (P : ascii -> bool) :
  forallb P (map ascii_of_nat (seq 0 256)) = true -> forall c, P c = true.
Proof.
  intros H c. rewrite forallb_forall in H. apply H.
  rewrite <- (ascii_nat_embedding c). apply in_map, in_seq.
  pose proof (nat_ascii_bounded c). lia.
Qed.

Lemma digit_facts (c : ascii) :
  is_digit c = true ->
  is_alpha c = false /\ is_space c = false /\ sep_char c = false
  /\ unit_char c = false /\ lower_char c = c /\ decimal_char c = true
  /\ chr_eqb c "," = false /\ chr_eqb c "010" = false.
Proof.
  intros H.
  pose proof (all_characters
    (fun c => implb (is_digit c)
       (negb (is_alpha c) && negb (is_space c) && negb (sep_char c)
        && negb (unit_char c) && chr_eqb (lower_char c) c && decimal_char c
        && negb (chr_eqb c ",") && negb (chr_eqb c "010")))
    ltac:(vm_compute; reflexivity) c) as A.
  cbv beta in A. rewrite H in A. cbn [implb] in A.
  repeat match goal with
         | E : _ && _ = true |- _ => apply andb_true_iff in E; destruct E
         | E : negb _ = true |- _ => apply negb_true_iff in E
         | E : chr_eqb (lower_char _) _ = true |- _ => apply chr_eqb_eq in E
         end.
  repeat split; assumption.
Qed.

Lemma decimal_char_facts (c : ascii) :
  decimal_char c = true ->
  is_alpha c = false /\ is_space c = false /\ sep_char c = false
  /\ unit_char c = false /\ lower_char c = c
  /\ chr_eqb c "," = false /\ chr_eqb c "010" = false
  /\ chr_eqb c "(" = false /\ chr_eqb c "-" = false.
Proof.
  intros H.
  pose proof (all_characters
    (fun c => implb (decimal_char c)
       (negb (is_alpha c) && negb (is_space c) && negb (sep_char c)
        && negb (unit_char c) && chr_eqb (lower_char c) c
        && negb (chr_eqb c ",") && negb (chr_eqb c "010")
        && negb (chr_eqb c "(") && negb (chr_eqb c "-")))
    ltac:(vm_compute; reflexivity) c) as A.
  cbv beta in A. rewrite H in A. cbn [implb] in A.
  repeat match goal with
         | E : _ && _ = true |- _ => apply andb_true_iff in E; destruct E
         | E : negb _ = true |- _ => apply negb_true_iff in E
         | E : chr_eqb (lower_char _) _ = true |- _ => apply chr_eqb_eq in E
         end.
  repeat split; assumption.
Qed.

Lemma lower_char_alpha (c : ascii) : is_alpha (lower_char c) = is_alpha c.
Proof.
  pose proof (all_characters
    (fun c => Bool.eqb (is_alpha (lower_char c)) (is_alpha c))
    ltac:(vm_compute; reflexivity) c) as A.
  now apply Bool.eqb_prop in A.
Qed.

Lemma alpha_not_plain (x c : ascii) :
  is_alpha x = true -> is_alpha c = false ->
  chr_eqb x c = false /\ lit_i x c = false.
Proof.
  intros Hx Hc. split.
  - destruct (chr_eqb x c) eqn:E; [|reflexivity].
    apply chr_eqb_eq in E. congruence.
  - unfold lit_i. destruct (chr_eqb _ _) eqn:E; [|reflexivity].
    apply chr_eqb_eq in E.
    pose proof (lower_char_alpha x) as A. pose proof (lower_char_alpha c) as B.
    congruence.
Qed.

End Characters.

Section Decimals.

Lemma take_digits_spec s : forall ds r,
  take_digits s = (ds, r) ->
  s = ds ++ r /\ forallb is_digit ds = true
  /\ match r with c :: _ => is_digit c = false | [] => True end.
Proof.
  induction s as [|c t IH]; intros ds r H; simpl in H.
  - injection H as <- <-. now repeat split.
  - destruct (is_digit c) eqn:Hc.
    + destruct (take_digits t) as [ds' r'] eqn:E. injection H as <- <-.
      destruct (IH ds' r' eq_refl) as (-> & Hd & Hr).
      repeat split; [simpl; now rewrite Hc | exact Hr].
    + injection H as <- <-. now repeat split.
Qed.

(** The two shapes of a decimal literal. *)
Lemma is_decimal_inv v :
  is_decimal v = true ->
  exists ds, ds <> [] /\ forallb is_digit ds = true
    /\ (v = ds \/ exists fs, fs <> [] /\ forallb is_digit fs = true
                             /\ v = ds ++ "."%char :: fs).
Proof.
  unfold is_decimal. destruct (take_digits v) as [ds r] eqn:E.
  apply take_digits_spec in E as (-> & Hd & Hr).
  destruct ds as [|d ds]; [discriminate|].
  destruct r as [|c fp]; intros H.
  - exists (d :: ds). repeat split; [discriminate | exact Hd |].
    left. now rewrite app_nil_r.
  - apply andb_true_iff in H as [H Hf]. apply andb_true_iff in H as [Hc Hn].
    apply chr_eqb_eq in Hc. subst c.
    exists (d :: ds). repeat split; [discriminate | exact Hd |].
    right. exists fp. repeat split; [|exact Hf].
    destruct fp; [discriminate Hn | discriminate].
Qed.

Lemma py_float_is_decimal v f : py_float v = Some f -> is_decimal v = true.
Proof.
  unfold py_float, is_decimal.
  destruct (take_digits v) as [[|d ds] [|c fp]]; try discriminate.
  - reflexivity.
  - destruct (_ && _); [reflexivity | discriminate].
Qed.

Lemma digits_decimal_chars ds :
  forallb is_digit ds = true -> forallb decimal_char ds = true.
Proof.
  intros H. rewrite forallb_forall in *. intros c Hc.
  unfold decimal_char. now rewrite (H c Hc).
Qed.

Lemma decimal_chars v : is_decimal v = true -> forallb decimal_char v = true.
Proof.
  intros H. apply is_decimal_inv in H as (ds & _ & Hd & [-> | (fs & _ & Hf & ->)]).
  - now apply digits_decimal_chars.
  - rewrite forallb_app. simpl.
    now rewrite !digits_decimal_chars.
Qed.

Lemma decimal_head v :
  is_decimal v = true -> exists d v', v = d :: v' /\ is_digit d = true.
Proof.
  intros H. apply is_decimal_inv in H as (ds & Hn & Hd & Hv).
  destruct ds as [|d ds]; [contradiction|].
  simpl in Hd. apply andb_true_iff in Hd as [Hd _].
  destruct Hv as [-> | (fs & _ & _ & ->)].
  - now exists d, ds.
  - now exists d, (ds ++ "."%char :: fs).
Qed.

Lemma decimal_no_letters v : forallb decimal_char v = true -> no_letters v = true.
Proof.
  unfold no_letters. intros H. rewrite forallb_forall in *. intros c Hc.
  unfold plain. apply H in Hc. apply decimal_char_facts in Hc as (-> & _).
  reflexivity.
Qed.

Lemma no_letters_app a b : no_letters (a ++ b) = no_letters a && no_letters b.
Proof. apply forallb_app. Qed.

Lemma lower_no_letters s : no_letters s = true -> lower s = s.
Proof.
  unfold no_letters, lower. induction s as [|c t IH]; [reflexivity|].
  simpl. intros H. apply andb_true_iff in H as [Hc Ht].
  rewrite (IH Ht). f_equal. unfold lower_char, plain, is_alpha in *.
  destruct (is_upper c); [discriminate | reflexivity].
Qed.

End Decimals.

Section Substring.

Lemma chr_eqb_sym (a b : ascii) : chr_eqb a b = chr_eqb b a.
Proof. apply Ascii.eqb_sym. Qed.

(** A prefix test does not go past a character the pattern lacks. *)
Lemma startswith_app_notin p : forall A c T,
  existsb (chr_eqb c) p = false ->
  startswith p (A ++ c :: T) = startswith p A.
Proof.
  induction p as [|x p IH]; intros A c T H; [now destruct A|].
  simpl in H. apply orb_false_iff in H as [Hx Hp].
  destruct A as [|a A]; simpl.
  - now rewrite chr_eqb_sym, Hx.
  - now rewrite (IH A c T Hp).
Qed.

Lemma contains_app_notin p A c T :
  p <> [] -> existsb (chr_eqb c) p = false ->
  contains p (A ++ c :: T) = contains p A || contains p T.
Proof.
  intros Hne H. induction A as [|a A IH].
  - simpl app. cbn [contains].
    pose proof (startswith_app_notin p [] c T H) as E. simpl app in E.
    rewrite E. destruct p; [contradiction | reflexivity].
  - change ((a :: A) ++ c :: T) with (a :: (A ++ c :: T)). cbn [contains].
    rewrite IH. change (a :: A ++ c :: T) with ((a :: A) ++ c :: T).
    rewrite (startswith_app_notin p (a :: A) c T H).
    now rewrite orb_assoc.
Qed.

Lemma contains_no_letters p T :
  wordy p = true -> no_letters T = true -> contains p T = false.
Proof.
  unfold wordy. intros Hp. apply andb_true_iff in Hp as [_ Hp].
  destruct p as [|x p]; [discriminate|].
  induction T as [|c T IH]; intros HT; [reflexivity|].
  simpl in HT. apply andb_true_iff in HT as [Hc HT].
  cbn [contains startswith]. rewrite (IH HT).
  unfold plain in Hc. apply negb_true_iff in Hc.
  now rewrite (proj1 (alpha_not_plain x c Hp Hc)).
Qed.

Lemma wordy_lacks_digit p d :
  wordy p = true -> is_digit d = true -> existsb (chr_eqb d) p = false.
Proof.
  unfold wordy. intros Hp Hd. apply andb_true_iff in Hp as [Hp _].
  induction p as [|x p IH]; [reflexivity|].
  simpl in Hp. apply andb_true_iff in Hp as [Hx Hp]. simpl.
  rewrite (IH Hp), orb_false_r.
  destruct (chr_eqb d x) eqn:E; [|reflexivity].
  apply chr_eqb_eq in E. subst x. rewrite Hd in Hx. discriminate.
Qed.

Lemma wordy_nonempty p : wordy p = true -> p <> [].
Proof. destruct p; [|discriminate]. unfold wordy. simpl. discriminate. Qed.

(** A wordy term occurs in a head followed by a digit and a text without
    letters only if it occurs in the head. *)
Lemma contains_head p A d T :
  wordy p = true -> is_digit d = true -> no_letters T = true ->
  contains p (A ++ d :: T) = contains p A.
Proof.
  intros Hp Hd HT.
  rewrite contains_app_notin
    by (auto using wordy_nonempty, wordy_lacks_digit).
  now rewrite (contains_no_letters p T Hp HT), orb_false_r.
Qed.

Lemma existsb_contains_head (g : text -> text) terms A d T :
  forallb (fun x => wordy (g x)) terms = true ->
  is_digit d = true -> no_letters T = true ->
  existsb (fun x => contains (g x) (A ++ d :: T)) terms =
  existsb (fun x => contains (g x) A) terms.
Proof.
  intros Hw Hd HT. induction terms as [|x terms IH]; [reflexivity|].
  simpl in Hw. apply andb_true_iff in Hw as [Hx Hw]. simpl.
  now rewrite (contains_head (g x) A d T Hx Hd HT), (IH Hw).
Qed.

End Substring.

(** ** The match a pattern takes first *)

Section FirstMatch.

Lemma first_app {A : Type} (x : A) l1 l2 : first_is x l1 -> first_is x (l1 ++ l2).
Proof. intros (more & ->). now exists (more ++ l2). Qed.

Lemma first_map {A B : Type} (g : A -> B) x l :
  first_is x l -> first_is (g x) (map g l).
Proof. intros (more & ->). now exists (map g more). Qed.

Lemma first_flat_map {A B : Type} (g : A -> list B) x y l :
  first_is x l -> first_is y (g x) -> first_is y (flat_map g l).
Proof.
  intros (more & ->) (more' & E). simpl. rewrite E.
  now exists (more' ++ flat_map g more).
Qed.

Lemma first_seq r1 r2 st mid st' :
  first_is mid (run r1 st) -> first_is st' (run r2 mid) ->
  first_is st' (run (Seq r1 r2) st).
Proof. intros H1 H2. cbn [run]. now apply first_flat_map with (x := mid). Qed.

Lemma first_opt_take r st st' :
  first_is st' (run r st) -> first_is st' (run (Opt r) st).
Proof. intros H. cbn [run]. now apply first_app. Qed.

Lemma first_opt_skip r st : run r st = [] -> first_is st (run (Opt r) st).
Proof. intros H. cbn [run]. rewrite H. now exists []. Qed.

Lemma first_grp n r st st1 :
  first_is st1 (run r st) ->
  first_is (State (prev st1) (rest st1)
                  ((n, consumed (rest st) (rest st1)) :: caps st1))
           (run (Grp n r) st).
Proof.
  intros H. cbn [run].
  now apply (first_map
    (fun st' => State (prev st') (rest st')
                      ((n, consumed (rest st) (rest st')) :: caps st'))).
Qed.

Lemma first_chr p pv c t cs :
  p c = true ->
  first_is (State (Some c) t cs) (run (Chr p) (State pv (c :: t) cs)).
Proof. intros H. cbn [run rest caps]. rewrite H. now exists []. Qed.

Lemma run_chr_stops p st : stops p (rest st) = true -> run (Chr p) st = [].
Proof.
  intros H. cbn [run]. destruct (rest st) as [|c t]; [reflexivity|].
  simpl in H. apply negb_true_iff in H. now rewrite H.
Qed.

Lemma run_seq_nil r1 r2 st : run r1 st = [] -> run (Seq r1 r2) st = [].
Proof. intros H. cbn [run]. now rewrite H. Qed.

(** A repetition with no upper bound first takes the whole run. *)
Lemma rep_first p xs : forall lo pv T,
  forallb p xs = true -> stops p T = true -> lo <= length xs ->
  first_is (last_seen pv xs, T) (rep p lo None pv (xs ++ T)).
Proof.
  induction xs as [|x xs IH]; intros lo pv T Hx HT Hlo.
  - simpl in Hlo. assert (lo = 0) as -> by lia. simpl app.
    destruct T as [|c t]; [now exists []|].
    simpl in HT. apply negb_true_iff in HT. simpl. rewrite HT. now exists [].
  - simpl in Hx. apply andb_true_iff in Hx as [Hp Hx].
    simpl app. cbn [rep hi_pred]. rewrite Hp. apply first_app.
    apply (IH (Nat.pred lo) (Some x) T Hx HT). simpl in Hlo. lia.
Qed.

Lemma first_rep p xs lo pv T cs :
  forallb p xs = true -> stops p T = true -> lo <= length xs ->
  first_is (State (last_seen pv xs) T cs)
           (run (Rep p lo None) (State pv (xs ++ T) cs)).
Proof.
  intros Hx HT Hlo. cbn [run prev rest caps].
  exact (first_map (fun '(pv', s) => State pv' s cs) _ _
           (rep_first p xs lo pv T Hx HT Hlo)).
Qed.

(** A repetition that may be empty takes nothing where the class stops. *)
Lemma run_rep_stops p hi st :
  stops p (rest st) = true -> run (Rep p 0 hi) st = [st].
Proof.
  intros H. cbn [run]. destruct st as [pv s cs]. cbn [prev rest caps] in *.
  assert (rep p 0 hi pv s = [(pv, s)]) as ->; [|reflexivity].
  destruct s as [|c t].
  - now destruct hi as [[|h]|].
  - simpl in H. apply negb_true_iff in H.
    destruct hi as [[|h]|]; simpl; now rewrite ?H.
Qed.

Lemma stops_weaken (p q : ascii -> bool) s :
  (forall c, p c = true -> q c = true) -> stops q s = true -> stops p s = true.
Proof.
  intros Hpq. destruct s as [|c t]; [reflexivity|]. simpl.
  rewrite !negb_true_iff. intros Hq.
  destruct (p c) eqn:E; [|reflexivity]. apply Hpq in E. congruence.
Qed.

Lemma stops_digit s : stops decimal_char s = true -> stops is_digit s = true.
Proof.
  apply stops_weaken. intros c H. unfold decimal_char. now rewrite H.
Qed.

Lemma stops_dot s : stops decimal_char s = true -> stops (lit ".") s = true.
Proof.
  apply stops_weaken. intros c H. unfold decimal_char, lit in *.
  rewrite chr_eqb_sym, H. apply orb_true_r.
Qed.

(** [number] first takes a whole decimal literal. *)
Lemma number_first v T pv cs :
  is_decimal v = true -> stops decimal_char T = true ->
  first_is (State (last_seen pv v) T cs) (run number (State pv (v ++ T) cs)).
Proof.
  intros Hv HT. unfold number.
  apply is_decimal_inv in Hv as (ds & Hn & Hd & [-> | (fs & Hm & Hf & ->)]).
  - apply first_seq with (mid := State (last_seen pv ds) T cs).
    + apply first_rep; [exact Hd | now apply stops_digit |].
      destruct ds; [contradiction | simpl; lia].
    + apply first_opt_skip. apply run_seq_nil. apply run_chr_stops.
      now apply stops_dot.
  - rewrite <- app_assoc. simpl app.
    apply first_seq
      with (mid := State (last_seen pv ds) ("."%char :: fs ++ T) cs).
    + apply first_rep; [exact Hd | reflexivity |].
      destruct ds; [contradiction | simpl; lia].
    + apply first_opt_take.
      apply first_seq with (mid := State (Some "."%char) (fs ++ T) cs).
      * now apply first_chr.
      * rewrite last_seen_app. simpl last_seen at 1.
        change (last_seen (last_seen pv ds) ("."%char :: fs))
          with (last_seen (Some "."%char) fs).
        apply first_rep; [exact Hf | now apply stops_digit |].
        destruct fs; [contradiction | simpl; lia].
Qed.

Lemma match_at_first r pv s st' :
  first_is st' (run r (State pv s [])) ->
  match_at r pv s =
  Some (Match (consumed s (rest st')) (caps st') (prev st', rest st')).
Proof. intros (more & E). unfold match_at. now rewrite E. Qed.

End FirstMatch.

(** ** Pattern A on a line *)

Section DashPattern.

Lemma first_only {A : Type} (x : A) l : l = [x] -> first_is x l.
Proof. intros ->. now exists []. Qed.

Lemma number_group_first n v T pv cs :
  is_decimal v = true -> stops decimal_char T = true ->
  first_is (State (last_seen pv v) T ((n, v) :: cs))
           (run (Grp n number) (State pv (v ++ T) cs)).
Proof.
  intros Hv HT.
  pose proof (first_grp n number _ _ (number_first v T pv cs Hv HT)) as H.
  cbn [prev rest caps] in H. now rewrite consumed_app in H.
Qed.

Lemma decimal_stops_space v T :
  is_decimal v = true -> stops is_space (v ++ T) = true.
Proof.
  intros H. apply decimal_head in H as (d & v' & -> & Hd). simpl.
  apply digit_facts in Hd as (_ & -> & _). reflexivity.
Qed.

(** At the range text pattern A takes the two literals whole. *)
Lemma dash_first lo hi T pv :
  is_decimal lo = true -> is_decimal hi = true ->
  stops decimal_char T = true ->
  first_is (State (last_seen (Some "-"%char) hi) T [(2, hi); (1, lo)])
           (run dash_re (State pv (lo ++ "-"%char :: hi ++ T) [])).
Proof.
  intros Hlo Hhi HT. unfold dash_re.
  set (m1 := State (last_seen pv lo) ("-"%char :: hi ++ T) [(1, lo)]).
  set (m2 := State (Some "-"%char) (hi ++ T) [(1, lo)]).
  apply first_seq with (mid := m1).
  { now apply number_group_first. }
  apply first_seq with (mid := m1).
  { apply first_only. now apply run_rep_stops. }
  apply first_seq with (mid := m1).
  { apply first_opt_take. apply first_seq with (mid := m1);
      apply first_only; now apply run_rep_stops. }
  apply first_seq with (mid := m2).
  { now apply first_chr. }
  apply first_seq with (mid := m2).
  { apply first_only. apply run_rep_stops. now apply decimal_stops_space. }
  now apply number_group_first.
Qed.

Lemma number_group_run n st st' :
  In st' (run (Grp n number) st) ->
  exists xs, rest st = xs ++ rest st' /\ is_decimal xs = true.
Proof.
  intros H. apply run_group in H as (xs & st1 & H1 & E & Er & _ & _);
    [|exact number_groupless].
  exists xs. split; [exact E|].
  apply number_run in H1 as (ys & E' & Hy).
  rewrite Er, E in E'. apply app_inv_tail in E'. now subst ys.
Qed.

Lemma forallb_weaken {A : Type} (p q : A -> bool) l :
  (forall a, p a = true -> q a = true) ->
  forallb p l = true -> forallb q l = true.
Proof.
  intros Hpq H. rewrite forallb_forall in *. intros a Ha. auto.
Qed.

(** Whatever pattern A matches begins with soft characters up to a
    separator. *)
Lemma dash_shape st st' :
  In st' (run dash_re st) ->
  exists Y s tl, rest st = Y ++ s :: tl /\ forallb soft Y = true
                 /\ sep_char s = true.
Proof.
  unfold dash_re. intros H.
  apply run_seq in H as (m1 & H1 & H).
  apply number_group_run in H1 as (x1 & E1 & D1).
  apply run_seq in H as (m2 & H2 & H).
  apply run_rep in H2 as (w1 & E2 & W1 & _).
  apply run_seq in H as (m3 & H3 & H).
  assert (exists u, rest m2 = u ++ rest m3
                    /\ forallb soft u = true) as (u & E3 & U).
  { apply run_opt in H3 as [H3 | ->]; [|now exists []].
    apply run_seq in H3 as (m & Ha & Hb).
    apply run_rep in Ha as (u1 & Ea & Ua & _).
    apply run_rep in Hb as (u2 & Eb & Ub & _).
    exists (u1 ++ u2). split.
    - now rewrite Ea, Eb, app_assoc.
    - rewrite forallb_app. apply andb_true_iff. split.
      + revert Ua. apply forallb_weaken. intros a Ha. unfold soft.
        rewrite Ha. apply orb_true_r.
      + revert Ub. apply forallb_weaken. intros a Ha. unfold soft.
        rewrite Ha. now rewrite orb_true_r. }
  apply run_seq in H as (m4 & H4 & _).
  apply run_chr in H4 as (s & tl & E4 & S4 & _).
  exists (x1 ++ w1 ++ u), s, tl. split; [|split].
  - rewrite E1, E2, E3, E4, <- !app_assoc. reflexivity.
  - rewrite !forallb_app. apply andb_true_iff. split; [|apply andb_true_iff; split].
    + apply decimal_chars in D1. revert D1. apply forallb_weaken.
      intros a Ha. unfold soft. now rewrite Ha.
    + revert W1. apply forallb_weaken. intros a Ha. unfold soft.
      rewrite Ha. now rewrite orb_true_r.
    + exact U.
  - exact S4.
Qed.

Lemma forallb_In {A : Type} (p : A -> bool) l a :
  forallb p l = true -> In a l -> p a = true.
Proof. intros H. now apply forallb_forall. Qed.

(** No match of pattern A begins before a barrier that no separator
    precedes. *)
Lemma match_at_dash_barrier X c L pv :
  forallb (fun a => negb (sep_char a)) X = true -> barrier c = true ->
  match_at dash_re pv (X ++ c :: L) = None.
Proof.
  intros HX Hc. unfold match_at.
  destruct (run dash_re (State pv (X ++ c :: L) [])) as [|st' l] eqn:E;
    [reflexivity|]. exfalso.
  assert (In st' (run dash_re (State pv (X ++ c :: L) []))) as Hin
    by (rewrite E; now left).
  apply dash_shape in Hin as (Y & s & tl & Es & HY & Hs). cbn [rest] in Es.
  unfold barrier in Hc. apply negb_true_iff, orb_false_iff in Hc as [Hsoft Hsep].
  apply app_eq_app in Es as (l' & [[EX El] | [EY El]]).
  - destruct l' as [|a l'].
    + simpl in El. injection El as -> _. congruence.
    + simpl in El. injection El as <- _.
      assert (negb (sep_char s) = true) as F.
      { apply (forallb_In _ X s HX). rewrite EX. apply in_or_app. right. now left. }
      rewrite Hs in F. discriminate.
  - destruct l' as [|a l'].
    + simpl in El. injection El as -> _. congruence.
    + simpl in El. injection El as <- _.
      assert (soft c = true) as F.
      { apply (forallb_In _ Y c HY). rewrite EY. apply in_or_app. right. now left. }
      congruence.
Qed.

Lemma search_from_here r pv s m :
  match_at r pv s = Some m -> search_from r pv s = Some m.
Proof. intros H. destruct s; simpl; now rewrite H. Qed.

Lemma search_from_next r pv c s :
  match_at r pv (c :: s) = None ->
  search_from r pv (c :: s) = search_from r (Some c) s.
Proof. intros H. simpl. now rewrite H. Qed.

Lemma search_dash_skip X : forall pv c L,
  forallb (fun a => negb (sep_char a)) X = true -> barrier c = true ->
  search_from dash_re pv (X ++ c :: L) = search_from dash_re (Some c) L.
Proof.
  induction X as [|a X IH]; intros pv c L HX Hc.
  - simpl app. apply search_from_next.
    exact (match_at_dash_barrier [] c L pv HX Hc).
  - change ((a :: X) ++ c :: L) with (a :: (X ++ c :: L)).
    rewrite search_from_next
      by exact (match_at_dash_barrier (a :: X) c L pv HX Hc).
    simpl in HX. apply andb_true_iff in HX as [_ HX]. now apply IH.
Qed.

(** Pattern A on a text [X(lo-hi)T]: the range text is its first match. *)
Lemma search_dash_range X lo hi T :
  forallb (fun a => negb (sep_char a)) X = true ->
  is_decimal lo = true -> is_decimal hi = true ->
  stops decimal_char T = true ->
  search dash_re (X ++ "("%char :: lo ++ "-"%char :: hi ++ T) =
  Some (Match (lo ++ "-"%char :: hi) [(2, hi); (1, lo)]
              (last_seen (Some "-"%char) hi, T)).
Proof.
  intros HX Hlo Hhi HT. unfold search.
  rewrite search_dash_skip by (exact HX || reflexivity).
  apply search_from_here.
  rewrite (match_at_first dash_re _ _ _ (dash_first lo hi T _ Hlo Hhi HT)).
  cbn [rest caps prev]. f_equal. f_equal.
  replace (lo ++ "-"%char :: hi ++ T) with ((lo ++ "-"%char :: hi) ++ T)
    by (now rewrite <- app_assoc).
  apply consumed_app.
Qed.

End DashPattern.

(** ** Scanning a line: squeezing, stripping, replacing, finding numbers *)

Section Scanning.

Lemma scan_cons r pv c t :
  scan r 0 pv (c :: t) =
  match match_at r pv (c :: t) with
  | Some m =>
      match length (span m) with
      | S k => inr m :: scan r k (Some c) t
      | O => inl [c] :: scan r 0 (Some c) t
      end
  | None => inl [c] :: scan r 0 (Some c) t
  end.
Proof. reflexivity. Qed.

Lemma run_rep1_stops p hi st :
  stops p (rest st) = true -> run (Rep p 1 hi) st = [].
Proof.
  intros H. cbn [run]. destruct st as [pv s cs]. cbn [prev rest caps] in *.
  assert (rep p 1 hi pv s = []) as ->; [|reflexivity].
  destruct s as [|c t].
  - now destruct hi as [[|h]|].
  - simpl in H. apply negb_true_iff in H.
    destruct hi as [[|h]|]; simpl; now rewrite ?H.
Qed.

Lemma match_at_ws1_none pv s :
  stops is_space s = true -> match_at ws1 pv s = None.
Proof.
  intros H. unfold match_at, ws1. now rewrite run_rep1_stops.
Qed.

Lemma match_at_ws1_one pv c t :
  is_space c = true -> stops is_space t = true ->
  match_at ws1 pv (c :: t) = Some (Match [c] [] (Some c, t)).
Proof.
  intros Hc Ht.
  assert (first_is (State (Some c) t [])
            (run ws1 (State pv ([c] ++ t) []))) as F.
  { apply (first_rep is_space [c] 1 pv t []); [simpl; now rewrite Hc | exact Ht |].
    simpl. lia. }
  pose proof (match_at_first ws1 pv ([c] ++ t) _ F) as M.
  cbn [rest caps prev] in M. rewrite consumed_app in M. exact M.
Qed.

(** Squeezing leaves a single-spaced text as it is. *)
Lemma sub_ws1_single_spaced s : forall pv,
  single_spaced s = true ->
  flat_map (sub_piece (txt " ")) (scan ws1 0 pv s) = s.
Proof.
  induction s as [|c t IH]; intros pv H; [reflexivity|].
  simpl in H. apply andb_true_iff in H as [Hc Ht].
  rewrite scan_cons. destruct (is_space c) eqn:Hs.
  - apply andb_true_iff in Hc as [Hc Hn]. apply chr_eqb_eq in Hc. subst c.
    rewrite (match_at_ws1_one pv " " t Hs Hn). cbn [span length flat_map sub_piece].
    now rewrite (IH _ Ht).
  - rewrite match_at_ws1_none by (simpl; now rewrite Hs).
    cbn [flat_map sub_piece]. now rewrite (IH _ Ht).
Qed.

Lemma single_spaced_word w T :
  forallb (fun c => negb (is_space c)) w = true ->
  single_spaced (w ++ T) = single_spaced T.
Proof.
  induction w as [|c w IH]; intros H; [reflexivity|].
  simpl in H. apply andb_true_iff in H as [Hc Hw]. simpl.
  apply negb_true_iff in Hc. rewrite Hc. now apply IH.
Qed.

Lemma lstrip_stops s : stops is_space s = true -> lstrip s = s.
Proof.
  destruct s as [|c t]; [reflexivity|]. simpl. intros H.
  apply negb_true_iff in H. now rewrite H.
Qed.

Lemma strip_stops s :
  stops is_space s = true -> stops is_space (rev s) = true -> strip s = s.
Proof.
  intros H1 H2. unfold strip, rstrip.
  now rewrite (lstrip_stops s H1), (lstrip_stops _ H2), rev_involutive.
Qed.

Lemma strip_trailing_space s :
  stops is_space s = true -> stops is_space (rev s) = true ->
  strip (s ++ txt " ") = s.
Proof.
  intros H1 H2. destruct s as [|c t]; [reflexivity|].
  unfold strip, rstrip.
  assert (stops is_space ((c :: t) ++ txt " ") = true) as H3 by exact H1.
  rewrite (lstrip_stops _ H3), rev_app_distr.
  change (rev (txt " ") ++ rev (c :: t)) with (" "%char :: rev (c :: t)).
  cbn [lstrip]. change (is_space " ") with true. cbv iota.
  now rewrite (lstrip_stops _ H2), rev_involutive.
Qed.

Lemma split_on_absent sep s :
  forallb (fun c => negb (chr_eqb c sep)) s = true -> split_on sep s = [s].
Proof.
  induction s as [|c t IH]; intros H; [reflexivity|].
  simpl in H. apply andb_true_iff in H as [Hc Ht]. simpl.
  apply negb_true_iff in Hc. now rewrite Hc, (IH Ht).
Qed.

(** *** [str.replace] *)

Lemma startswith_length p : forall s,
  startswith p s = true -> length p <= length s.
Proof.
  induction p as [|x p IH]; intros [|y s] H; simpl in *; try lia;
    try discriminate.
  apply andb_true_iff in H as [_ H]. apply IH in H. lia.
Qed.

Lemma startswith_chars p : forall s x,
  startswith p s = true -> existsb (chr_eqb x) p = true ->
  existsb (chr_eqb x) s = true.
Proof.
  induction p as [|a p IH]; intros [|b s] x H Hx; simpl in *;
    try discriminate.
  apply andb_true_iff in H as [Hab H]. apply chr_eqb_eq in Hab. subst b.
  apply orb_true_iff in Hx as [Hx | Hx]; [now rewrite Hx|].
  rewrite (IH s x H Hx). apply orb_true_r.
Qed.

Lemma startswith_self p T : startswith p (p ++ T) = true.
Proof.
  induction p as [|x p IH]; [reflexivity|]. simpl.
  now rewrite (proj2 (chr_eqb_eq x x) eq_refl).
Qed.

Lemma replace_from_skip old new xs : forall T,
  replace_from old new (length xs) (xs ++ T) = replace_from old new 0 T.
Proof.
  induction xs as [|x xs IH]; intros T; [reflexivity|]. simpl. apply IH.
Qed.

(** Nothing is replaced in a text that lacks a character of [old]. *)
Lemma replace_absent old new x s :
  existsb (chr_eqb x) old = true ->
  existsb (chr_eqb x) s = false ->
  replace old new s = s.
Proof.
  intros Hx. unfold replace. induction s as [|c t IH]; intros Hs; [reflexivity|].
  cbn [replace_from].
  destruct (startswith old (c :: t)) eqn:E.
  - apply (startswith_chars old (c :: t) x E) in Hx. congruence.
  - simpl in Hs. apply orb_false_iff in Hs as [_ Hs]. now rewrite (IH Hs).
Qed.

(** An occurrence of [old] does not reach over a character [old] lacks. *)
Lemma replace_from_notin old new c rest : forall pre k,
  old <> [] -> existsb (chr_eqb c) old = false -> k <= length pre ->
  replace_from old new k (pre ++ c :: rest) =
  replace_from old new k pre ++ c :: replace_from old new 0 rest.
Proof.
  induction pre as [|a pre IH]; intros k Hne Hc Hk.
  - simpl in Hk. assert (k = 0) as -> by lia. simpl app. cbn [replace_from].
    pose proof (startswith_app_notin old [] c rest Hc) as E. simpl app in E.
    rewrite E. destruct old; [contradiction | reflexivity].
  - change ((a :: pre) ++ c :: rest) with (a :: (pre ++ c :: rest)).
    destruct k as [|k]; cbn [replace_from].
    + change (a :: pre ++ c :: rest) with ((a :: pre) ++ c :: rest).
      rewrite (startswith_app_notin old (a :: pre) c rest Hc).
      destruct (startswith old (a :: pre)) eqn:E.
      * apply startswith_length in E. simpl in E.
        rewrite IH by (auto; lia). now rewrite app_assoc.
      * rewrite IH by (auto; lia). reflexivity.
    + apply IH; auto. simpl in Hk. lia.
Qed.

Lemma replace_prefix old new T :
  old <> [] ->
  replace old new (old ++ T) = new ++ replace old new T.
Proof.
  intros Hne. unfold replace. destruct old as [|x old]; [contradiction|].
  change ((x :: old) ++ T) with (x :: (old ++ T)). cbn [replace_from].
  change (x :: old ++ T) with ((x :: old) ++ T).
  rewrite startswith_self.
  replace (length (x :: old) - 1) with (length old) by (simpl; lia).
  now rewrite replace_from_skip.
Qed.

(** *** [re.findall] of the numbers *)

Lemma match_at_num_stops pv s :
  stops is_digit s = true -> match_at num_re pv s = None.
Proof.
  intros H. unfold match_at.
  assert (run num_re (State pv s []) = []) as ->; [|reflexivity].
  unfold num_re, number.
  change (run (Grp 1 ?r) ?st) with (map
    (fun st' => State (prev st') (rest st')
                      ((1, consumed (rest st) (rest st')) :: caps st'))
    (run r st)).
  rewrite run_seq_nil; [reflexivity|]. now apply run_rep1_stops.
Qed.

Lemma match_at_num_decimal pv v T :
  is_decimal v = true -> stops decimal_char T = true ->
  match_at num_re pv (v ++ T) = Some (Match v [(1, v)] (last_seen pv v, T)).
Proof.
  intros Hv HT. unfold num_re.
  rewrite (match_at_first _ _ _ _ (number_group_first 1 v T pv [] Hv HT)).
  cbn [rest caps prev]. now rewrite consumed_app.
Qed.

(** The first number found after a head without digits. *)
Lemma findall_head A v T : forall pv,
  forallb (fun c => negb (is_digit c)) A = true ->
  is_decimal v = true -> stops decimal_char T = true ->
  exists more,
    flat_map group1_piece (scan num_re 0 pv (A ++ v ++ T)) = v :: more.
Proof.
  induction A as [|a A IH]; intros pv HA Hv HT.
  - simpl app. destruct (decimal_head v Hv) as (d & v' & E & Hd).
    pose proof (match_at_num_decimal pv v T Hv HT) as M.
    rewrite E in *. change ((d :: v') ++ T) with (d :: (v' ++ T)) in *.
    rewrite scan_cons, M. cbn [span length flat_map group1_piece groups group].
    simpl. eexists. reflexivity.
  - simpl in HA. apply andb_true_iff in HA as [Ha HA].
    change ((a :: A) ++ v ++ T) with (a :: (A ++ v ++ T)).
    rewrite scan_cons, match_at_num_stops by exact Ha.
    cbn [flat_map group1_piece]. simpl app. now apply IH.
Qed.

End Scanning.

(** ** The keyword of a single-line document *)

Section Keyword.

Lemma stops_plain_lit_i x s :
  is_alpha x = true -> stops is_alpha s = true -> stops (lit_i x) s = true.
Proof.
  intros Hx. destruct s as [|c t]; [reflexivity|]. simpl.
  rewrite !negb_true_iff. intros Hc.
  exact (proj2 (alpha_not_plain x c Hx Hc)).
Qed.

(** A safe token does not begin where no letter stands. *)
Lemma match_at_safe_plain tok pv s :
  wordy tok = true -> stops is_alpha s = true ->
  match_at (safe_re tok) pv s = None.
Proof.
  unfold wordy. intros Hw Hs. apply andb_true_iff in Hw as [_ Hw].
  destruct tok as [|x tok]; [discriminate|].
  unfold match_at.
  assert (run (safe_re (x :: tok)) (State pv s []) = []) as ->; [|reflexivity].
  unfold safe_re. cbn [word_i].
  assert (forall st, rest st = s ->
            run (Seq (Seq (Chr (lit_i x)) (word_i tok)) Bnd) st = []) as R.
  { intros st E. apply run_seq_nil, run_seq_nil, run_chr_stops.
    rewrite E. now apply stops_plain_lit_i. }
  change (run (Seq Bnd ?r) ?st) with (flat_map (run r) (run Bnd st)).
  assert (run Bnd (State pv s []) = [State pv s []]
          \/ run Bnd (State pv s []) = []) as [-> | ->].
  { cbn [run]. destruct (xorb _ _); auto. }
  - cbn [flat_map]. now rewrite R.
  - reflexivity.
Qed.

Lemma no_letters_stops s : no_letters s = true -> stops is_alpha s = true.
Proof.
  destruct s as [|c t]; [reflexivity|]. simpl. intros H.
  now apply andb_true_iff in H as [H _].
Qed.

Lemma search_safe_no_letters tok s : forall pv,
  wordy tok = true -> no_letters s = true ->
  search_from (safe_re tok) pv s = None.
Proof.
  induction s as [|c t IH]; intros pv Hw Hs.
  - simpl. now rewrite match_at_safe_plain.
  - rewrite search_from_next
      by (apply match_at_safe_plain; auto using no_letters_stops).
    simpl in Hs. apply andb_true_iff in Hs as [_ Hs]. now apply IH.
Qed.

Lemma found_here r pv s :
  found (match_at r pv s) = true -> found (search_from r pv s) = true.
Proof.
  destruct (match_at r pv s) as [m|] eqn:E; [|discriminate].
  intros _. now rewrite (search_from_here r pv s m E).
Qed.

Lemma lower_app a b : lower (a ++ b) = lower a ++ lower b.
Proof. apply map_app. Qed.

Lemma digit_no_letters d T :
  is_digit d = true -> no_letters T = true -> no_letters (d :: T) = true.
Proof.
  intros Hd HT. simpl. rewrite HT. unfold plain.
  apply digit_facts in Hd as (-> & _). reflexivity.
Qed.

(** The junk terms and the narrative markers are looked for in the head. *)
Lemma is_junk_head A d T :
  is_digit d = true -> no_letters T = true ->
  is_junk (A ++ d :: T) = is_junk A.
Proof.
  intros Hd HT. unfold is_junk.
  rewrite lower_app, (lower_no_letters (d :: T)) by now apply digit_no_letters.
  apply (existsb_contains_head lower); auto; vm_compute; reflexivity.
Qed.

Lemma has_marker_head A d T :
  is_digit d = true -> no_letters T = true ->
  has_marker (A ++ d :: T) = has_marker A.
Proof.
  intros Hd HT. unfold has_marker.
  rewrite lower_app, (lower_no_letters (d :: T)) by now apply digit_no_letters.
  apply (existsb_contains_head (fun m => m)); auto; vm_compute; reflexivity.
Qed.

Lemma search_from_next_found r pv c s :
  found (match_at r pv (c :: s)) = false ->
  search_from r pv (c :: s) = search_from r (Some c) s.
Proof.
  intros H. apply search_from_next.
  destruct (match_at r pv (c :: s)); [discriminate | reflexivity].
Qed.

Ltac step_search :=
  lazymatch goal with
  | |- context [search_from ?r ?pv (Ascii ?b0 ?b1 ?b2 ?b3 ?b4 ?b5 ?b6 ?b7 :: ?s)] =>
      let c := constr:(Ascii b0 b1 b2 b3 b4 b5 b6 b7) in
      let b := eval vm_compute in (found (match_at r pv (c :: s))) in
      lazymatch b with
      | false =>
          rewrite (search_from_next_found r pv c s) by (vm_compute; reflexivity)
      end
  end.

Ltac settle_token :=
  unfold search; cbn [txt list_ascii_of_string app];
  first
    [ apply found_here; vm_compute; reflexivity
    | repeat step_search;
      lazymatch goal with
      | |- found (search_from (safe_re ?tok) ?pv ?s) = false =>
          rewrite (search_safe_no_letters tok s pv
                     ltac:(vm_compute; reflexivity)
                     ltac:(apply digit_no_letters; assumption));
          reflexivity
      end ].

Ltac settle_tokens :=
  repeat match goal with
         | |- context [if found (search ?r ?s) then _ else _] =>
             let E := fresh "E" in
             first [ assert (found (search r s) = false) as E by settle_token
                   | assert (found (search r s) = true) as E by settle_token ];
             rewrite E; clear E; cbv iota
         end.

(** The exact pass on a line that begins with one of the exact aliases. *)
Lemma exact_match_line alias d T :
  In alias exact_aliases ->
  is_digit d = true -> no_letters T = true ->
  exact_match (alias ++ " "%char :: d :: T) = Some alias.
Proof.
  intros Ha Hd HT. unfold exact_aliases in Ha. cbn [map In] in Ha.
  unfold exact_match, safe_tokens. cbn [map find].
  repeat destruct Ha as [<- | Ha]; [settle_tokens; reflexivity .. | contradiction].
Qed.

End Keyword.

(** ** One measurement from a single-line document *)

Lemma exact_aliases_ok a : In a exact_aliases -> alias_ok a = true.
Proof.
  intros Ha. unfold exact_aliases in Ha. cbn [map In] in Ha.
  repeat destruct Ha as [<- | Ha];
    [vm_compute; reflexivity .. | contradiction].
Qed.

Section SingleLine.

Variable extractOne : text -> list text -> Z -> option (text * Z).
Variables alias v lo hi : text.

Hypothesis Halias : In alias exact_aliases.
Hypothesis Hv : is_decimal v = true.
Hypothesis Hlo : is_decimal lo = true.
Hypothesis Hhi : is_decimal hi = true.

Let line := single_line alias v lo hi.

Lemma exact_alias_ok : alias_ok alias = true.
Proof. exact (exact_aliases_ok alias Halias). Qed.

Lemma alias_chars (P : ascii -> bool) :
  (forall c, is_alpha c = true -> sep_char c = false -> P c = true) ->
  forallb P alias = true.
Proof.
  intros HP. pose proof exact_alias_ok as H. unfold alias_ok in H.
  repeat (apply andb_true_iff in H as [H _]).
  revert H. apply forallb_weaken. intros c Hc.
  apply andb_true_iff in Hc as [Ha Hs]. apply negb_true_iff in Hs. auto.
Qed.

Lemma decimal_chars_P (P : ascii -> bool) (x : text) :
  is_decimal x = true ->
  (forall c, decimal_char c = true -> P c = true) -> forallb P x = true.
Proof.
  intros Hx HP. apply decimal_chars in Hx. revert Hx. now apply forallb_weaken.
Qed.

(** A class of characters that holds the letters of the alias, the decimal
    characters and the punctuation of the line holds the whole line. *)
Lemma line_chars (P : ascii -> bool) :
  (forall c, is_alpha c = true -> sep_char c = false -> P c = true) ->
  (forall c, decimal_char c = true -> P c = true) ->
  P " "%char = true -> P "("%char = true -> P "-"%char = true ->
  P ")"%char = true ->
  forallb P line = true.
Proof.
  intros Ha Hd Hs Ho Hm Hc. unfold line, single_line.
  rewrite !forallb_app, (alias_chars P Ha).
  rewrite (decimal_chars_P P v), (decimal_chars_P P lo),
    (decimal_chars_P P hi) by auto.
  simpl. now rewrite Hs, Ho, Hm, Hc.
Qed.

(** The head of the line up to its range text, and the window of the line,
    which the loop builds with an empty next line. *)
Let head : text := alias ++ txt " " ++ v ++ txt " ".
Let window : text := line ++ txt " " ++ [].
Let range_text : text := lo ++ "-"%char :: hi.

Lemma line_shape : line = head ++ "("%char :: lo ++ "-"%char :: hi ++ txt ")".
Proof.
  unfold line, single_line, head. rewrite <- !app_assoc. reflexivity.
Qed.

Lemma window_shape : window = head ++ "("%char :: range_text ++ txt ") ".
Proof.
  unfold window, line, single_line, head, range_text.
  rewrite <- !app_assoc. reflexivity.
Qed.

Lemma window_line : window = line ++ txt " ".
Proof. unfold window. now rewrite app_nil_r. Qed.

Lemma alpha_facts (c : ascii) :
  is_alpha c = true ->
  is_space c = false /\ is_digit c = false /\ chr_eqb c "010" = false
  /\ chr_eqb c "," = false /\ chr_eqb c "-" = false.
Proof.
  intros H.
  pose proof (all_characters
    (fun c => implb (is_alpha c)
       (negb (is_space c) && negb (is_digit c) && negb (chr_eqb c "010")
        && negb (chr_eqb c ",") && negb (chr_eqb c "-")))
    ltac:(vm_compute; reflexivity) c) as A.
  cbv beta in A. rewrite H in A. cbn [implb] in A.
  repeat match goal with
         | E : _ && _ = true |- _ => apply andb_true_iff in E; destruct E
         | E : negb _ = true |- _ => apply negb_true_iff in E
         end.
  repeat split; assumption.
Qed.

(** The line has no line feed, no blank run and no blank at its ends. *)
Lemma line_split : split_on "010" line = [line].
Proof.
  apply split_on_absent. apply line_chars; try reflexivity.
  - intros c Hc _. apply alpha_facts in Hc as (_ & _ & -> & _). reflexivity.
  - intros c Hc. apply decimal_char_facts in Hc as (_ & _ & _ & _ & _ & _ & -> & _).
    reflexivity.
Qed.

Lemma alias_cons : exists a alias', alias = a :: alias' /\ is_alpha a = true
                                   /\ 1 <= length alias'.
Proof.
  pose proof exact_alias_ok as H. unfold alias_ok in H.
  apply andb_true_iff in H as [H _]. apply andb_true_iff in H as [H _].
  apply andb_true_iff in H as [H L]. apply Nat.leb_le in L.
  destruct alias as [|a alias']; [simpl in L; lia|].
  exists a, alias'. simpl in H, L. apply andb_true_iff in H as [H _].
  apply andb_true_iff in H as [H _]. repeat split; [exact H | lia].
Qed.

Lemma stops_rev_last (s : text) (c : ascii) :
  stops is_space (rev (s ++ [c])) = negb (is_space c).
Proof. now rewrite rev_app_distr. Qed.

Lemma line_stops : stops is_space line = true /\ stops is_space (rev line) = true.
Proof.
  split.
  - destruct alias_cons as (a & alias' & E & Ha & _).
    unfold line, single_line. rewrite E. simpl.
    apply alpha_facts in Ha as (-> & _). reflexivity.
  - unfold line, single_line. rewrite !app_assoc.
    change (txt ")") with [")"%char]. now rewrite stops_rev_last.
Qed.

Lemma line_strip : strip line = line.
Proof. destruct line_stops. now apply strip_stops. Qed.

Lemma line_long : (3 <? length (strip line)) = true.
Proof.
  rewrite line_strip. apply Nat.ltb_lt.
  destruct alias_cons as (a & alias' & E & _ & L).
  destruct (decimal_head v Hv) as (d & v' & Ev & _).
  unfold line, single_line. rewrite E, Ev, !length_app. simpl. lia.
Qed.

Lemma line_single_spaced : single_spaced (line ++ txt " ") = true.
Proof.
  unfold line, single_line. rewrite <- !app_assoc.
  rewrite single_spaced_word.
  2:{ apply alias_chars. intros c Hc _.
      apply alpha_facts in Hc as (-> & _). reflexivity. }
  change (txt " " ++ ?x) with (" "%char :: x). cbn [single_spaced].
  change (is_space " ") with true. cbv iota.
  rewrite (decimal_stops_space v _ Hv).
  rewrite single_spaced_word.
  2:{ apply (decimal_chars_P _ v Hv). intros c Hc.
      apply decimal_char_facts in Hc as (_ & -> & _). reflexivity. }
  change (txt " (" ++ ?x) with (" "%char :: "("%char :: x).
  cbn [single_spaced stops]. change (is_space " ") with true.
  change (is_space "(") with false. cbv iota.
  rewrite single_spaced_word.
  2:{ apply (decimal_chars_P _ lo Hlo). intros c Hc.
      apply decimal_char_facts in Hc as (_ & -> & _). reflexivity. }
  change (txt "-" ++ ?x) with ("-"%char :: x). cbn [single_spaced].
  change (is_space "-") with false. cbv iota.
  rewrite single_spaced_word.
  2:{ apply (decimal_chars_P _ hi Hhi). intros c Hc.
      apply decimal_char_facts in Hc as (_ & -> & _). reflexivity. }
  reflexivity.
Qed.

Lemma window_squeezed : squeeze window = line.
Proof.
  rewrite window_line. unfold squeeze.
  change (sub ws1 (txt " ") (line ++ txt " "))
    with (flat_map (sub_piece (txt " ")) (scan ws1 0 None (line ++ txt " "))).
  rewrite sub_ws1_single_spaced by exact line_single_spaced.
  destruct line_stops. now apply strip_trailing_space.
Qed.

(** The line is its alias, a space, a digit and a text without letters. *)
Lemma line_head :
  exists d T, is_digit d = true /\ no_letters T = true
              /\ line = (alias ++ txt " ") ++ d :: T.
Proof.
  destruct (decimal_head v Hv) as (d & v' & Ev & Hd).
  exists d, (v' ++ txt " (" ++ lo ++ txt "-" ++ hi ++ txt ")").
  split; [exact Hd|]. split.
  - pose proof (decimal_chars v Hv) as Cv. rewrite Ev in Cv. simpl in Cv.
    apply andb_true_iff in Cv as [_ Cv].
    rewrite !no_letters_app, (decimal_no_letters v' Cv),
      (decimal_no_letters lo (decimal_chars lo Hlo)),
      (decimal_no_letters hi (decimal_chars hi Hhi)).
    reflexivity.
  - unfold line, single_line. rewrite Ev, <- !app_assoc. reflexivity.
Qed.

Lemma line_not_junk : is_junk line = false.
Proof.
  destruct line_head as (d & T & Hd & HT & ->).
  rewrite is_junk_head by assumption.
  pose proof exact_alias_ok as H. unfold alias_ok in H.
  apply andb_true_iff in H as [H _]. apply andb_true_iff in H as [_ H].
  now apply negb_true_iff in H.
Qed.

Lemma line_no_marker : has_marker line = false.
Proof.
  destruct line_head as (d & T & Hd & HT & ->).
  rewrite has_marker_head by assumption.
  pose proof exact_alias_ok as H. unfold alias_ok in H.
  apply andb_true_iff in H as [_ H]. now apply negb_true_iff in H.
Qed.

Lemma line_identify : identify extractOne line = Some alias.
Proof.
  destruct line_head as (d & T & Hd & HT & ->).
  apply identify_exact. rewrite <- app_assoc.
  now apply exact_match_line.
Qed.

Variables (name : text) (value_f min_f max_f : float).

Hypothesis Hname : std_name_of alias = Some name.
Hypothesis Fv : py_float v = Some value_f.
Hypothesis Flo : py_float lo = Some min_f.
Hypothesis Fhi : py_float hi = Some max_f.
Hypothesis Hkeep : keeps value_f = true.
Hypothesis Hmax : gtb max_f (of_Z 50000) = false.
Hypothesis Hzip : found (search zip_re line) = false.

Lemma head_chars (P : ascii -> bool) :
  (forall c, is_alpha c = true -> sep_char c = false -> P c = true) ->
  (forall c, decimal_char c = true -> P c = true) ->
  P " "%char = true ->
  forallb P head = true.
Proof.
  intros Ha Hd Hs. unfold head.
  rewrite !forallb_app, (alias_chars P Ha), (decimal_chars_P P v) by auto.
  simpl. now rewrite Hs.
Qed.

Lemma window_nonempty : window <> [].
Proof.
  rewrite window_shape. intros E. symmetry in E.
  exact (app_cons_not_nil _ _ _ E).
Qed.

(** The range extractor on the window. *)
Lemma window_range :
  extract_range window = Ok (Some (min_f, max_f, range_text)).
Proof.
  rewrite extract_range_cascade by exact window_nonempty. cbv zeta.
  rewrite window_squeezed, Hzip, line_shape.
  rewrite search_dash_range; try assumption; try reflexivity.
  - unfold float_group. cbn [groups group Nat.eqb].
    rewrite Flo, Fhi. cbn [bind]. now rewrite Hmax.
  - apply head_chars; try reflexivity.
    + intros c _ Hc. now rewrite Hc.
    + intros c Hc. apply decimal_char_facts in Hc as (_ & _ & -> & _).
      reflexivity.
Qed.

Lemma existsb_absent (x : ascii) (s : text) :
  forallb (fun c => negb (chr_eqb x c)) s = true ->
  existsb (chr_eqb x) s = false.
Proof.
  induction s as [|c t IH]; [reflexivity|]. simpl. intros H.
  apply andb_true_iff in H as [Hc Ht]. apply negb_true_iff in Hc.
  now rewrite Hc, IH.
Qed.

Lemma range_text_chars (P : ascii -> bool) :
  (forall c, decimal_char c = true -> P c = true) -> P "-"%char = true ->
  forallb P range_text = true.
Proof.
  intros Hd Hm. unfold range_text.
  rewrite forallb_app, (decimal_chars_P P lo) by auto. simpl.
  now rewrite Hm, (decimal_chars_P P hi) by auto.
Qed.

Lemma range_text_nonempty : range_text <> [].
Proof. unfold range_text. apply not_eq_sym, app_cons_not_nil. Qed.

(** The window with the range text and the commas taken out. *)
Lemma window_cleaned :
  replace (txt ",") [] (replace range_text [] window) =
  (alias ++ txt " ") ++ v ++ txt " () ".
Proof.
  assert (existsb (chr_eqb "-") range_text = true) as Hdash.
  { unfold range_text. rewrite existsb_app. simpl. apply orb_true_r. }
  assert (existsb (chr_eqb "-") head = false) as Hhead.
  { apply existsb_absent, head_chars; try reflexivity.
    - intros c Hc _. apply alpha_facts in Hc as (_ & _ & _ & _ & Hc).
      now rewrite chr_eqb_sym, Hc.
    - intros c Hc.
      apply decimal_char_facts in Hc as (_ & _ & _ & _ & _ & _ & _ & _ & Hc).
      now rewrite chr_eqb_sym, Hc. }
  assert (replace range_text [] window = head ++ txt "() ") as ->.
  { rewrite window_shape. unfold replace at 1.
    rewrite replace_from_notin; [| exact range_text_nonempty | | lia].
    - fold (replace range_text [] head).
      fold (replace range_text [] (range_text ++ txt ") ")).
      rewrite (replace_absent range_text [] "-" head Hdash Hhead).
      rewrite replace_prefix by exact range_text_nonempty.
      rewrite (replace_absent range_text [] "-" (txt ") ") Hdash eq_refl).
      reflexivity.
    - apply existsb_absent, range_text_chars; [|reflexivity].
      intros c Hc.
      apply decimal_char_facts in Hc as (_ & _ & _ & _ & _ & _ & _ & Hc & _).
      now rewrite chr_eqb_sym, Hc. }
  rewrite (replace_absent (txt ",") [] "," (head ++ txt "() ") eq_refl).
  - unfold head. rewrite <- !app_assoc. reflexivity.
  - apply existsb_absent. rewrite forallb_app.
    rewrite head_chars; try reflexivity.
    + intros c Hc _. apply alpha_facts in Hc as (_ & _ & _ & Hc & _).
      now rewrite chr_eqb_sym, Hc.
    + intros c Hc.
      apply decimal_char_facts in Hc as (_ & _ & _ & _ & _ & Hc & _).
      now rewrite chr_eqb_sym, Hc.
Qed.

Lemma extract_value_tokens (text_source : text) (range_str : option text) :
  text_source <> [] ->
  extract_value text_source range_str =
  match valid_nums (value_tokens text_source range_str) with
  | [] => None
  | f :: _ => Some f
  end.
Proof. destruct text_source; [contradiction | reflexivity]. Qed.

(** The value extractor on the window. *)
Lemma window_value : extract_value window (Some range_text) = Some value_f.
Proof.
  rewrite extract_value_tokens by exact window_nonempty.
  assert (value_tokens window (Some range_text) =
          findall num_re (replace (txt ",") [] (replace range_text [] window)))
    as ->.
  { unfold value_tokens. pose proof range_text_nonempty.
    destruct range_text; [contradiction | reflexivity]. }
  rewrite window_cleaned.
  destruct (findall_head (alias ++ txt " ") v (txt " () ") None) as (more & E);
    try assumption; try reflexivity.
  - rewrite forallb_app. simpl. rewrite alias_chars; [reflexivity|].
    intros c Hc _. apply alpha_facts in Hc as (_ & -> & _). reflexivity.
  - change (findall num_re ?s)
      with (flat_map group1_piece (scan num_re 0 None s)).
    rewrite E. cbn [valid_nums]. now rewrite Fv, Hkeep.
Qed.

(** The whole pipeline on the line. *)
Lemma line_measurement :
  analyze_text extractOne line =
  Ok [Measure name value_f min_f max_f range_text None].
Proof.
  unfold analyze_text. cbv zeta.
  rewrite match_count_marker, line_no_marker. cbn [andb].
  unfold parse_text_block. rewrite line_split. cbn [filter].
  rewrite line_long. cbn [map]. rewrite line_strip.
  destruct alias_cons as (a & alias' & E & _).
  pose proof line_identify as Hid. rewrite E in Hid, Hname.
  rewrite (parse_lines_named extractOne line [] [] a alias' name
             line_not_junk Hid Hname).
  cbv zeta. fold window. rewrite window_range. cbn [bind].
  rewrite window_value. reflexivity.
Qed.

End SingleLine.

(** C1 as stated fails: a value in the year band or at 10000 and above is
    passed over by the value extractor, a range whose maximum exceeds 50000
    is rejected by the range extractor, and the lines of the aliases RBC Count
    and Total RBC are skipped; each of these documents gives no measurement. *)
Lemma single_line_without_measurement :
  analyze_text no_fuzzy (txt "TSH 2050 (0.5-5.0)") = Ok []
  /\ analyze_text no_fuzzy (txt "TLC 11000 (4000-11000)") = Ok []
  /\ analyze_text no_fuzzy (txt "TLC 7000 (4000-60000)") = Ok []
  /\ analyze_text no_fuzzy (txt "RBC Count 5.5 (0.5-5.0)") = Ok [].
Proof. repeat split; vm_compute; reflexivity. Qed.

(** C1, amended.  For a single-line document [<alias> <value> (<min>-<max>)]
    whose alias is one of the exact aliases (TSH, Hb, PCV, TLC, MCV, MCH, MCHC,
    RDW), whose three numbers are decimal literals, the value one the value
    extractor keeps (below 2000, or between 2100 and 10000), the maximum at
    most 50000, and on which the postal guard is silent, narrative filter and
    block parser give exactly one measurement: the standard name of the
    alias, the three numbers as floats, the range text [<min>-<max>].  This
    holds for every fuzzy matcher, which is not consulted. *)
Theorem single_line_yields_its_measurement
    (extractOne : text -> list text -> Z -> option (text * Z))
    (alias name v lo hi : text) (value_f min_f max_f : float) :
  In alias exact_aliases ->
  std_name_of alias = Some name ->
  py_float v = Some value_f ->
  py_float lo = Some min_f ->
  py_float hi = Some max_f ->
  keeps value_f = true ->
  gtb max_f (of_Z 50000) = false ->
  found (search zip_re (single_line alias v lo hi)) = false ->
  analyze_text extractOne (single_line alias v lo hi) =
  Ok [Measure name value_f min_f max_f (lo ++ txt "-" ++ hi) None].
Proof.
  intros Halias Hname Fv Flo Fhi Hkeep Hmax Hzip.
  apply line_measurement; try assumption.
  - exact (py_float_is_decimal v value_f Fv).
  - exact (py_float_is_decimal lo min_f Flo).
  - exact (py_float_is_decimal hi max_f Fhi).
Qed.

Lemma single_line_yields_its_measurement_witness :
  analyze_text no_fuzzy (txt "TSH 5.5 (0.5-5.0)") =
  Ok [Measure (txt "TSH") (Fin (11 # 2)%Q) (Fin (1 # 2)%Q) (of_Z 5)
              (txt "0.5-5.0") None].
Proof.
  refine (single_line_yields_its_measurement no_fuzzy
            (txt "TSH") (txt "TSH") (txt "5.5") (txt "0.5") (txt "5.0")
            (Fin (11 # 2)%Q) (Fin (1 # 2)%Q) (of_Z 5) _ _ _ _ _ _ _ _).
  - left. reflexivity.
  - vm_compute. reflexivity.
  - vm_compute. reflexivity.
  - vm_compute. reflexivity.
  - vm_compute. reflexivity.
  - vm_compute. reflexivity.
  - vm_compute. reflexivity.
  - vm_compute. reflexivity.
Defined.

(** The standard names of the exact aliases. *)
Example exact_alias_names :
  map std_name_of exact_aliases =
  map (fun n => Some (txt n))
      ["TSH"; "Hemoglobin"; "PCV"; "TLC"; "MCV"; "MCH"; "MCHC"; "RDW"]%string.
Proof. vm_compute. reflexivity. Qed.

(** * Further properties of the code *)

(** ** The classification loop: what is reported *)

Section Reported.

Lemma classify_from_names all_data : forall abnormals seen_tests,
  map test_name (classify_from all_data abnormals seen_tests) =
  map test_name abnormals
  ++ first_names seen_tests (map test_name (filter abnormal all_data)).
Proof.
  induction all_data as [|item more IH]; intros abnormals seen_tests.
  - simpl. now rewrite app_nil_r.
  - rewrite classify_from_step. cbn [filter].
    destruct (abnormal item) eqn:Hab; cbn [andb map first_names].
    + destruct (seen (test_name item) seen_tests) eqn:Hs; cbn [negb].
      * apply IH.
      * rewrite IH, map_app, <- app_assoc. reflexivity.
    + apply IH.
Qed.

Lemma first_names_unseen seen_tests names x :
  In x (first_names seen_tests names) -> seen x seen_tests = false.
Proof.
  revert seen_tests. induction names as [|n more IH]; intros seen_tests H;
    [contradiction|].
  simpl in H. destruct (seen n seen_tests) eqn:Hs; [now apply IH|].
  destruct H as [<- | H]; [exact Hs|].
  apply IH in H. rewrite seen_cons in H. now apply orb_false_iff in H as [_ H].
Qed.

Lemma first_names_NoDup names : forall seen_tests,
  NoDup (first_names seen_tests names).
Proof.
  induction names as [|n more IH]; intros seen_tests; [constructor|].
  simpl. destruct (seen n seen_tests); [apply IH|].
  constructor; [|apply IH].
  intros H. apply first_names_unseen in H. rewrite seen_cons in H.
  now rewrite text_eqb_refl in H.
Qed.

Lemma first_names_incl names : forall seen_tests x,
  In x (first_names seen_tests names) -> In x names.
Proof.
  induction names as [|n more IH]; intros seen_tests x H; [contradiction|].
  simpl in H. destruct (seen n seen_tests).
  - right. now apply IH in H.
  - destruct H as [<- | H]; [now left | right; now apply IH in H].
Qed.

Lemma classify_names_NoDup all_data : NoDup (map test_name (classify all_data)).
Proof.
  unfold classify. rewrite classify_from_names. apply first_names_NoDup.
Qed.

End Reported.

(** The names the loop reports are the names of the abnormal measurements,
    each once, in the order of their first abnormal occurrence. *)
Theorem classify_reports_abnormal_names_once (all_data : list Measurement) :
  map test_name (classify all_data) =
  first_names [] (map test_name (filter abnormal all_data))
  /\ NoDup (map test_name (classify all_data)).
Proof.
  split; [|apply classify_names_NoDup].
  unfold classify. now rewrite classify_from_names.
Qed.

(** Nothing is reported exactly when every measurement lies within its
    range, bounds included. *)
Theorem classify_empty_iff_all_normal (all_data : list Measurement) :
  classify all_data = [] <->
  forallb (fun item => negb (abnormal item)) all_data = true.
Proof.
  split.
  - intros H.
    assert (first_names [] (map test_name (filter abnormal all_data)) = []) as E.
    { unfold classify in H.
      pose proof (classify_from_names all_data [] []) as N.
      rewrite H in N. simpl in N. now symmetry. }
    clear H. induction all_data as [|item more IH]; [reflexivity|].
    simpl in *. destruct (abnormal item); [discriminate E | now apply IH].
  - intros H.
    assert (filter abnormal all_data = []) as E.
    { induction all_data as [|item more IH]; [reflexivity|]. simpl in *.
      apply andb_true_iff in H as [Hi Hm]. apply negb_true_iff in Hi.
      rewrite Hi. now apply IH. }
    pose proof (classify_from_names all_data [] []) as N.
    rewrite E in N. simpl in N. fold (classify all_data) in N.
    now apply map_eq_nil in N.
Qed.

(** ** The dictionary lookup *)

Section Lookup.

Lemma existsb_text_In kw l : existsb (text_eqb kw) l = true <-> In kw l.
Proof.
  rewrite existsb_exists. split.
  - intros (x & Hx & E). apply text_eqb_eq in E. now subst.
  - intros H. exists kw. split; [exact H | apply text_eqb_refl].
Qed.

Lemma std_name_of_some kw k :
  std_name_of kw = Some k ->
  exists v, In (k, v) TEST_MAPPING /\ In kw v.
Proof.
  unfold std_name_of.
  destruct (find _ TEST_MAPPING) as [[k' v]|] eqn:E; [|discriminate].
  intros H. injection H as <-. apply find_some in E as [Hin Hv].
  exists v. split; [exact Hin | now apply existsb_text_In].
Qed.

Lemma std_name_of_none kw : std_name_of kw = None <-> ~ In kw ALL_KEYWORDS.
Proof.
  unfold std_name_of, ALL_KEYWORDS. split.
  - destruct (find _ TEST_MAPPING) as [[k' v]|] eqn:E; [discriminate|].
    intros _ H. apply in_flat_map in H as ([k v] & Hin & Hv).
    pose proof (find_none _ _ E _ Hin) as F. simpl in *.
    apply existsb_text_In in Hv. congruence.
  - intros H. destruct (find _ TEST_MAPPING) as [[k' v]|] eqn:E; [|reflexivity].
    apply find_some in E as [Hin Hv]. exfalso. apply H.
    apply in_flat_map. exists (k', v). split; [exact Hin|].
    now apply existsb_text_In.
Qed.

(** Every alias of every entry is looked up to the key of that entry: no
    alias stands in two lists. *)
Lemma owners_unique :
  forallb (fun '(k, v) =>
             forallb (fun a => match std_name_of a with
                               | Some k' => text_eqb k' k
                               | None => false
                               end) v)
          TEST_MAPPING = true.
Proof. vm_compute. reflexivity. Qed.

Lemma std_name_of_canonical kw k :
  std_name_of kw = Some k -> In k canonical_names.
Proof.
  intros H. apply std_name_of_some in H as (v & Hin & _).
  unfold canonical_names. now apply (in_map fst) in Hin.
Qed.

End Lookup.

(** The lookup of the standard name fails exactly on the keywords that are
    in no alias list, and gives [k] exactly when [k] is the key of a list that
    holds the keyword: every configured alias has one owner and is looked up
    to it. *)
Theorem std_name_lookup (keyword : text) :
  (std_name_of keyword = None <-> ~ In keyword ALL_KEYWORDS)
  /\ (forall k, std_name_of keyword = Some k <->
                exists v, In (k, v) TEST_MAPPING /\ In keyword v).
Proof.
  split; [apply std_name_of_none|].
  intros k. split; [apply std_name_of_some|].
  intros (v & Hin & Hv).
  pose proof owners_unique as U. rewrite forallb_forall in U.
  specialize (U (k, v) Hin). cbv beta iota in U. rewrite forallb_forall in U.
  specialize (U keyword Hv).
  destruct (std_name_of keyword) as [k'|]; [|discriminate].
  apply text_eqb_eq in U. now subst.
Qed.

(** ** What the block parser emits *)

Section Emitted.

Local Open Scope Z_scope.

Lemma rne_nonneg (n d : Z) : 0 <= n -> 0 < d -> 0 <= rne n d.
Proof.
  intros Hn Hd. unfold rne.
  pose proof (Z.div_pos n d Hn Hd).
  destruct (_ <? _); [lia|]. destruct (_ <? _); [lia|].
  destruct (Z.even _); lia.
Qed.

Lemma round64_nonneg (a b : Z) :
  0 <= a -> 0 < b -> ltb (round64 a b) (of_Z 0) = false.
Proof.
  intros Ha Hb. unfold round64, round64_parts.
  destruct (Z.eqb_spec a 0); [reflexivity|].
  set (e := Z.max (ilog2 a b - 52) (-1074)).
  destruct (Z.leb_spec 0 e) as [He|He].
  - destruct (_ <=? _); [reflexivity|].
    unfold ltb, of_Z. apply Qlt_bool_false_iff. rewrite <- Zle_Qle.
    pose proof (rne_nonneg a (b * 2 ^ e) Ha).
    pose proof (Z.pow_pos_nonneg 2 e). nia.
  - unfold ltb, of_Z. apply Qlt_bool_false_iff. rewrite Qred_correct.
    unfold Qle. cbn [Qnum Qden inject_Z].
    pose proof (Z.pow_pos_nonneg 2 (- e) ltac:(lia) ltac:(lia)).
    pose proof (rne_nonneg (a * 2 ^ (- e)) b ltac:(nia) Hb). lia.
Qed.

Lemma digits_value_nonneg ds : forall acc,
  forallb is_digit ds = true -> 0 <= acc -> 0 <= digits_value acc ds.
Proof.
  induction ds as [|c t IH]; intros acc H Hacc; [exact Hacc|].
  simpl in H. apply andb_true_iff in H as [Hc Ht]. cbn [digits_value].
  apply IH; [exact Ht|].
  unfold is_digit, between in Hc. apply andb_true_iff in Hc as [Hc _].
  apply N.leb_le in Hc. lia.
Qed.

(** [float] of a decimal literal is not negative. *)
Lemma py_float_nonneg s f : py_float s = Some f -> ltb f (of_Z 0) = false.
Proof.
  unfold py_float. destruct (take_digits s) as [ip r] eqn:E.
  apply take_digits_spec in E as (_ & Hip & _).
  destruct ip as [|d ip]; [discriminate|].
  destruct r as [|c fp].
  - intros H. injection H as <-. apply round64_nonneg; [|lia].
    apply (digits_value_nonneg (d :: ip) 0 Hip). lia.
  - destruct (_ && _) eqn:C; [|discriminate].
    intros H. injection H as <-.
    apply andb_true_iff in C as [_ Hfp].
    apply round64_nonneg.
    + apply (digits_value_nonneg ((d :: ip) ++ fp) 0); [|lia].
      rewrite forallb_app. now rewrite Hip, Hfp.
    + apply Z.pow_pos_nonneg; lia.
Qed.

Lemma keeps_below_10000 f : keeps f = true -> ltb f (of_Z 10000) = true.
Proof.
  unfold keeps. intros H. apply orb_true_iff in H as [H | H].
  - destruct f as [q|]; [|discriminate]. unfold ltb, of_Z in *.
    apply Qlt_bool_iff in H. apply Qlt_bool_iff.
    unfold inject_Z in *. lra.
  - now apply andb_true_iff in H as [_ H].
Qed.

End Emitted.

Section EmittedValues.

(** The value extractor returns the float of one of its tokens, one the
    filter keeps. *)
Lemma extract_value_kept text_source range_str f :
  extract_value text_source range_str = Some f ->
  keeps f = true /\ ltb f (of_Z 0) = false.
Proof.
  destruct text_source as [|c t]; [discriminate|].
  rewrite extract_value_tokens by discriminate.
  pose proof (valid_nums_first _
    (findall_decimal
       (replace (txt ",") []
          match range_str with
          | Some (c0 :: r) => replace (c0 :: r) [] (c :: t)
          | _ => c :: t
          end))) as H.
  unfold value_tokens.
  destruct (valid_nums _) as [|g l]; [discriminate|].
  intros E. injection E as <-.
  destruct H as (before & n & after & _ & Hn & Hk & _).
  split; [exact Hk | exact (py_float_nonneg n g Hn)].
Qed.

End EmittedValues.

Section EmittedMeasurements.

Variable extractOne : text -> list text -> Z -> option (text * Z).

Lemma parse_lines_emitted lines : forall acc out,
  Forall emitted_ok acc ->
  parse_lines extractOne lines acc = Ok out ->
  Forall emitted_ok out /\ length out <= length acc + length lines.
Proof.
  induction lines as [|line more IH]; intros acc out Hacc.
  - simpl. intros H. injection H as <-. split; [exact Hacc | lia].
  - assert (Hskip : parse_lines extractOne more acc = Ok out ->
                    Forall emitted_ok out
                    /\ length out <= length acc + length (line :: more)).
    { intros H. apply IH in H as [H1 H2]; [|exact Hacc].
      split; [exact H1 | simpl; lia]. }
    destruct (is_junk line) eqn:Hj.
    { rewrite parse_lines_junk by exact Hj. exact Hskip. }
    destruct (identify extractOne line) as [[|c k]|] eqn:Hi.
    { rewrite parse_lines_unidentified by auto. exact Hskip. }
    2:{ rewrite parse_lines_unidentified by auto. exact Hskip. }
    destruct (std_name_of (c :: k)) as [std_name|] eqn:Hn.
    2:{ rewrite (parse_lines_unnamed extractOne _ _ _ _ Hj Hi Hn). exact Hskip. }
    rewrite (parse_lines_named extractOne _ more acc _ _ _ Hj Hi Hn). cbv zeta.
    destruct (extract_range_total
                (line ++ txt " " ++ match more with l :: _ => l | [] => [] end))
      as (r & ->).
    cbn [bind].
    destruct (extract_value _ _) as [v|] eqn:Hv; [|exact Hskip].
    destruct r as [[[min_r max_r] t]|]; [|exact Hskip].
    intros H. apply IH in H as [H1 H2].
    + split; [exact H1|]. rewrite length_app in H2. simpl in *. lia.
    + apply Forall_app. split; [exact Hacc|]. constructor; [|constructor].
      apply extract_value_kept in Hv as [Hk H0].
      unfold emitted_ok. cbn [test_name value status].
      split; [exact (std_name_of_canonical _ _ Hn)|].
      split; [exact Hk|]. split; [exact H0|].
      split; [exact (keeps_below_10000 _ Hk) | reflexivity].
Qed.

End EmittedMeasurements.

(** Whatever the text and the fuzzy matcher, the block parser returns a
    list, at most one measurement for each line it walks, and every
    measurement has a canonical test name, a value the year and ID filter
    keeps, between 0 and 10000, and no status. *)
Theorem parse_text_block_emits_kept_values
    (extractOne : text -> list text -> Z -> option (text * Z))
    (full_text : text) :
  exists results,
    parse_text_block extractOne full_text = Ok results
    /\ Forall emitted_ok results
    /\ length results <= length (parsed_lines full_text).
Proof.
  destruct (parse_lines_total extractOne (parsed_lines full_text) [])
    as (results & E).
  exists results. split; [exact E|].
  destruct (parse_lines_emitted extractOne _ [] results (Forall_nil _) E)
    as [H1 H2].
  split; [exact H1 | exact H2].
Qed.

(** ** The answer of the view *)

Section Answer.

Variable extractOne : text -> list text -> Z -> option (text * Z).

Lemma analyze_text_emitted raw_text :
  exists results,
    analyze_text extractOne raw_text = Ok results /\ Forall emitted_ok results.
Proof.
  unfold analyze_text. cbv zeta.
  destruct (_ && _).
  - exists []. split; [reflexivity | constructor].
  - unfold parse_text_block. cbv zeta.
    destruct (parse_lines_total extractOne
                (map strip (filter (fun l => 3 <? length (strip l))
                                   (split_on "010" raw_text))) [])
      as (results & E).
    exists results. split; [exact E|].
    exact (proj1 (parse_lines_emitted extractOne _ [] results (Forall_nil _) E)).
Qed.

Lemma analyze_file_emitted f :
  exists results,
    analyze_file extractOne f = Ok results /\ Forall emitted_ok results.
Proof.
  unfold analyze_file. destruct (read_file f) as [raw_text|e].
  - apply analyze_text_emitted.
  - exists []. split; [reflexivity | constructor].
Qed.

Lemma tagged_reported item :
  emitted_ok item -> abnormal item = true -> reported_ok (tagged item).
Proof.
  intros (Hn & _ & H0 & Hk & _) Hab. unfold reported_ok, tagged.
  cbn [with_status test_name value min max status].
  split; [exact Hn|]. split; [exact H0|]. split; [exact Hk|].
  unfold abnormal in Hab.
  destruct (ltb (value item) (min item)) eqn:Hl.
  - left. split; reflexivity.
  - right. split; [reflexivity|]. split; [reflexivity | exact Hab].
Qed.

Lemma classify_reported all_data :
  Forall emitted_ok all_data -> Forall reported_ok (classify all_data).
Proof.
  intros H. apply Forall_forall. intros out Hin.
  unfold classify in Hin.
  apply classify_from_sound in Hin as [[] | (item & Hi & Ha & ->)].
  rewrite Forall_forall in H. apply tagged_reported; [now apply H | exact Ha].
Qed.

Lemma classify_canonical_length all_data :
  Forall emitted_ok all_data ->
  length (classify all_data) <= length canonical_names.
Proof.
  intros H. rewrite <- (length_map test_name).
  apply NoDup_incl_length; [apply classify_names_NoDup|].
  intros n Hn. apply in_map_iff in Hn as (out & <- & Hout).
  apply classify_reported in H. rewrite Forall_forall in H.
  now destruct (H out Hout) as (Hc & _).
Qed.

End Answer.

(** Whatever file is posted and whatever the readers and the fuzzy matcher
    do, the view answers with a report and no exception leaves it; [count] is
    the number of results, no test name is reported twice, there are at most
    29 results, one for each canonical name, and every result has a canonical
    name, a value from 0 up to but not 10000, and the status Low with the
    value under [min] or High with the value over [max]. *)
Theorem analyze_route_report
    (extractOne : text -> list text -> Z -> option (text * Z))
    (f : FileStorage) :
  exists results,
    analyze_route extractOne (Some f) = Report (length results) results
    /\ NoDup (map test_name results)
    /\ Forall reported_ok results
    /\ length results <= 29.
Proof.
  unfold analyze_route.
  destruct (analyze_file_emitted extractOne f) as (all_data & -> & H).
  exists (classify all_data). split; [reflexivity|].
  split; [apply classify_names_NoDup|].
  split; [now apply classify_reported|].
  exact (classify_canonical_length all_data H).
Qed.

(** A measurement the parser emits with a lower bound of 999999, the bound
    the marker (Low) stands for, is always reported as Low, and one with the
    bounds -999999 of the marker (High) is always reported as High: the
    values the parser keeps lie between the two. *)
Theorem marker_ranges_always_flagged
    (extractOne : text -> list text -> Z -> option (text * Z))
    (full_text : text) (results : list Measurement) (m : Measurement) :
  parse_text_block extractOne full_text = Ok results ->
  In m results ->
  (min m = of_Z 999999 ->
   abnormal m = true /\ tagged m = with_status m (txt "Low"))
  /\ (min m = of_Z (-999999) -> max m = of_Z (-999999) ->
      abnormal m = true /\ tagged m = with_status m (txt "High")).
Proof.
  intros E Hin.
  pose proof (proj1 (parse_lines_emitted extractOne _ [] results
                       (Forall_nil _) E)) as H.
  rewrite Forall_forall in H. destruct (H m Hin) as (_ & _ & H0 & Hk & _).
  unfold abnormal, tagged.
  destruct (value m) as [q|]; [|discriminate Hk].
  unfold ltb, of_Z in H0, Hk.
  apply Qlt_bool_false_iff in H0. apply Qlt_bool_iff in Hk.
  split.
  - intros ->. unfold ltb, of_Z.
    assert (Qlt_bool q (inject_Z 999999) = true) as ->.
    { apply Qlt_bool_iff. unfold inject_Z in *. lra. }
    split; reflexivity.
  - intros -> ->. unfold gtb, ltb, of_Z.
    assert (Qlt_bool q (inject_Z (-999999)) = false) as ->.
    { apply Qlt_bool_false_iff. unfold inject_Z in *. lra. }
    assert (Qlt_bool (inject_Z (-999999)) q = true) as ->.
    { apply Qlt_bool_iff. unfold inject_Z in *. lra. }
    split; reflexivity.
Qed.

(** ** Text without a digit *)

Section DigitFree.

Lemma digitless_app a b : digitless (a ++ b) = digitless a && digitless b.
Proof. apply forallb_app. Qed.

Lemma digitless_stops s : digitless s = true -> stops is_digit s = true.
Proof. destruct s as [|c t]; [reflexivity|]. simpl. now intros H%andb_true_iff. Qed.

Lemma scan_digitless s : forall skip pv,
  digitless s = true ->
  flat_map group1_piece (scan num_re skip pv s) = [].
Proof.
  induction s as [|c t IH]; intros skip pv H; [reflexivity|].
  pose proof (digitless_stops _ H) as Hs.
  simpl in H. apply andb_true_iff in H as [_ Ht].
  destruct skip as [|k].
  - rewrite scan_cons, (match_at_num_stops pv _ Hs). simpl. now apply IH.
  - simpl. now apply IH.
Qed.

Lemma findall_digitless s : digitless s = true -> findall num_re s = [].
Proof. intros H. exact (scan_digitless s 0 None H). Qed.

Lemma replace_from_digitless old s : forall skip,
  digitless s = true -> digitless (replace_from old [] skip s) = true.
Proof.
  induction s as [|c t IH]; intros skip H; [reflexivity|].
  simpl in H. apply andb_true_iff in H as [Hc Ht].
  cbn [replace_from]. destruct skip as [|k]; [|now apply IH].
  destruct (startswith old (c :: t)).
  - simpl. now apply IH.
  - simpl. rewrite Hc. now apply IH.
Qed.

Lemma extract_value_digitless text_source range_str :
  digitless text_source = true -> extract_value text_source range_str = None.
Proof.
  intros H. destruct text_source as [|c t]; [reflexivity|].
  rewrite extract_value_tokens by discriminate. unfold value_tokens.
  rewrite findall_digitless; [reflexivity|].
  apply replace_from_digitless.
  destruct range_str as [[|x r]|]; try exact H.
  now apply replace_from_digitless.
Qed.

Lemma split_on_forall (P : ascii -> bool) sep s :
  forallb P s = true -> Forall (fun l => forallb P l = true) (split_on sep s).
Proof.
  induction s as [|c t IH]; intros H; [repeat constructor|].
  simpl in H. apply andb_true_iff in H as [Hc Ht]. specialize (IH Ht).
  simpl. destruct (chr_eqb c sep); [now constructor|].
  destruct (split_on sep t) as [|piece more]; [repeat constructor; simpl; now rewrite Hc|].
  inversion IH; subst. constructor; [simpl; now rewrite Hc | assumption].
Qed.

Lemma strip_forall (P : ascii -> bool) s :
  forallb P s = true -> forallb P (strip s) = true.
Proof.
  destruct (strip_substring s) as (a & b & E). intros H. rewrite E in H.
  rewrite !forallb_app in H.
  now apply andb_true_iff in H as [_ [H _]%andb_true_iff].
Qed.

Lemma parsed_lines_forall (P : ascii -> bool) s :
  forallb P s = true -> Forall (fun l => forallb P l = true) (parsed_lines s).
Proof.
  intros H. unfold parsed_lines. apply Forall_map.
  apply (split_on_forall P "010") in H.
  induction H as [|l more Hl _ IH]; [constructor|].
  simpl. destruct (3 <? length (strip l)); [|exact IH].
  constructor; [now apply strip_forall | exact IH].
Qed.

Variable extractOne : text -> list text -> Z -> option (text * Z).

Lemma parse_lines_digitless lines : forall results,
  Forall (fun l => digitless l = true) lines ->
  parse_lines extractOne lines results = Ok results.
Proof.
  induction lines as [|line more IH]; intros results H; [reflexivity|].
  inversion H as [|? ? Hl Hm]; subst.
  destruct (is_junk line) eqn:Hj.
  { rewrite parse_lines_junk by exact Hj. now apply IH. }
  destruct (identify extractOne line) as [[|c k]|] eqn:Hi.
  { rewrite parse_lines_unidentified by auto. now apply IH. }
  2:{ rewrite parse_lines_unidentified by auto. now apply IH. }
  destruct (std_name_of (c :: k)) as [std_name|] eqn:Hn.
  2:{ rewrite (parse_lines_unnamed extractOne _ _ _ _ Hj Hi Hn). now apply IH. }
  rewrite (parse_lines_named extractOne _ more results _ _ _ Hj Hi Hn). cbv zeta.
  destruct (extract_range_total
              (line ++ txt " " ++ match more with l :: _ => l | [] => [] end))
    as (r & ->).
  cbn [bind].
  rewrite extract_value_digitless; [now apply IH|].
  rewrite !digitless_app, Hl. simpl.
  destruct more as [|l more']; [reflexivity|].
  now inversion Hm.
Qed.

Lemma analyze_text_digitless raw_text :
  digitless raw_text = true -> analyze_text extractOne raw_text = Ok [].
Proof.
  intros H. unfold analyze_text. cbv zeta. destruct (_ && _); [reflexivity|].
  unfold parse_text_block. cbv zeta. apply parse_lines_digitless.
  exact (parsed_lines_forall _ raw_text H).
Qed.

End DigitFree.

(** A text without any digit gives no measurement, whatever the fuzzy
    matcher finds in it: the parser returns the empty list, and so does
    [analyze_file]'s filter and parser. *)
Theorem digit_free_text_gives_nothing
    (extractOne : text -> list text -> Z -> option (text * Z))
    (raw_text : text) :
  digitless raw_text = true ->
  parse_text_block extractOne raw_text = Ok []
  /\ analyze_text extractOne raw_text = Ok [].
Proof.
  intros H. split; [|now apply analyze_text_digitless].
  unfold parse_text_block. cbv zeta. apply parse_lines_digitless.
  exact (parsed_lines_forall _ raw_text H).
Qed.

(** ** The lines the parser walks *)

Section Lines.

Lemma split_on_nonempty sep s : split_on sep s <> [].
Proof.
  destruct s as [|c t]; [discriminate|]. simpl.
  destruct (chr_eqb c sep); [discriminate|].
  destruct (split_on sep t); discriminate.
Qed.

(** [(a + sep + b).split(sep) == a.split(sep) + b.split(sep)] *)
Lemma split_on_app sep a b :
  split_on sep (a ++ sep :: b) = split_on sep a ++ split_on sep b.
Proof.
  induction a as [|c a IH].
  - simpl. assert (chr_eqb sep sep = true) as -> by now apply chr_eqb_eq.
    reflexivity.
  - simpl. destruct (chr_eqb c sep); [now rewrite IH|].
    rewrite IH. pose proof (split_on_nonempty sep a) as N.
    destruct (split_on sep a) as [|piece more]; [contradiction | reflexivity].
Qed.

Lemma parsed_lines_app a b :
  parsed_lines (a ++ "010"%char :: b) = parsed_lines a ++ parsed_lines b.
Proof.
  unfold parsed_lines. now rewrite split_on_app, filter_app, map_app.
Qed.

Lemma parsed_lines_nil : parsed_lines [] = [].
Proof. reflexivity. Qed.

Lemma parsed_lines_join lines :
  parsed_lines (join ["010"%char] lines) = flat_map parsed_lines lines.
Proof.
  induction lines as [|l more IH]; [reflexivity|].
  destruct more as [|l' more'].
  - simpl. now rewrite app_nil_r.
  - change (join ["010"%char] (l :: l' :: more'))
      with (l ++ "010"%char :: join ["010"%char] (l' :: more')).
    rewrite parsed_lines_app, IH. reflexivity.
Qed.

Lemma parsed_lines_single l :
  forallb (fun c => negb (chr_eqb c "010")) l = true ->
  parsed_lines l = if 3 <? length (strip l) then [strip l] else [].
Proof.
  intros H. unfold parsed_lines. rewrite (split_on_absent _ _ H). simpl.
  now destruct (3 <? length (strip l)).
Qed.

Lemma parsed_lines_short w :
  forallb (fun l => length (strip l) <=? 3) (split_on "010" w) = true ->
  parsed_lines w = [].
Proof.
  unfold parsed_lines. induction (split_on "010" w) as [|l more IH];
    [reflexivity|].
  simpl. intros [Hl Hm]%andb_true_iff.
  apply Nat.leb_le in Hl.
  assert ((3 <? length (strip l)) = false) as -> by (apply Nat.ltb_ge; lia).
  now apply IH.
Qed.

Lemma flat_map_single_lines lines :
  forallb (forallb (fun c => negb (chr_eqb c "010"))) lines = true ->
  flat_map parsed_lines lines =
  map strip (filter (fun l => 3 <? length (strip l)) lines).
Proof.
  induction lines as [|l more IH]; [reflexivity|].
  simpl. intros [Hl Hm]%andb_true_iff.
  rewrite (parsed_lines_single l Hl), (IH Hm).
  now destruct (3 <? length (strip l)).
Qed.

End Lines.

(** The lines of a text with a line feed in it are the lines of the part
    before, then those of the part after; so a stretch of lines of at most
    three characters each (once stripped), blank lines among them, changes
    nothing: the parser gives the same result with and without it, and a test
    line takes as its next line the next line of more than three
    characters. *)
Theorem short_lines_are_invisible
    (extractOne : text -> list text -> Z -> option (text * Z))
    (a w b : text) :
  forallb (fun l => length (strip l) <=? 3) (split_on "010" w) = true ->
  parse_text_block extractOne (a ++ "010"%char :: w ++ "010"%char :: b) =
  parse_text_block extractOne (a ++ "010"%char :: b).
Proof.
  intros H.
  change (parse_text_block extractOne ?t)
    with (parse_lines extractOne (parsed_lines t) []).
  now rewrite !parsed_lines_app, (parsed_lines_short w H).
Qed.

(** For an upload that is not named as a PDF, the text is the fragments the
    OCR reader returns joined by line feeds, and the lines the parser walks
    are the lines of the fragments in order; when no fragment holds a line
    feed these are the fragments of more than three characters once stripped,
    stripped. *)
Theorem ocr_fragments_are_the_lines (f : FileStorage) (fragments : list text) :
  endswith (txt ".pdf") (lower (filename f)) = false ->
  ocr_list f = Ok fragments ->
  read_file f = Ok (join ["010"%char] fragments)
  /\ parsed_lines (join ["010"%char] fragments) =
     flat_map parsed_lines fragments
  /\ (forallb (forallb (fun c => negb (chr_eqb c "010"))) fragments = true ->
      parsed_lines (join ["010"%char] fragments) =
      map strip (filter (fun l => 3 <? length (strip l)) fragments)).
Proof.
  intros Hn Ho. split; [|split].
  - unfold read_file. now rewrite Hn, Ho.
  - apply parsed_lines_join.
  - intros H. rewrite parsed_lines_join. now apply flat_map_single_lines.
Qed.

(** ** The pages of a PDF *)

Section Pages.

Lemma add_rows_app raw tb : add_rows raw tb = raw ++ add_rows [] tb.
Proof.
  unfold add_rows. revert raw.
  induction tb as [|row more IH] using rev_ind; intros raw.
  - simpl. now rewrite app_nil_r.
  - rewrite !fold_left_app. cbn [fold_left]. rewrite (IH raw).
    now rewrite <- app_assoc.
Qed.

Lemma add_tables_app raw tables : add_tables raw tables = raw ++ add_tables [] tables.
Proof.
  unfold add_tables. revert raw.
  induction tables as [|tb more IH] using rev_ind; intros raw.
  - simpl. now rewrite app_nil_r.
  - rewrite !fold_left_app. cbn [fold_left]. rewrite (IH raw), add_rows_app.
    rewrite (add_rows_app (fold_left add_rows more [])).
    now rewrite <- app_assoc.
Qed.

Lemma read_pages_skipped page more raw :
  page_skipped page = true ->
  read_pages (page :: more) raw = read_pages more raw.
Proof.
  unfold page_skipped. cbn [read_pages].
  destruct (extract_text page) as [[|c t]|]; try reflexivity.
  destruct (contains _ _); [reflexivity|].
  cbn [orb]. now intros ->.
Qed.

Lemma read_pages_kept page more raw c t :
  page_skipped page = false ->
  extract_text page = Some (c :: t) ->
  read_pages (page :: more) raw =
  read_pages more
    (add_tables (raw ++ "010"%char :: c :: t) (extract_tables page)).
Proof.
  unfold page_skipped. cbn [read_pages]. intros H E. rewrite E in *.
  apply orb_false_iff in H as [-> H]. now rewrite H.
Qed.

Lemma page_kept_text page :
  page_skipped page = false -> exists c t, extract_text page = Some (c :: t).
Proof.
  unfold page_skipped. destruct (extract_text page) as [[|c t]|];
    try discriminate. now exists c, t.
Qed.

Lemma read_pages_raw pages : forall raw,
  read_pages pages raw = raw ++ read_pages pages [].
Proof.
  induction pages as [|page more IH]; intros raw.
  - simpl. now rewrite app_nil_r.
  - destruct (page_skipped page) eqn:Hs.
    + rewrite !read_pages_skipped by exact Hs. apply IH.
    + destruct (page_kept_text page Hs) as (c & t & E).
      rewrite !(read_pages_kept page more _ c t Hs E).
      rewrite IH, add_tables_app.
      rewrite (IH (add_tables _ _)), (add_tables_app ([] ++ _)).
      now rewrite <- !app_assoc.
Qed.

Lemma read_pages_app ps qs raw :
  read_pages (ps ++ qs) raw = read_pages ps raw ++ read_pages qs [].
Proof.
  revert raw. induction ps as [|page more IH]; intros raw.
  - simpl. apply read_pages_raw.
  - destruct (page_skipped page) eqn:Hs.
    + cbn [app]. rewrite !read_pages_skipped by exact Hs. apply IH.
    + destruct (page_kept_text page Hs) as (c & t & E). cbn [app].
      rewrite !(read_pages_kept page _ _ c t Hs E). apply IH.
Qed.

Lemma read_pages_filter pages : forall raw,
  read_pages pages raw =
  read_pages (filter (fun p => negb (page_skipped p)) pages) raw.
Proof.
  induction pages as [|page more IH]; intros raw; [reflexivity|].
  cbn [filter]. destruct (page_skipped page) eqn:Hs; cbn [negb].
  - rewrite read_pages_skipped by exact Hs. apply IH.
  - destruct (page_kept_text page Hs) as (c & t & E).
    rewrite !(read_pages_kept page _ _ c t Hs E). apply IH.
Qed.

(** The text of the pages is empty or begins a new line. *)
Lemma read_pages_head pages :
  read_pages pages [] = [] \/
  exists more, read_pages pages [] = "010"%char :: more.
Proof.
  induction pages as [|page more IH]; [now left|].
  destruct (page_skipped page) eqn:Hs.
  - rewrite read_pages_skipped by exact Hs. exact IH.
  - destruct (page_kept_text page Hs) as (c & t & E).
    rewrite (read_pages_kept page _ _ c t Hs E).
    rewrite read_pages_raw, add_tables_app. right. simpl. eauto.
Qed.

Lemma parsed_lines_pages ps qs :
  parsed_lines (read_pages (ps ++ qs) []) =
  parsed_lines (read_pages ps []) ++ parsed_lines (read_pages qs []).
Proof.
  rewrite read_pages_app.
  destruct (read_pages_head qs) as [-> | (more & ->)].
  - now rewrite !app_nil_r.
  - rewrite parsed_lines_app. f_equal.
Qed.

End Pages.

(** The pages of a PDF that have no text, hold the words no test results
    (in any case) or have no digit in their text leave no trace, their
    tables included; the text read is the text of the pages one after the
    other, and the lines the parser walks are the lines of the first pages and
    then those of the later ones: no line runs across two pages. *)
Theorem pdf_text_is_read_page_by_page (ps qs : list Page) :
  read_pages (ps ++ qs) [] =
    read_pages (filter (fun p => negb (page_skipped p)) (ps ++ qs)) []
  /\ read_pages (ps ++ qs) [] = read_pages ps [] ++ read_pages qs []
  /\ parsed_lines (read_pages (ps ++ qs) []) =
     parsed_lines (read_pages ps []) ++ parsed_lines (read_pages qs []).
Proof.
  split; [apply read_pages_filter|].
  split; [apply read_pages_app | apply parsed_lines_pages].
Qed.

(** ** Uploads with nothing to report *)

Section NothingToRead.

Lemma read_pages_all_skipped pages raw :
  forallb page_skipped pages = true -> read_pages pages raw = raw.
Proof.
  induction pages as [|page more IH]; [reflexivity|].
  simpl forallb. intros [Hp Hm]%andb_true_iff.
  rewrite read_pages_skipped by exact Hp. now apply IH.
Qed.

Lemma join_digitless fragments :
  forallb digitless fragments = true ->
  digitless (join ["010"%char] fragments) = true.
Proof.
  induction fragments as [|l more IH]; [reflexivity|].
  simpl forallb. intros [Hl Hm]%andb_true_iff.
  destruct more as [|l' more']; [exact Hl|].
  change (join ["010"%char] (l :: l' :: more'))
    with (l ++ "010"%char :: join ["010"%char] (l' :: more')).
  rewrite digitless_app, Hl. simpl. now apply IH.
Qed.

End NothingToRead.

(** The view answers with the empty report, count 0, when the reader of the
    upload raises, when every page of a PDF is passed over (no text, the words
    no test results, or no digit in the page text, whatever its tables hold)
    and when no fragment read from an image has a digit. *)
Theorem nothing_to_read_reports_nothing
    (extractOne : text -> list text -> Z -> option (text * Z))
    (f : FileStorage) :
  (exists e, read_file f = Raise e)
  \/ (exists pages,
        endswith (txt ".pdf") (lower (filename f)) = true
        /\ pdf_pages f = Ok pages
        /\ forallb page_skipped pages = true)
  \/ (exists fragments,
        endswith (txt ".pdf") (lower (filename f)) = false
        /\ ocr_list f = Ok fragments
        /\ forallb digitless fragments = true) ->
  analyze_route extractOne (Some f) = Report 0 [].
Proof.
  intros [(e & E) | [(pages & Hn & Hp & Hs) | (fragments & Hn & Ho & Hd)]];
    unfold analyze_route, analyze_file.
  - now rewrite E.
  - unfold read_file. rewrite Hn, Hp. cbn [bind].
    rewrite (read_pages_all_skipped pages [] Hs).
    now rewrite (analyze_text_digitless extractOne []).
  - unfold read_file. rewrite Hn, Ho. cbn [bind].
    now rewrite (analyze_text_digitless extractOne _ (join_digitless _ Hd)).
Qed.

(** ** Lines with a header word *)

Section HeaderWords.

Lemma startswith_app p T : startswith p (p ++ T) = true.
Proof.
  induction p as [|c p IH]; [reflexivity|]. simpl.
  assert (chr_eqb c c = true) as -> by now apply chr_eqb_eq.
  exact IH.
Qed.

Lemma contains_app p a b : contains p (a ++ p ++ b) = true.
Proof.
  induction a as [|c a IH].
  - simpl app. destruct (p ++ b) eqn:E; simpl; rewrite <- ?E;
      now rewrite startswith_app.
  - cbn [app contains]. rewrite IH. apply orb_true_r.
Qed.

Lemma is_junk_term term u a b :
  In term ignore_terms -> lower u = lower term ->
  is_junk (a ++ u ++ b) = true.
Proof.
  intros Hin Hu. unfold is_junk. apply existsb_exists. exists term.
  split; [exact Hin|].
  rewrite !lower_app, Hu. apply contains_app.
Qed.

End HeaderWords.

(** A line in which one of the nine header words (Test Name, Result, Unit,
    Reference, Page, Date, Time, Remark, Method) occurs anywhere, in any
    letter case and also inside a longer word, is passed over: the parser
    gives what it gives without the line. *)
Theorem line_with_header_word_is_dropped
    (extractOne : text -> list text -> Z -> option (text * Z))
    (term u a b : text) (more : list text) (results : list Measurement) :
  In term ignore_terms ->
  lower u = lower term ->
  parse_lines extractOne ((a ++ u ++ b) :: more) results =
  parse_lines extractOne more results.
Proof.
  intros Hin Hu. apply parse_lines_junk. now apply (is_junk_term term).
Qed.

(** ** The bounds of a range *)

Section Bounds.

Lemma float_group_nonneg n m f :
  float_group n m = Ok f -> ltb f (of_Z 0) = false.
Proof.
  unfold float_group. destruct (group n (groups m)) as [g|]; [|discriminate].
  destruct (py_float g) as [f'|] eqn:E; [|discriminate].
  intros H. injection H as <-. exact (py_float_nonneg g f' E).
Qed.

End Bounds.

(** What the range extractor returns, when it returns a range, has one of
    five shapes: two bounds read from the text, neither negative, the second
    at most 50000; the lower bound 0 and an upper bound that is not negative;
    a lower bound that is not negative and the upper bound 999999; the pair of
    999999 with the text (Low); the pair of -999999 with the text (High).  So
    no bound read from the text is negative: a minus sign before a number is
    not read. *)
Theorem extract_range_shapes (text0 : text) (lo hi : float) (r : text) :
  extract_range text0 = Ok (Some (lo, hi, r)) ->
  (ltb lo (of_Z 0) = false /\ ltb hi (of_Z 0) = false
   /\ gtb hi (of_Z 50000) = false)
  \/ (lo = of_Z 0 /\ ltb hi (of_Z 0) = false)
  \/ (ltb lo (of_Z 0) = false /\ hi = of_Z 999999)
  \/ (lo = of_Z 999999 /\ hi = of_Z 999999 /\ r = txt "(Low)")
  \/ (lo = of_Z (-999999) /\ hi = of_Z (-999999) /\ r = txt "(High)").
Proof.
  destruct text0 as [|c t]; [discriminate|].
  rewrite extract_range_cascade by discriminate. cbv zeta.
  destruct (found (search zip_re _)); [discriminate|].
  destruct (search dash_re _) as [m|].
  { destruct (float_group 1 m) as [f1|] eqn:F1; [|discriminate].
    destruct (float_group 2 m) as [f2|] eqn:F2; [|discriminate].
    cbn [bind]. destruct (gtb f2 (of_Z 50000)) eqn:G; [discriminate|].
    intros H. injection H as <- <- <-. left.
    split; [exact (float_group_nonneg _ _ _ F1)|].
    split; [exact (float_group_nonneg _ _ _ F2) | exact G]. }
  destruct (search less_re _) as [m|].
  { destruct (float_group 1 m) as [f1|] eqn:F1; [|discriminate].
    cbn [bind]. intros H. injection H as <- <- <-. right. left.
    split; [reflexivity | exact (float_group_nonneg _ _ _ F1)]. }
  destruct (search more_re _) as [m|].
  { destruct (float_group 1 m) as [f1|] eqn:F1; [|discriminate].
    cbn [bind]. intros H. injection H as <- <- <-. right. right. left.
    split; [exact (float_group_nonneg _ _ _ F1) | reflexivity]. }
  destruct (found (search low_re _)).
  { intros H. injection H as <- <- <-. right. right. right. left.
    split; [|split]; reflexivity. }
  destruct (found (search high_re _)); [|discriminate].
  intros H. injection H as <- <- <-. right. right. right. right.
  split; [|split]; reflexivity.
Qed.

(** ** The further properties at sample inputs *)

Lemma marker_ranges_always_flagged_witness :
  abnormal hb_marked_low = true
  /\ tagged hb_marked_low = with_status hb_marked_low (txt "Low").
Proof.
  refine (proj1 (marker_ranges_always_flagged no_fuzzy (txt "Hb 13.5 (Low)")
                   [hb_marked_low] hb_marked_low _ _) _).
  - vm_compute. reflexivity.
  - left. reflexivity.
  - reflexivity.
Defined.

Lemma digit_free_text_gives_nothing_witness :
  parse_text_block no_fuzzy (txt "Hb low (Low)") = Ok []
  /\ analyze_text no_fuzzy (txt "Hb low (Low)") = Ok [].
Proof.
  apply (digit_free_text_gives_nothing no_fuzzy (txt "Hb low (Low)")).
  vm_compute. reflexivity.
Defined.

Lemma short_lines_are_invisible_witness :
  parse_text_block no_fuzzy
    (txt "Hb 9" ++ "010"%char :: (" "%char :: "010"%char :: txt "--")
       ++ "010"%char :: txt "(12-16)") =
  parse_text_block no_fuzzy (txt "Hb 9" ++ "010"%char :: txt "(12-16)").
Proof.
  apply (short_lines_are_invisible no_fuzzy (txt "Hb 9")
           (" "%char :: "010"%char :: txt "--") (txt "(12-16)")).
  vm_compute. reflexivity.
Defined.

Lemma ocr_fragments_are_the_lines_witness :
  read_file scanned_image = Ok (join ["010"%char] scan_fragments)
  /\ parsed_lines (join ["010"%char] scan_fragments) =
     map strip (filter (fun l => 3 <? length (strip l)) scan_fragments).
Proof.
  destruct (ocr_fragments_are_the_lines scanned_image scan_fragments)
    as (H1 & _ & H3).
  - vm_compute. reflexivity.
  - reflexivity.
  - split; [exact H1|]. apply H3. vm_compute. reflexivity.
Defined.

Lemma nothing_to_read_reports_nothing_witness :
  analyze_route no_fuzzy (Some pdf_digits_in_table_only) = Report 0 [].
Proof.
  apply (nothing_to_read_reports_nothing no_fuzzy pdf_digits_in_table_only).
  right. left.
  exists [ {| extract_text := Some (txt "Hemoglobin");
              extract_tables := [[[Some (txt "Hb"); Some (txt "9");
                                   None; Some (txt "12-16")]]] |} ].
  split; [vm_compute; reflexivity|].
  split; [reflexivity | vm_compute; reflexivity].
Defined.

Lemma line_with_header_word_is_dropped_witness :
  parse_lines no_fuzzy [txt "Hb 9 (12-16) some" ++ txt "time" ++ txt "s"] [] =
  parse_lines no_fuzzy [] [].
Proof.
  apply (line_with_header_word_is_dropped no_fuzzy (txt "Time") (txt "time")
           (txt "Hb 9 (12-16) some") (txt "s") [] []).
  - vm_compute. tauto.
  - vm_compute. reflexivity.
Defined.

Lemma extract_range_shapes_witness :
  (ltb (of_Z 12) (of_Z 0) = false /\ ltb (of_Z 16) (of_Z 0) = false
   /\ gtb (of_Z 16) (of_Z 50000) = false)
  \/ (of_Z 12 = of_Z 0 /\ ltb (of_Z 16) (of_Z 0) = false)
  \/ (ltb (of_Z 12) (of_Z 0) = false /\ of_Z 16 = of_Z 999999)
  \/ (of_Z 12 = of_Z 999999 /\ of_Z 16 = of_Z 999999
      /\ txt "12-16" = txt "(Low)")
  \/ (of_Z 12 = of_Z (-999999) /\ of_Z 16 = of_Z (-999999)
      /\ txt "12-16" = txt "(High)").
Proof.
  apply (extract_range_shapes (txt "Hb 9 (12-16)") (of_Z 12) (of_Z 16)
           (txt "12-16")).
  vm_compute. reflexivity.
Defined.

(** ** The substitutions of runs *)

Section Runs.

Variable p : ascii -> bool.
Variable repl : text.

Lemma run_split (s : text) :
  exists sp T, s = sp ++ T /\ forallb p sp = true /\ stops p T = true.
Proof.
  induction s as [|c t (sp & T & E & Hs & HT)].
  - now exists [], [].
  - destruct (p c) eqn:Hc.
    + exists (c :: sp), T. rewrite E. simpl. now rewrite Hc.
    + exists [], (c :: t). simpl. now rewrite Hc.
Qed.

Lemma scan_skip r sp : forall pv T,
  scan r (length sp) pv (sp ++ T) = scan r 0 (last_seen pv sp) T.
Proof.
  induction sp as [|x sp IH]; intros pv T; [reflexivity|].
  simpl. apply IH.
Qed.

Lemma collapse_run sp : forall T,
  forallb p sp = true ->
  collapse p repl true (sp ++ T) = collapse p repl true T.
Proof.
  induction sp as [|x sp IH]; intros T H; [reflexivity|].
  simpl in H. apply andb_true_iff in H as [Hx Hs].
  simpl. rewrite Hx. now apply IH.
Qed.

Lemma collapse_stops T :
  stops p T = true -> collapse p repl true T = collapse p repl false T.
Proof.
  destruct T as [|c t]; [reflexivity|]. simpl. intros H.
  apply negb_true_iff in H. now rewrite H.
Qed.

Lemma match_at_rep1_run pv c sp T :
  p c = true -> forallb p sp = true -> stops p T = true ->
  match_at (Rep p 1 None) pv (c :: sp ++ T) =
  Some (Match (c :: sp) [] (last_seen pv (c :: sp), T)).
Proof.
  intros Hc Hs HT.
  assert (first_is (State (last_seen pv (c :: sp)) T [])
            (run (Rep p 1 None) (State pv ((c :: sp) ++ T) []))) as F.
  { apply (first_rep p (c :: sp) 1 pv T []); [simpl; now rewrite Hc | exact HT |].
    simpl. lia. }
  pose proof (match_at_first _ pv ((c :: sp) ++ T) _ F) as M.
  cbn [rest caps prev] in M. rewrite consumed_app in M. exact M.
Qed.

Lemma match_at_rep1_none pv s :
  stops p s = true -> match_at (Rep p 1 None) pv s = None.
Proof. intros H. unfold match_at. now rewrite run_rep1_stops. Qed.

Lemma scan_collapse n : forall s pv,
  length s <= n ->
  flat_map (sub_piece repl) (scan (Rep p 1 None) 0 pv s) =
  collapse p repl false s.
Proof.
  induction n as [|n IH]; intros s pv Hn.
  - destruct s; [reflexivity | simpl in Hn; lia].
  - destruct s as [|c t]; [reflexivity|].
    rewrite scan_cons. destruct (p c) eqn:Hc.
    + destruct (run_split t) as (sp & T & E & Hs & HT). subst t.
      rewrite (match_at_rep1_run pv c sp T Hc Hs HT).
      cbn [span length flat_map sub_piece]. rewrite scan_skip.
      rewrite IH.
      * cbn [collapse]. rewrite Hc.
        now rewrite (collapse_run sp T Hs), (collapse_stops T HT).
      * simpl in Hn. rewrite length_app in Hn. lia.
    + rewrite match_at_rep1_none by (simpl; now rewrite Hc).
      cbn [flat_map sub_piece collapse]. rewrite Hc. simpl.
      f_equal. apply IH. simpl in Hn. lia.
Qed.

Lemma sub_collapse s : sub (Rep p 1 None) repl s = collapse p repl false s.
Proof. exact (scan_collapse (length s) s None (le_n _)). Qed.

End Runs.

Section Normalised.

Variable p : ascii -> bool.
Hypothesis p_space : forall c, is_space c = true -> p c = true.

Lemma collapse_single_spaced s :
  single_spaced (collapse p (txt " ") false s) = true
  /\ single_spaced (collapse p (txt " ") true s) = true
  /\ stops is_space (collapse p (txt " ") true s) = true.
Proof.
  induction s as [|c t (A & B & C)]; [now split|].
  cbn [collapse]. destruct (p c) eqn:Hc.
  - split; [|now split].
    change (txt " " ++ collapse p (txt " ") true t)
      with (" "%char :: collapse p (txt " ") true t).
    cbn [single_spaced]. change (is_space " ") with true. cbv iota.
    rewrite B, C. reflexivity.
  - assert (is_space c = false) as Hs.
    { destruct (is_space c) eqn:E; [|reflexivity].
      apply p_space in E. congruence. }
    cbn [single_spaced stops]. rewrite Hs, A. now split.
Qed.


End Normalised.

Section Stripping.

Lemma single_spaced_tail c t : single_spaced (c :: t) = true -> single_spaced t = true.
Proof. simpl. now intros [_ H]%andb_true_iff. Qed.

Lemma single_spaced_lstrip s :
  single_spaced s = true -> single_spaced (lstrip s) = true.
Proof.
  induction s as [|c t IH]; [reflexivity|]. intros H.
  cbn [lstrip]. destruct (is_space c); [|exact H].
  apply IH. exact (single_spaced_tail c t H).
Qed.

Lemma stops_prefix (q : ascii -> bool) a b :
  stops q (a ++ b) = true -> stops q a = true.
Proof. destruct a; [reflexivity | exact (fun H => H)]. Qed.

Lemma single_spaced_prefix a : forall b,
  single_spaced (a ++ b) = true -> single_spaced a = true.
Proof.
  induction a as [|c a IH]; intros b H; [reflexivity|].
  cbn [app single_spaced] in *. apply andb_true_iff in H as [Hc Ht].
  rewrite (IH b Ht), andb_true_r.
  destruct (is_space c); [|reflexivity].
  apply andb_true_iff in Hc as [-> Hs]. now rewrite (stops_prefix _ a b Hs).
Qed.

Lemma rstrip_prefix s : exists b, s = rstrip s ++ b.
Proof.
  unfold rstrip. destruct (lstrip_suffix (rev s)) as (a & E).
  exists (rev a). rewrite <- rev_app_distr, <- E. now rewrite rev_involutive.
Qed.

Lemma single_spaced_strip s :
  single_spaced s = true -> single_spaced (strip s) = true.
Proof.
  intros H. unfold strip. apply single_spaced_lstrip in H.
  destruct (rstrip_prefix (lstrip s)) as (b & E). rewrite E in H.
  exact (single_spaced_prefix _ _ H).
Qed.

Lemma stops_lstrip s : stops is_space (lstrip s) = true.
Proof.
  induction s as [|c t IH]; [reflexivity|]. cbn [lstrip].
  destruct (is_space c) eqn:E; [exact IH|]. simpl. now rewrite E.
Qed.

Lemma lstrip_keeps_last x c :
  is_space c = false -> exists y, lstrip (x ++ [c]) = y ++ [c].
Proof.
  intros Hc. induction x as [|d x (y & IH)].
  - exists []. simpl. now rewrite Hc.
  - cbn [app lstrip]. destruct (is_space d); [now exists y|].
    now exists (d :: x).
Qed.

Lemma stops_rstrip s : stops is_space s = true -> stops is_space (rstrip s) = true.
Proof.
  destruct s as [|c t]; [reflexivity|]. simpl. intros H.
  apply negb_true_iff in H. unfold rstrip. cbn [rev].
  destruct (lstrip_keeps_last (rev t) c H) as (y & ->).
  rewrite rev_app_distr. simpl. now rewrite H.
Qed.

Lemma strip_idempotent s : strip (strip s) = strip s.
Proof.
  apply strip_stops.
  - unfold strip. apply stops_rstrip. apply stops_lstrip.
  - unfold strip, rstrip. rewrite rev_involutive. apply stops_lstrip.
Qed.

Lemma squeeze_collapse s :
  squeeze s = strip (collapse is_space (txt " ") false s).
Proof. exact (f_equal strip (sub_collapse is_space (txt " ") s)). Qed.

Lemma squeeze_idempotent s : squeeze (squeeze s) = squeeze s.
Proof.
  unfold squeeze at 1. unfold sub.
  rewrite sub_ws1_single_spaced; [apply strip_idempotent|].
  rewrite squeeze_collapse. apply single_spaced_strip.
  now apply (collapse_single_spaced is_space).
Qed.


End Stripping.


(** The range extractor sees its text through the squeezing only, and
    squeezing a squeezed text changes nothing: the extractor gives the same
    answer on a text and on the text with its runs of blanks replaced by
    single spaces and its ends stripped. *)
Theorem extract_range_of_squeezed_text (text0 : text) :
  squeeze (squeeze text0) = squeeze text0
  /\ extract_range (squeeze text0) = extract_range text0.
Proof.
  split; [apply squeeze_idempotent|].
  destruct text0 as [|c t]; [reflexivity|].
  destruct (squeeze (c :: t)) as [|c' t'] eqn:E.
  - rewrite (extract_range_cascade (c :: t)) by discriminate. cbv zeta.
    rewrite E. vm_compute. reflexivity.
  - rewrite <- E.
    rewrite (extract_range_cascade (squeeze (c :: t)))
      by (rewrite E; discriminate).
    rewrite (extract_range_cascade (c :: t)) by discriminate.
    cbv zeta. now rewrite squeeze_idempotent.
Qed.

(** ** The classification loop on reports and on concatenations *)

Section Composition.

Implicit Types (item out : Measurement) (all_data abnormals : list Measurement)
  (seen_tests : list text) (name : text).

Lemma abnormal_tagged item : abnormal (tagged item) = abnormal item.
Proof. reflexivity. Qed.

Lemma tagged_tagged item : tagged (tagged item) = tagged item.
Proof. reflexivity. Qed.

(** The results so far are only appended to. *)
Lemma classify_from_acc all_data : forall abnormals seen_tests,
  classify_from all_data abnormals seen_tests =
  abnormals ++ classify_from all_data [] seen_tests.
Proof.
  induction all_data as [|item more IH]; intros abnormals seen_tests.
  - simpl. now rewrite app_nil_r.
  - rewrite !classify_from_step.
    destruct (abnormal item && negb (seen (test_name item) seen_tests)).
    + rewrite IH, (IH ([] ++ [tagged item])). now rewrite <- app_assoc.
    + apply IH.
Qed.

(** Distinct abnormal items, none seen before, are all reported. *)
Lemma classify_from_distinct all_data : forall abnormals seen_tests,
  forallb abnormal all_data = true ->
  NoDup (map test_name all_data) ->
  (forall item, In item all_data -> seen (test_name item) seen_tests = false) ->
  classify_from all_data abnormals seen_tests =
  abnormals ++ map tagged all_data.
Proof.
  induction all_data as [|item more IH]; intros abnormals seen_tests Ha Hn Hs.
  - simpl. now rewrite app_nil_r.
  - simpl in Ha. apply andb_true_iff in Ha as [Hi Hm].
    inversion Hn as [|? ? Hnotin Hn']; subst.
    rewrite classify_from_step, Hi, (Hs item (or_introl eq_refl)).
    cbn [negb andb]. rewrite IH; [now rewrite <- app_assoc | exact Hm | exact Hn' |].
    intros x Hx. rewrite seen_cons, (Hs x (or_intror Hx)), orb_false_r.
    apply text_eqb_neq. intros E. apply Hnotin. rewrite <- E.
    now apply in_map.
Qed.

Lemma classify_all_tagged all_data out :
  In out (classify all_data) ->
  exists item, In item all_data /\ abnormal item = true /\ out = tagged item.
Proof.
  intros H. unfold classify in H.
  now apply classify_from_sound in H as [[] | H].
Qed.

Lemma seen_app name s1 s2 : seen name (s1 ++ s2) = seen name s1 || seen name s2.
Proof. apply existsb_app. Qed.

(** Only the names in the set of seen tests matter, not their order. *)
Lemma classify_from_seen_ext all_data : forall abnormals s1 s2,
  (forall name, seen name s1 = seen name s2) ->
  classify_from all_data abnormals s1 = classify_from all_data abnormals s2.
Proof.
  induction all_data as [|item more IH]; intros abnormals s1 s2 H;
    [reflexivity|].
  rewrite !classify_from_step, (H (test_name item)).
  destruct (abnormal item && negb (seen (test_name item) s2)).
  - apply IH. intros name. now rewrite !seen_cons, H.
  - now apply IH.
Qed.

Lemma filter_filter_weaker {A : Type} (f g : A -> bool) (l : list A) :
  (forall x, f x = true -> g x = true) ->
  filter f (filter g l) = filter f l.
Proof.
  intros H. induction l as [|x l IH]; [reflexivity|]. simpl.
  destruct (g x) eqn:G; simpl.
  - now rewrite IH.
  - destruct (f x) eqn:F; [|exact IH]. apply H in F. congruence.
Qed.

(** Names seen beforehand only take entries out of the report. *)
Lemma classify_from_seen_filter all_data : forall s0 s,
  classify_from all_data [] (s0 ++ s) =
  filter (fun out => negb (seen (test_name out) s))
         (classify_from all_data [] s0).
Proof.
  induction all_data as [|item more IH]; intros s0 s; [reflexivity|].
  rewrite !classify_from_step, seen_app.
  destruct (abnormal item) eqn:Ha; cbn [andb]; [|apply IH].
  destruct (seen (test_name item) s0) eqn:H0; cbn [orb negb]; [apply IH|].
  rewrite (classify_from_acc more ([] ++ [tagged item]) (test_name item :: s0)).
  cbn [app filter]. change (test_name (tagged item)) with (test_name item).
  destruct (seen (test_name item) s) eqn:Hs; cbn [negb].
  - rewrite IH.
    rewrite (classify_from_seen_ext more [] (test_name item :: s0)
               (s0 ++ [test_name item])).
    + rewrite (IH s0 [test_name item]). symmetry.
      apply filter_filter_weaker. intros out Hout.
      rewrite seen_cons. simpl. rewrite orb_false_r.
      apply negb_true_iff. apply text_eqb_neq. intros E.
      rewrite E, Hs in Hout. discriminate.
    + intros name. rewrite seen_app, !seen_cons. simpl.
      rewrite orb_false_r. apply orb_comm.
  - rewrite (classify_from_acc more [tagged item]
               (test_name item :: s0 ++ s)).
    cbn [app]. f_equal. exact (IH (test_name item :: s0) s).
Qed.

(** The loop on a concatenation: the second part is walked with the results
    and, up to order, the names of the first. *)
Lemma classify_from_app a : forall b abnormals seen_tests,
  exists s',
    (forall name,
       seen name s' =
       seen name seen_tests
       || seen name (map test_name (classify_from a [] seen_tests)))
    /\ classify_from (a ++ b) abnormals seen_tests =
       classify_from b (classify_from a abnormals seen_tests) s'.
Proof.
  induction a as [|item more IH]; intros b abnormals seen_tests.
  - exists seen_tests. split; [|reflexivity].
    intros name. simpl. now rewrite orb_false_r.
  - cbn [app]. rewrite !classify_from_step.
    destruct (abnormal item && negb (seen (test_name item) seen_tests)).
    + destruct (IH b (abnormals ++ [tagged item]) (test_name item :: seen_tests))
        as (s' & H1 & H2).
      exists s'. split; [|exact H2].
      intros name. rewrite H1.
      rewrite (classify_from_acc more ([] ++ [tagged item])).
      cbn [app map]. rewrite !seen_cons.
      change (test_name (tagged item)) with (test_name item).
      destruct (text_eqb name (test_name item)), (seen name seen_tests);
        reflexivity.
    + apply IH.
Qed.

End Composition.

(** Classifying a report again gives the same report: the results of the
    loop are abnormal, of distinct names, and already carry their status. *)
Theorem classify_is_idempotent (all_data : list Measurement) :
  classify (classify all_data) = classify all_data.
Proof.
  unfold classify at 1.
  rewrite classify_from_distinct.
  - simpl. rewrite <- (map_id (classify all_data)) at 2.
    apply map_ext_in. intros out Hin.
    apply classify_all_tagged in Hin as (item & _ & _ & ->).
    apply tagged_tagged.
  - apply forallb_forall. intros out Hin.
    apply classify_all_tagged in Hin as (item & _ & Ha & ->).
    now rewrite abnormal_tagged.
  - apply classify_names_NoDup.
  - reflexivity.
Qed.

(** The report of two sequences of measurements one after the other is the
    report of the first followed by the entries of the report of the second
    whose names the first has not reported; so the report of a sequence
    begins with the report of each of its beginnings. *)
Theorem classify_of_concatenation (a b : list Measurement) :
  classify (a ++ b) =
  classify a
  ++ filter (fun out => negb (seen (test_name out) (map test_name (classify a))))
            (classify b).
Proof.
  unfold classify.
  destruct (classify_from_app a b [] []) as (s' & H1 & ->).
  rewrite classify_from_acc. f_equal.
  rewrite (classify_from_seen_ext b [] s'
             ([] ++ map test_name (classify_from a [] []))).
  - apply classify_from_seen_filter.
  - intros name. now rewrite H1.
Qed.

(** ** The postal-code guard *)

Section PostalGuard.

Lemma search_from_found_later r a : forall pv s,
  found (match_at r (last_seen pv a) s) = true ->
  found (search_from r pv (a ++ s)) = true.
Proof.
  induction a as [|c a IH]; intros pv s H.
  - now apply found_here.
  - cbn [app]. destruct (match_at r pv (c :: a ++ s)) as [m|] eqn:E.
    + now rewrite (search_from_here _ _ _ m E).
    + rewrite (search_from_next _ _ _ _ E). now apply IH.
Qed.

Lemma digit_is_word c : is_digit c = true -> is_word c = true.
Proof. unfold is_word. intros ->. now rewrite orb_true_r. Qed.

Lemma first_bnd st :
  xorb (word_before (prev st)) (word_after (rest st)) = true ->
  first_is st (run Bnd st).
Proof. intros H. cbn [run]. rewrite H. now exists []. Qed.

Lemma first_rep_twice p pv d1 d2 b cs :
  p d1 = true -> p d2 = true ->
  first_is (State (Some d2) b cs)
           (run (Rep p 2 (Some 2)) (State pv (d1 :: d2 :: b) cs)).
Proof.
  intros H1 H2. cbn [run prev rest caps rep hi_pred Nat.pred].
  rewrite H1. cbn [rep hi_pred Nat.pred]. rewrite H2.
  destruct b; now exists [].
Qed.

Lemma first_lit c pv t cs :
  first_is (State (Some c) t cs) (run (Chr (lit c)) (State pv (c :: t) cs)).
Proof. apply first_chr. unfold lit. now apply chr_eqb_eq. Qed.

Lemma match_at_zip pv d1 d2 b :
  word_before pv = false -> is_digit d1 = true -> is_digit d2 = true ->
  word_after b = false ->
  found (match_at zip_re pv (txt "1100" ++ d1 :: d2 :: b)) = true.
Proof.
  intros Hpv H1 H2 Hb.
  assert (first_is (State (Some d2) b [])
            (run zip_re (State pv (txt "1100" ++ d1 :: d2 :: b) []))) as F.
  { unfold zip_re.
    apply first_seq with (mid := State pv (txt "1100" ++ d1 :: d2 :: b) []).
    { apply first_bnd. cbn [prev rest]. rewrite Hpv. reflexivity. }
    apply first_seq with (mid := State (Some "0"%char) (d1 :: d2 :: b) []).
    { change (txt "1100" ++ d1 :: d2 :: b)
        with ("1"%char :: "1"%char :: "0"%char :: "0"%char :: d1 :: d2 :: b).
      change (word (txt "1100"))
        with (Seq (Chr (lit "1")) (Seq (Chr (lit "1"))
                (Seq (Chr (lit "0")) (Seq (Chr (lit "0")) Eps)))).
      eapply first_seq; [apply first_lit|].
      eapply first_seq; [apply first_lit|].
      eapply first_seq; [apply first_lit|].
      eapply first_seq; [apply first_lit|].
      now exists []. }
    apply first_seq with (mid := State (Some d2) b []).
    { now apply first_rep_twice. }
    apply first_bnd. cbn [prev rest word_before].
    now rewrite (digit_is_word d2 H2), Hb. }
  now rewrite (match_at_first _ _ _ _ F).
Qed.

End PostalGuard.

(** A text in which a six-digit number beginning with 1100 stands as a word
    of its own (once the blanks are squeezed) gives no range, whatever ranges
    and markers it holds. *)
Theorem postal_code_blocks_the_range (text0 a b : text) (d1 d2 : ascii) :
  squeeze text0 = a ++ txt "1100" ++ d1 :: d2 :: b ->
  is_digit d1 = true -> is_digit d2 = true ->
  word_before (last_seen None a) = false ->
  word_after b = false ->
  extract_range text0 = Ok None.
Proof.
  intros E H1 H2 Ha Hb.
  destruct text0 as [|c t]; [reflexivity|].
  rewrite extract_range_cascade by discriminate. cbv zeta. rewrite E.
  unfold search.
  now rewrite (search_from_found_later zip_re a None _
                 (match_at_zip _ d1 d2 b Ha H1 H2 Hb)).
Qed.

Lemma postal_code_blocks_the_range_witness :
  extract_range (txt "Hb  9 (12-16)  New Delhi-110002") = Ok None.
Proof.
  apply (postal_code_blocks_the_range
           (txt "Hb  9 (12-16)  New Delhi-110002")
           (txt "Hb 9 (12-16) New Delhi-") [] "0" "2");
    vm_compute; reflexivity.
Defined.

(** ** The choice of the reader *)

Section Reader.

Lemma endswith_app suffix a : endswith suffix (a ++ suffix) = true.
Proof. unfold endswith. rewrite rev_app_distr. apply startswith_app. Qed.

End Reader.

(** An upload whose name ends in .pdf, in any letter case, is read as a PDF:
    what the OCR reader would make of it plays no part, and the text is the
    text of its pages, or the exception pdfplumber raises. *)
Theorem pdf_extension_in_any_case (f : FileStorage) (stem ext : text) :
  filename f = stem ++ ext ->
  lower ext = txt ".pdf" ->
  read_file f =
  match pdf_pages f with
  | Ok pages => Ok (read_pages pages [])
  | Raise e => Raise e
  end.
Proof.
  intros Hn He. unfold read_file.
  rewrite Hn, lower_app, He, endswith_app.
  now destruct (pdf_pages f).
Qed.

Lemma pdf_extension_in_any_case_witness :
  read_file pdf_digits_in_table_only = Ok [].
Proof.
  exact (pdf_extension_in_any_case pdf_digits_in_table_only
           (txt "Report") (txt ".PDF") eq_refl eq_refl).
Defined.

(** ** Letter case *)

Section LetterCase.













End LetterCase.


(** ** An image with one line *)

(** From the upload to the answer: for an image on which the OCR reader
    finds the one line [<alias> <value> (<min>-<max>)], under the conditions
    under which the parser reads the line (an exact alias, decimal literals, a
    value the filter keeps, a maximum of at most 50000, no postal code), the
    view reports the test once, as Low or High, when the value lies outside
    the range, and reports nothing when it lies inside. *)
Theorem scanned_line_report
    (extractOne : text -> list text -> Z -> option (text * Z))
    (f : FileStorage)
    (alias name v lo hi : text) (value_f min_f max_f : float) :
  endswith (txt ".pdf") (lower (filename f)) = false ->
  ocr_list f = Ok [single_line alias v lo hi] ->
  In alias exact_aliases ->
  std_name_of alias = Some name ->
  py_float v = Some value_f ->
  py_float lo = Some min_f ->
  py_float hi = Some max_f ->
  keeps value_f = true ->
  gtb max_f (of_Z 50000) = false ->
  found (search zip_re (single_line alias v lo hi)) = false ->
  analyze_route extractOne (Some f) =
  if ltb value_f min_f
  then Report 1 [Measure name value_f min_f max_f (lo ++ txt "-" ++ hi)
                         (Some (txt "Low"))]
  else if gtb value_f max_f
  then Report 1 [Measure name value_f min_f max_f (lo ++ txt "-" ++ hi)
                         (Some (txt "High"))]
  else Report 0 [].
Proof.
  intros Hn Ho Halias Hname Fv Flo Fhi Hkeep Hmax Hzip.
  unfold analyze_route, analyze_file, read_file. rewrite Hn, Ho.
  cbn [bind join].
  rewrite (line_measurement extractOne alias v lo hi Halias
             (py_float_is_decimal v value_f Fv)
             (py_float_is_decimal lo min_f Flo)
             (py_float_is_decimal hi max_f Fhi)
             name value_f min_f max_f Hname Fv Flo Fhi Hkeep Hmax Hzip).
  unfold classify. rewrite classify_from_step. unfold abnormal, tagged.
  cbn [test_name value min max range status seen existsb negb andb
       with_status].
  rewrite andb_true_r.
  destruct (ltb value_f min_f); [reflexivity|].
  now destruct (gtb value_f max_f).
Qed.

Lemma scanned_line_report_witness :
  analyze_route no_fuzzy (Some tsh_scan) =
  Report 1 [Measure (txt "TSH") (Fin (11 # 2)%Q) (Fin (1 # 2)%Q) (of_Z 5)
                    (txt "0.5-5.0") (Some (txt "High"))].
Proof.
  refine (scanned_line_report no_fuzzy tsh_scan
            (txt "TSH") (txt "TSH") (txt "5.5") (txt "0.5") (txt "5.0")
            (Fin (11 # 2)%Q) (Fin (1 # 2)%Q) (of_Z 5) _ _ _ _ _ _ _ _ _ _).
  - vm_compute. reflexivity.
  - reflexivity.
  - left. reflexivity.
  - vm_compute. reflexivity.
  - vm_compute. reflexivity.
  - vm_compute. reflexivity.
  - vm_compute. reflexivity.
  - vm_compute. reflexivity.
  - vm_compute. reflexivity.
  - vm_compute. reflexivity.
Defined.
